(** * OnliDesk client file transfer: a shallow embedding and its properties

    The development follows the client sources under
    [src/client/src/filetransfer]:

    - [FileTransferManager.h]    enumerations and plain structs;
    - [FileTransferSession.cpp]  per-transfer state ([Session]);
    - [FileTransferWorker.cpp]   chunk scheduling and retries ([Worker]);
    - [ApprovalDialog.cpp]       the approval prompt ([Dialog]);
    - [FileTransferManager.cpp]  the controller ([Manager]).

    Machine integers are [Z] with the wrap-around written out, [QString] is
    [string] (one [ascii] per code unit), [QByteArray] is [list byte],
    [QHash]/[QMap] are [gmap].  Signals that a slot emits and frames that it
    sends are returned as a list of effects next to the new state.  A [double]
    is a primitive binary64 float.  Wall-clock time stamps are left out. *)

From Stdlib Require Import ZArith Lia List Ascii Bool Floats.
From Stdlib.Strings Require Import Byte.
From stdpp Require Import base option list gmap strings pretty.

Local Open Scope Z_scope.

(* ===================================================================== *)
(** * Part I: definitions                                                 *)
(* ===================================================================== *)

(** ** Machine integers *)

Definition INT_MAX : Z := 2 ^ 31 - 1.
Definition INT_MIN : Z := - 2 ^ 31.
Definition INT64_MAX : Z := 2 ^ 63 - 1.

(** Conversion of a mathematical integer to [int] and to [qint64]
    (two's complement). *)
Definition wrap32 (z : Z) : Z := (z + 2 ^ 31) mod 2 ^ 32 - 2 ^ 31.
Definition wrap64 (z : Z) : Z := (z + 2 ^ 63) mod 2 ^ 64 - 2 ^ 63.

(** [static_cast<double>] of an integer: the nearest binary64 value, ties
    to even. *)
Definition doubleOf (z : Z) : float :=
  SF2Prim (SpecFloat.binary_normalize prec emax z 0 false).

Definition qMax (a b : Z) : Z := if a <? b then b else a.
Definition qMin (a b : Z) : Z := if b <? a then b else a.

(** ** Qt value types *)

Module Qt.

Definition QString := string.
Definition QByteArray := list byte.

Definition byteZ (b : byte) : Z := Z.of_N (Byte.to_N b).
(** [QByteArray::size()]. *)
Definition sizeOf (d : QByteArray) : Z := Z.of_nat (length d).

(** [static_cast<char>(v)] for [v] in [0, 255]. *)
Definition charOf (v : Z) : byte :=
  match Byte.of_N (Z.to_N (v mod 256)) with
  | Some b => b
  | None => x00
  end.

(** [QByteArray::mid(pos, len)], with Qt 5's
    [QContainerImplHelper::mid] spelled out; [len = -1] is the default
    argument. *)
Definition mid (d : QByteArray) (pos len : Z) : QByteArray :=
  let n := sizeOf d in
  if n <? pos then []
  else if pos <? 0 then
    if (len <? 0) || (n <=? len + pos) then d
    else if len + pos <=? 0 then []
    else take (Z.to_nat (len + pos)) d
  else
    let len' := if (len <? 0) || (n - pos <? len) then n - pos else len in
    take (Z.to_nat len') (drop (Z.to_nat pos) d).

Definition bytesOf (s : string) : QByteArray := String.list_byte_of_string s.
Definition textOf (d : QByteArray) : string := String.string_of_list_byte d.

(** [QChar::toLower] on the ASCII range. *)
Definition lowerChar (c : ascii) : ascii :=
  let n := nat_of_ascii c in
  if ((65 <=? n) && (n <=? 90))%nat then ascii_of_nat (n + 32) else c.

Fixpoint toLower (s : string) : string :=
  match s with
  | EmptyString => EmptyString
  | String c r => String (lowerChar c) (toLower r)
  end.

Definition isEmpty (s : string) : bool :=
  match s with EmptyString => true | _ => false end.

Fixpoint startsWith (s p : string) : bool :=
  match p, s with
  | EmptyString, _ => true
  | String a p', String b s' => if Ascii.eqb a b then startsWith s' p' else false
  | String _ _, EmptyString => false
  end.

(** [s.compare(t, Qt::CaseInsensitive) == 0]. *)
Definition equalsCI (s t : string) : bool := String.eqb (toLower s) (toLower t).

(** The text after the last occurrence of [c], if [c] occurs. *)
Fixpoint afterLast (c : ascii) (s : string) : option string :=
  match s with
  | EmptyString => None
  | String a r =>
      match afterLast c r with
      | Some t => Some t
      | None => if Ascii.eqb a c then Some r else None
      end
  end.

(** [QFileInfo(path).fileName()]: the part after the last slash. *)
Definition fileName (path : string) : string :=
  default path (afterLast "/"%char path).

(** [QFileInfo(path).suffix()]: the part of the file name after its last
    dot, empty when it has none. *)
Definition suffix (path : string) : string :=
  default EmptyString (afterLast "."%char (fileName path)).

(** [QStringList::contains]. *)
Definition contains (l : list string) (s : string) : bool :=
  existsb (String.eqb s) l.

(** [QString::arg] of an integer. *)
Definition number (z : Z) : string := pretty z.

End Qt.
Import Qt.

(** ** Enumerations and structs of [FileTransferManager.h] *)

(** [OtherType n] is [static_cast<TransferType>(n)] for an [n] that names no
    enumerator. *)
Inductive TransferType := Upload | Download | OtherType (n : Z).

Inductive TransferStatus :=
  Pending | Approved | InProgress | Paused | Completed | Failed | Cancelled | Rejected.

Global Instance TransferStatus_eq_dec : EqDecision TransferStatus.
Proof. solve_decision. Defined.

Global Instance TransferType_eq_dec : EqDecision TransferType.
Proof. solve_decision. Defined.

Record FileTransferRequest := {
  id : string;
  sessionId : string;
  filename : string;
  fileSize : Z;            (* qint64 *)
  checksum : string;
  type : TransferType;
  technician : string;
  localPath : string
}.

Record FileTransferProgress := {
  transferId : string;
  bytesTransferred : Z;    (* qint64 *)
  totalBytes : Z;          (* qint64 *)
  percentage : float;      (* double *)
  speed : Z;
  remainingTime : Z
}.

Record FileChunk := {
  chunk_transferId : string;
  chunkIndex : Z;          (* int *)
  data : QByteArray;
  chunk_checksum : string;
  isLast : bool
}.

(** The terminal statuses of the specification. *)
Definition terminal (s : TransferStatus) : bool :=
  match s with
  | Completed | Failed | Cancelled | Rejected => true
  | _ => false
  end.

(** [CHUNK_SIZE] is declared in [FileTransferSession.h], which is not part of
    the sources at hand; the code is read for any value of it. *)
Class ChunkSize := { CHUNK_SIZE : Z }.

(** [QCryptographicHash(Sha256)] followed by [toHex]. *)
Class Sha256 := { sha256Hex : QByteArray -> string }.

(** ** [FileTransferSession] *)

Module Session.

Inductive Signal :=
| statusChanged (s : TransferStatus)
| progressUpdated (p : FileTransferProgress).

Record t := {
  m_request : FileTransferRequest;
  m_status : TransferStatus;
  m_progress : FileTransferProgress;
  m_error : string;
  m_retryCount : Z;
  m_maxRetries : Z;
  m_isPaused : bool;
  m_isCancelled : bool;
  m_file : option QByteArray;     (* the open file and its content *)
  m_totalChunks : Z;              (* int *)
  m_completedChunks : Z;          (* int *)
  m_lastBytesTransferred : Z;
  m_speedCalculationTimer : bool  (* running? *)
}.

Definition with_status (v : TransferStatus) (timer : bool) (s : t) : t :=
  {| m_request := m_request s; m_status := v; m_progress := m_progress s;
     m_error := m_error s; m_retryCount := m_retryCount s;
     m_maxRetries := m_maxRetries s; m_isPaused := m_isPaused s;
     m_isCancelled := m_isCancelled s; m_file := m_file s;
     m_totalChunks := m_totalChunks s; m_completedChunks := m_completedChunks s;
     m_lastBytesTransferred := m_lastBytesTransferred s;
     m_speedCalculationTimer := timer |}.

Definition with_progress (p : FileTransferProgress) (completed last : Z) (s : t) : t :=
  {| m_request := m_request s; m_status := m_status s; m_progress := p;
     m_error := m_error s; m_retryCount := m_retryCount s;
     m_maxRetries := m_maxRetries s; m_isPaused := m_isPaused s;
     m_isCancelled := m_isCancelled s; m_file := m_file s;
     m_totalChunks := m_totalChunks s; m_completedChunks := completed;
     m_lastBytesTransferred := last;
     m_speedCalculationTimer := m_speedCalculationTimer s |}.

Definition with_error (e : string) (s : t) : t :=
  {| m_request := m_request s; m_status := m_status s; m_progress := m_progress s;
     m_error := e; m_retryCount := m_retryCount s;
     m_maxRetries := m_maxRetries s; m_isPaused := m_isPaused s;
     m_isCancelled := m_isCancelled s; m_file := m_file s;
     m_totalChunks := m_totalChunks s; m_completedChunks := m_completedChunks s;
     m_lastBytesTransferred := m_lastBytesTransferred s;
     m_speedCalculationTimer := m_speedCalculationTimer s |}.

Definition with_flags (paused cancelled : bool) (s : t) : t :=
  {| m_request := m_request s; m_status := m_status s; m_progress := m_progress s;
     m_error := m_error s; m_retryCount := m_retryCount s;
     m_maxRetries := m_maxRetries s; m_isPaused := paused;
     m_isCancelled := cancelled; m_file := m_file s;
     m_totalChunks := m_totalChunks s; m_completedChunks := m_completedChunks s;
     m_lastBytesTransferred := m_lastBytesTransferred s;
     m_speedCalculationTimer := m_speedCalculationTimer s |}.

Definition with_retries (count limit : Z) (s : t) : t :=
  {| m_request := m_request s; m_status := m_status s; m_progress := m_progress s;
     m_error := m_error s; m_retryCount := count;
     m_maxRetries := limit; m_isPaused := m_isPaused s;
     m_isCancelled := m_isCancelled s; m_file := m_file s;
     m_totalChunks := m_totalChunks s; m_completedChunks := m_completedChunks s;
     m_lastBytesTransferred := m_lastBytesTransferred s;
     m_speedCalculationTimer := m_speedCalculationTimer s |}.

Definition with_file (f : option QByteArray) (s : t) : t :=
  {| m_request := m_request s; m_status := m_status s; m_progress := m_progress s;
     m_error := m_error s; m_retryCount := m_retryCount s;
     m_maxRetries := m_maxRetries s; m_isPaused := m_isPaused s;
     m_isCancelled := m_isCancelled s; m_file := f;
     m_totalChunks := m_totalChunks s; m_completedChunks := m_completedChunks s;
     m_lastBytesTransferred := m_lastBytesTransferred s;
     m_speedCalculationTimer := m_speedCalculationTimer s |}.

Section WithChunkSize.
Context `{ChunkSize}.

(** The chunk count of the constructor: [qint64] arithmetic with C++
    division, stored in an [int]. *)
Definition totalChunksFor (size : Z) : Z :=
  if 0 <? size
  then wrap32 (Z.quot (wrap64 (wrap64 (size + CHUNK_SIZE) - 1)) CHUNK_SIZE)
  else 0.

(** [FileTransferSession::FileTransferSession]. *)
Definition new (request : FileTransferRequest) : t :=
  {| m_request := request;
     m_status := Pending;
     m_progress := {| transferId := id request; bytesTransferred := 0;
                      totalBytes := fileSize request; percentage := 0%float;
                      speed := 0; remainingTime := 0 |};
     m_error := EmptyString;
     m_retryCount := 0;
     m_maxRetries := 3;
     m_isPaused := false;
     m_isCancelled := false;
     m_file := None;
     m_totalChunks := totalChunksFor (fileSize request);
     m_completedChunks := 0;
     m_lastBytesTransferred := 0;
     m_speedCalculationTimer := false |}.

(** [(static_cast<double>(b) / total) * 100.0]: [total] is converted to
    [double] for the division, and the quotient and the product are each
    rounded. *)
Definition percentOf (b total : Z) : float :=
  (doubleOf b / doubleOf total * 100)%float.

Definition progress_with_bytes (b : Z) (p : FileTransferProgress) : FileTransferProgress :=
  {| transferId := transferId p; bytesTransferred := b;
     totalBytes := totalBytes p;
     percentage := if 0 <? totalBytes p then percentOf b (totalBytes p)
                   else percentage p;
     speed := speed p; remainingTime := remainingTime p |}.

(** [FileTransferSession::updateProgress]. *)
Definition updateProgress (bytes : Z) (s : t) : t * list Signal :=
  let p := progress_with_bytes bytes (m_progress s) in
  (with_progress p (m_completedChunks s) (m_lastBytesTransferred s) s,
   [progressUpdated p]).

(** [FileTransferSession::updateChunkProgress]. *)
Definition updateChunkProgress (completedChunks : Z) (s : t) : t * list Signal :=
  let p :=
    if 0 <? m_totalChunks s then
      let bytes := wrap64 (completedChunks * CHUNK_SIZE) in
      let bytes :=
        if (completedChunks =? m_totalChunks s) && (0 <? fileSize (m_request s))
        then fileSize (m_request s) else bytes in
      progress_with_bytes (qMin bytes (fileSize (m_request s))) (m_progress s)
    else m_progress s in
  (with_progress p completedChunks (m_lastBytesTransferred s) s,
   [progressUpdated p]).

(** [FileTransferSession::readChunk]; an empty array is the failure
    value. *)
Definition readChunk (chunkIndex : Z) (s : t) : QByteArray :=
  match m_file s with
  | None => []
  | Some content =>
      let offset := wrap64 (chunkIndex * CHUNK_SIZE) in
      let remainingBytes := wrap64 (fileSize (m_request s) - offset) in
      let chunkSize := wrap32 (qMin CHUNK_SIZE remainingBytes) in
      if chunkSize <=? 0 then []
      else if offset <? 0 then []
      else
        let got := take (Z.to_nat chunkSize) (drop (Z.to_nat offset) content) in
        if sizeOf got =? chunkSize then got else []
  end.

(** [FileTransferSession::writeChunk]: seek to the chunk's offset (the
    gap, if any, reads as zero bytes) and overwrite. *)
Definition writeChunk (chunkIndex : Z) (d : QByteArray) (s : t) : t * bool :=
  match m_file s with
  | None => (s, false)
  | Some content =>
      let offset := wrap64 (chunkIndex * CHUNK_SIZE) in
      if offset <? 0 then (s, false)
      else
        let o := Z.to_nat offset in
        let padded := content ++ replicate (o - length content)%nat x00 in
        (with_file (Some (take o padded ++ d ++ drop (o + length d)%nat content)) s,
         true)
  end.

End WithChunkSize.

(** [FileTransferSession::setStatus]. *)
Definition setStatus (status : TransferStatus) (s : t) : t * list Signal :=
  if decide (m_status s = status) then (s, [])
  else
    let oldStatus := m_status s in
    let timer :=
      match status, oldStatus with
      | InProgress, Approved => true
      | (Completed | Failed | Cancelled), _ => false
      | Paused, _ => false
      | InProgress, Paused => true
      | _, _ => m_speedCalculationTimer s
      end in
    (with_status status timer s, [statusChanged status]).

(** [FileTransferSession::setError]. *)
Definition setError (e : string) (s : t) : t * list Signal :=
  setStatus Failed (with_error e s).

(** [FileTransferSession::setPaused]. *)
Definition setPaused (paused : bool) (s : t) : t * list Signal :=
  let s := with_flags paused (m_isCancelled s) s in
  if paused then setStatus Paused s else setStatus InProgress s.

(** [FileTransferSession::setCancelled]. *)
Definition setCancelled (cancelled : bool) (s : t) : t * list Signal :=
  let s := with_flags (m_isPaused s) cancelled s in
  if cancelled then setStatus Cancelled s else (s, []).

Definition incrementRetryCount (s : t) : t :=
  with_retries (wrap32 (m_retryCount s + 1)) (m_maxRetries s) s.

Definition canRetry (s : t) : bool := m_retryCount s <? m_maxRetries s.

Definition setMaxRetries (n : Z) (s : t) : t := with_retries (m_retryCount s) n s.

(** [FileTransferSession::openFile].  [onDisk] is what the file system
    holds at [localPath] when it can be opened in the requested mode. *)
Definition openFile (onDisk : option QByteArray) (s : t) : t * bool :=
  match m_file s with
  | Some _ => (s, true)
  | None =>
      match onDisk with
      | None =>
          (with_error ("Failed to open file: " +:+ localPath (m_request s)) s, false)
      | Some content =>
          match type (m_request s) with
          | Upload => (with_file (Some content) s, true)
          | _ => (with_file (Some []) s, true)      (* WriteOnly | Truncate *)
          end
      end
  end.

Definition closeFile (s : t) : t := with_file None s.

(** [FileTransferSession::verifyChecksum]. *)
Definition verifyChecksum `{Sha256} (expected : string) (s : t) : t * bool :=
  match m_file s with
  | None => (with_error "Failed to calculate file checksum" s, false)
  | Some content =>
      let actual := sha256Hex content in
      if isEmpty actual
      then (with_error "Failed to calculate file checksum" s, false)
      else if equalsCI actual expected then (s, true)
      else (with_error ("Checksum mismatch. Expected: " +:+ expected +:+
                        ", Actual: " +:+ actual) s, false)
  end.

(** [FileTransferSession::statusToString] and [stringToStatus]. *)
Definition statusToString (s : TransferStatus) : string :=
  match s with
  | Pending => "pending" | Approved => "approved" | Rejected => "rejected"
  | InProgress => "in_progress" | Paused => "paused" | Completed => "completed"
  | Failed => "failed" | Cancelled => "cancelled"
  end.

Definition stringToStatus (s : string) : TransferStatus :=
  if String.eqb s "pending" then Pending
  else if String.eqb s "approved" then Approved
  else if String.eqb s "rejected" then Rejected
  else if String.eqb s "in_progress" then InProgress
  else if String.eqb s "paused" then Paused
  else if String.eqb s "completed" then Completed
  else if String.eqb s "failed" then Failed
  else if String.eqb s "cancelled" then Cancelled
  else Pending.

End Session.

(** ** [FileTransferWorker] *)

Module Worker.

Definition CHUNK_TIMEOUT : Z := 30000.
Definition MAX_CHUNK_RETRIES : Z := 3.
Definition RETRY_DELAY_BASE : Z := 1000.

Inductive Signal :=
| transferFailed (error : string)
| transferCompleted
| transferCancelled
| chunkReady (chunk : FileChunk)
| chunkRequested (transfer : string) (index : Z)
| fromSession (sig : Session.Signal).

Record t := {
  m_isRunning : bool;
  m_isPaused : bool;
  m_isCancelled : bool;
  m_currentChunkIndex : Z;
  m_totalChunks : Z;
  m_completedChunks : Z;
  m_completedChunkIndices : gset Z;
  m_failedChunks : gset Z;
  m_chunkRetries : gmap Z Z;
  m_progressTimer : bool;        (* running? *)
  m_chunkTimeoutTimer : bool;    (* running? single shot, CHUNK_TIMEOUT *)
  m_retryTimer : bool;           (* running? single shot *)
  m_retryInterval : Z            (* its interval, in ms *)
}.

Definition with_flags (running paused cancelled : bool) (w : t) : t :=
  {| m_isRunning := running; m_isPaused := paused; m_isCancelled := cancelled;
     m_currentChunkIndex := m_currentChunkIndex w; m_totalChunks := m_totalChunks w;
     m_completedChunks := m_completedChunks w;
     m_completedChunkIndices := m_completedChunkIndices w;
     m_failedChunks := m_failedChunks w; m_chunkRetries := m_chunkRetries w;
     m_progressTimer := m_progressTimer w;
     m_chunkTimeoutTimer := m_chunkTimeoutTimer w;
     m_retryTimer := m_retryTimer w; m_retryInterval := m_retryInterval w |}.

Definition with_current (index : Z) (w : t) : t :=
  {| m_isRunning := m_isRunning w; m_isPaused := m_isPaused w;
     m_isCancelled := m_isCancelled w;
     m_currentChunkIndex := index; m_totalChunks := m_totalChunks w;
     m_completedChunks := m_completedChunks w;
     m_completedChunkIndices := m_completedChunkIndices w;
     m_failedChunks := m_failedChunks w; m_chunkRetries := m_chunkRetries w;
     m_progressTimer := m_progressTimer w;
     m_chunkTimeoutTimer := m_chunkTimeoutTimer w;
     m_retryTimer := m_retryTimer w; m_retryInterval := m_retryInterval w |}.

Definition with_counts (total completed : Z) (indices : gset Z) (w : t) : t :=
  {| m_isRunning := m_isRunning w; m_isPaused := m_isPaused w;
     m_isCancelled := m_isCancelled w;
     m_currentChunkIndex := m_currentChunkIndex w; m_totalChunks := total;
     m_completedChunks := completed;
     m_completedChunkIndices := indices;
     m_failedChunks := m_failedChunks w; m_chunkRetries := m_chunkRetries w;
     m_progressTimer := m_progressTimer w;
     m_chunkTimeoutTimer := m_chunkTimeoutTimer w;
     m_retryTimer := m_retryTimer w; m_retryInterval := m_retryInterval w |}.

Definition with_failures (failed : gset Z) (retries : gmap Z Z) (w : t) : t :=
  {| m_isRunning := m_isRunning w; m_isPaused := m_isPaused w;
     m_isCancelled := m_isCancelled w;
     m_currentChunkIndex := m_currentChunkIndex w; m_totalChunks := m_totalChunks w;
     m_completedChunks := m_completedChunks w;
     m_completedChunkIndices := m_completedChunkIndices w;
     m_failedChunks := failed; m_chunkRetries := retries;
     m_progressTimer := m_progressTimer w;
     m_chunkTimeoutTimer := m_chunkTimeoutTimer w;
     m_retryTimer := m_retryTimer w; m_retryInterval := m_retryInterval w |}.

Definition with_timers (progress timeout retry : bool) (interval : Z) (w : t) : t :=
  {| m_isRunning := m_isRunning w; m_isPaused := m_isPaused w;
     m_isCancelled := m_isCancelled w;
     m_currentChunkIndex := m_currentChunkIndex w; m_totalChunks := m_totalChunks w;
     m_completedChunks := m_completedChunks w;
     m_completedChunkIndices := m_completedChunkIndices w;
     m_failedChunks := m_failedChunks w; m_chunkRetries := m_chunkRetries w;
     m_progressTimer := progress;
     m_chunkTimeoutTimer := timeout;
     m_retryTimer := retry; m_retryInterval := interval |}.

Definition startChunkTimeout (w : t) : t :=
  with_timers (m_progressTimer w) true (m_retryTimer w) (m_retryInterval w) w.
Definition stopChunkTimeout (w : t) : t :=
  with_timers (m_progressTimer w) false (m_retryTimer w) (m_retryInterval w) w.
Definition stopAllTimers (w : t) : t :=
  with_timers false false false (m_retryInterval w) w.

(** A worker and the session [m_session] points to (never null where the
    controller creates workers). *)
Definition state : Type := t * Session.t.
Definition result : Type := state * list Signal.

Definition liftSession (sigs : list Session.Signal) : list Signal :=
  map fromSession sigs.

(** The least [i] in [from, from + fuel) that is not completed yet: the
    search loop of [processNextChunk]. *)
Fixpoint firstUnprocessed (done : gset Z) (from : Z) (fuel : nat) : option Z :=
  match fuel with
  | O => None
  | S fuel' =>
      if decide (from ∈ done) then firstUnprocessed done (from + 1) fuel'
      else Some from
  end.

(** [*m_failedChunks.begin()]: [QSet] does not fix an iteration order; the
    least element is taken. *)
Definition firstFailed (failed : gset Z) : option Z :=
  foldr (fun i least => Some (from_option (Z.min i) i least)) None (elements failed).

Section WithEnvironment.
Context `{ChunkSize} `{Sha256}.

(** [FileTransferWorker::FileTransferWorker]. *)
Definition new (s : Session.t) : t :=
  {| m_isRunning := false; m_isPaused := false; m_isCancelled := false;
     m_currentChunkIndex := 0;
     m_totalChunks := Session.totalChunksFor (fileSize (Session.m_request s));
     m_completedChunks := 0;
     m_completedChunkIndices := ∅;
     m_failedChunks := ∅; m_chunkRetries := ∅;
     m_progressTimer := false; m_chunkTimeoutTimer := false;
     m_retryTimer := false; m_retryInterval := 0 |}.

(** [checkCanContinue].  While the worker is paused the code waits here on
    [m_pauseCondition], and goes on when [resumeTransfer] or
    [cancelTransfer], called from the controller's thread, wakes it.  That
    wait is between two threads and is not modelled: a slot that reaches it
    is taken to end there, and what the code does with it after the wake-up
    is outside this development. *)
Definition checkCanContinue (w : t) : bool :=
  if m_isCancelled w || negb (m_isRunning w) then false
  else negb (m_isPaused w).

(** [FileTransferWorker::completeTransfer]. *)
Definition completeTransfer (st : state) : result :=
  let '(w, s) := st in
  if negb (m_isRunning w) || m_isCancelled w then (st, [])
  else
    let w := stopAllTimers (with_flags false (m_isPaused w) (m_isCancelled w) w) in
    let verify :=
      match type (Session.m_request s) with
      | Download => negb (isEmpty (checksum (Session.m_request s)))
      | _ => false
      end in
    let '(s, ok) :=
      if verify then Session.verifyChecksum (checksum (Session.m_request s)) s
      else (s, true) in
    if negb ok then ((w, s), [transferFailed (Session.m_error s)])
    else
      let '(s, sigs) := Session.setStatus Completed (Session.closeFile s) in
      ((w, s), liftSession sigs ++ [transferCompleted]).

(** [FileTransferWorker::sendChunk]. *)
Definition sendChunk (index : Z) (st : state) : result :=
  let '(w, s) := st in
  if negb (checkCanContinue w) then (st, [])
  else
    let chunkData := Session.readChunk index s in
    if (sizeOf chunkData =? 0) && (index <? m_totalChunks w - 1)
    then (st, [transferFailed ("Failed to read chunk " +:+ number index)])
    else
      let chunk := {| chunk_transferId := id (Session.m_request s);
                      chunkIndex := index; data := chunkData;
                      chunk_checksum := sha256Hex chunkData;
                      isLast := index =? m_totalChunks w - 1 |} in
      ((startChunkTimeout (with_current index w), s), [chunkReady chunk]).

(** [FileTransferWorker::requestChunk]. *)
Definition requestChunk (index : Z) (st : state) : result :=
  let '(w, s) := st in
  if negb (checkCanContinue w) then (st, [])
  else ((startChunkTimeout (with_current index w), s),
        [chunkRequested (id (Session.m_request s)) index]).

Definition transmit (index : Z) (st : state) : result :=
  match type (Session.m_request (snd st)) with
  | Upload => sendChunk index st
  | _ => requestChunk index st
  end.

(** [FileTransferWorker::processUpload] and [processDownload]. *)
Definition processUpload (st : state) : result :=
  let '(w, s) := st in
  if m_totalChunks w =? 0 then (st, [transferFailed "Invalid upload session"])
  else sendChunk 0 (with_current 0 w, s).

Definition processDownload (st : state) : result :=
  let '(w, s) := st in requestChunk 0 (with_current 0 w, s).

(** [FileTransferWorker::startTransfer]. *)
Definition startTransfer (onDisk : option QByteArray) (st : state) : result :=
  let '(w, s) := st in
  if m_isRunning w then (st, [])
  else
    let w := with_failures ∅ ∅
               (with_counts (m_totalChunks w) 0 (m_completedChunkIndices w)
                  (with_current 0 (with_flags true false false w))) in
    let '(s, ok) := Session.openFile onDisk s in
    if negb ok then ((w, s), [transferFailed (Session.m_error s)])
    else
      let w := with_timers true (m_chunkTimeoutTimer w) (m_retryTimer w)
                 (m_retryInterval w) w in
      match type (Session.m_request s) with
      | Upload => processUpload (w, s)
      | _ => processDownload (w, s)
      end.

(** The failure bookkeeping shared by [onChunkTimeout] and the checksum
    branch of [processReceivedChunk]. *)
Definition retryCountAfterFailure (index : Z) (w : t) : Z :=
  wrap32 (default 0 (m_chunkRetries w !! index) + 1).

Definition backoffDelay (retryCount : Z) : Z :=
  wrap32 (RETRY_DELAY_BASE * wrap32 (Z.shiftl 1 (retryCount - 1))).

Definition recordFailure (index : Z) (what : string) (st : state) : result :=
  let '(w, s) := st in
  let retryCount := retryCountAfterFailure index w in
  let w := with_failures ({[index]} ∪ m_failedChunks w)
             (<[index := retryCount]> (m_chunkRetries w)) w in
  if MAX_CHUNK_RETRIES <=? retryCount
  then ((w, s), [transferFailed ("Chunk " +:+ number index +:+ what +:+
                                 number MAX_CHUNK_RETRIES +:+ " retries")])
  else
    ((with_timers (m_progressTimer w) (m_chunkTimeoutTimer w) true
        (backoffDelay retryCount) w, s), []).

(** [FileTransferWorker::onChunkTimeout]. *)
Definition onChunkTimeout (st : state) : result :=
  let '(w, s) := st in
  if negb (m_isRunning w) || m_isCancelled w then (st, [])
  else recordFailure (m_currentChunkIndex w) " failed after " st.

(** [FileTransferWorker::retryCurrentChunk]. *)
Definition retryCurrentChunk (st : state) : result :=
  let '(w, s) := st in
  if negb (m_isRunning w) || m_isCancelled w then (st, [])
  else
    let w := with_failures (m_failedChunks w ∖ {[m_currentChunkIndex w]})
               (m_chunkRetries w) w in
    transmit (m_currentChunkIndex w) (w, s).

(** [FileTransferWorker::processNextChunk]. *)
Definition processNextChunk (st : state) : result :=
  let '(w, s) := st in
  if negb (checkCanContinue w) then (st, [])
  else if m_totalChunks w <=? m_completedChunks w then completeTransfer st
  else
    let nextChunk :=
      match firstFailed (m_failedChunks w) with
      | Some i => Some i
      | None => firstUnprocessed (m_completedChunkIndices w) 0
                  (Z.to_nat (m_totalChunks w))
      end in
    match nextChunk with
    | None => completeTransfer st
    | Some i => transmit i (with_current i w, s)
    end.

(** Marking a chunk as completed, as both [onChunkAcknowledged] and
    [processReceivedChunk] do. *)
Definition markCompleted (index : Z) (st : state) : result :=
  let '(w, s) := st in
  if decide (index ∈ m_completedChunkIndices w) then (st, [])
  else
    let completed := wrap32 (m_completedChunks w + 1) in
    let w := with_counts (m_totalChunks w) completed
               ({[index]} ∪ m_completedChunkIndices w) w in
    let '(s, sigs) := Session.updateChunkProgress completed s in
    ((w, s), liftSession sigs).

Definition forget (index : Z) (w : t) : t :=
  with_failures (m_failedChunks w ∖ {[index]}) (delete index (m_chunkRetries w)) w.

(** [FileTransferWorker::onChunkAcknowledged]. *)
Definition onChunkAcknowledged (index : Z) (st : state) : result :=
  let '(w, s) := st in
  if negb (m_isRunning w) || m_isCancelled w then (st, [])
  else
    let w := if index =? m_currentChunkIndex w then stopChunkTimeout w else w in
    let fresh := negb (bool_decide (index ∈ m_completedChunkIndices w)) in
    let '((w, s), e1) := markCompleted index (w, s) in
    if fresh && (m_totalChunks w <=? m_completedChunks w)
    then let '(st, e2) := completeTransfer (w, s) in (st, e1 ++ e2)
    else let '(st, e2) := processNextChunk (forget index w, s) in (st, e1 ++ e2).

(** [FileTransferWorker::processReceivedChunk]. *)
Definition processReceivedChunk (chunk : FileChunk) (st : state) : result :=
  let '(w, s) := st in
  if negb (checkCanContinue w) then (st, [])
  else if negb (equalsCI (sha256Hex (data chunk)) (chunk_checksum chunk))
  then recordFailure (chunkIndex chunk) " checksum failed after " st
  else
    let '(s, ok) := Session.writeChunk (chunkIndex chunk) (data chunk) s in
    if negb ok
    then ((w, s), [transferFailed ("Failed to write chunk " +:+
                                   number (chunkIndex chunk) +:+ " to file")])
    else
      let '((w, s), e1) := markCompleted (chunkIndex chunk) (stopChunkTimeout w, s) in
      let w := forget (chunkIndex chunk) w in
      let w := if isLast chunk && (m_totalChunks w =? 0)
               then with_counts (wrap32 (chunkIndex chunk + 1)) (m_completedChunks w)
                      (m_completedChunkIndices w) w
               else w in
      let '(st, e2) :=
        if isLast chunk && (m_totalChunks w <=? m_completedChunks w)
        then completeTransfer (w, s)
        else processNextChunk (w, s) in
      (st, e1 ++ e2).

End WithEnvironment.

(** [FileTransferWorker::pauseTransfer]. *)
Definition pauseTransfer (st : state) : result :=
  let '(w, s) := st in
  if negb (m_isRunning w) || m_isPaused w then (st, [])
  else
    let w := stopAllTimers (with_flags (m_isRunning w) true (m_isCancelled w) w) in
    let '(s, sigs) := Session.setPaused true s in
    ((w, s), liftSession sigs).

(** [FileTransferWorker::resumeTransfer]. *)
Definition resumeTransfer (st : state) : result :=
  let '(w, s) := st in
  if negb (m_isRunning w) || negb (m_isPaused w) then (st, [])
  else
    let w := with_flags (m_isRunning w) false (m_isCancelled w) w in
    let w := with_timers true (m_chunkTimeoutTimer w) (m_retryTimer w)
               (m_retryInterval w) w in
    let '(s, sigs) := Session.setPaused false s in
    ((w, s), liftSession sigs).

(** [FileTransferWorker::cancelTransfer]. *)
Definition cancelTransfer (st : state) : result :=
  let '(w, s) := st in
  if negb (m_isRunning w) then (st, [])
  else
    let w := stopAllTimers (with_flags false (m_isPaused w) true w) in
    let '(s, sigs) := Session.setCancelled true s in
    ((w, Session.closeFile s), liftSession sigs ++ [transferCancelled]).

(** [FileTransferWorker::onSessionStatusChanged]. *)
Definition onSessionStatusChanged (status : TransferStatus) (st : state) : result :=
  match status with
  | Paused => pauseTransfer st
  | InProgress => resumeTransfer st
  | Cancelled => cancelTransfer st
  | _ => (st, [])
  end.

(** What can happen to a worker: its two single-shot timers firing (only
    while they run) and the slots other objects invoke. *)
Inductive Event :=
| ThreadStarted (onDisk : option QByteArray)
| ChunkTimeoutFires
| RetryTimerFires
| Acknowledged (index : Z)
| Received (chunk : FileChunk)
| SessionStatusChanged (status : TransferStatus)
| Pause | Resume | Cancel.

Section Run.
Context `{ChunkSize} `{Sha256}.

Definition step (e : Event) (st : state) : result :=
  let '(w, s) := st in
  match e with
  | ThreadStarted onDisk => startTransfer onDisk st
  | ChunkTimeoutFires =>
      if m_chunkTimeoutTimer w then onChunkTimeout (stopChunkTimeout w, s)
      else (st, [])
  | RetryTimerFires =>
      if m_retryTimer w
      then retryCurrentChunk
             (with_timers (m_progressTimer w) (m_chunkTimeoutTimer w) false
                (m_retryInterval w) w, s)
      else (st, [])
  | Acknowledged i => onChunkAcknowledged i st
  | Received c => processReceivedChunk c st
  | SessionStatusChanged status => onSessionStatusChanged status st
  | Pause => pauseTransfer st
  | Resume => resumeTransfer st
  | Cancel => cancelTransfer st
  end.

Fixpoint run (es : list Event) (st : state) : result :=
  match es with
  | [] => (st, [])
  | e :: es' =>
      let '(st1, out1) := step e st in
      let '(st2, out2) := run es' st1 in
      (st2, out1 ++ out2)
  end.
End Run.

End Worker.

(** ** JSON values ([QJsonValue], [QJsonObject], [QJsonDocument]) *)

Module Json.

(** Numbers are the integral ones; that is all the protocol puts in a
    frame. *)
#[warnings="-register-all"]
Inductive QJsonValue :=
| JNull
| JBool (b : bool)
| JDouble (n : Z)
| JString (s : string)
| JArray (items : list QJsonValue)
| JObject (members : list (string * QJsonValue))
| JUndefined.

(** A [QJsonObject] keeps its members sorted by key, one per key. *)
Definition QJsonObject := list (string * QJsonValue).

Inductive QJsonDocument :=
| DocObject (o : QJsonObject)
| DocArray (a : list QJsonValue).

(** [QJsonDocument::object()]. *)
Definition object (d : QJsonDocument) : QJsonObject :=
  match d with DocObject o => o | DocArray _ => [] end.

(** [obj[key]] as an rvalue. *)
Fixpoint value (o : QJsonObject) (key : string) : QJsonValue :=
  match o with
  | [] => JUndefined
  | (k, v) :: r => if String.eqb k key then v else value r key
  end.

(** [obj[key] = v]. *)
Fixpoint set (key : string) (v : QJsonValue) (o : QJsonObject) : QJsonObject :=
  match o with
  | [] => [(key, v)]
  | (k, x) :: r =>
      match String.compare key k with
      | Eq => (key, v) :: r
      | Lt => (key, v) :: (k, x) :: r
      | Gt => (k, x) :: set key v r
      end
  end.

Definition toString (v : QJsonValue) : string :=
  match v with JString s => s | _ => EmptyString end.

Definition toBool (v : QJsonValue) : bool :=
  match v with JBool b => b | _ => false end.

(** [QJsonValue::toInt()]: the number when it is an [int], else 0. *)
Definition toInt (v : QJsonValue) : Z :=
  match v with
  | JDouble n => if (INT_MIN <=? n) && (n <=? INT_MAX) then n else 0
  | _ => 0
  end.

(** Decimal digits of a [QString::toLongLong]. *)
Fixpoint digits (acc : Z) (s : string) : option Z :=
  match s with
  | EmptyString => Some acc
  | String c r =>
      let n := Z.of_nat (nat_of_ascii c) in
      if (48 <=? n) && (n <=? 57) then digits (10 * acc + (n - 48)) r else None
  end.

Definition parseLongLong (s : string) : Z :=
  let signed :=
    match s with
    | String "-" (String c r) => Z.opp <$> digits 0 (String c r)
    | String _ _ => digits 0 s
    | EmptyString => None
    end in
  match signed with
  | Some n => if (- 2 ^ 63 <=? n) && (n <=? INT64_MAX) then n else 0
  | None => 0
  end.

(** [v.toVariant().toLongLong()]. *)
Definition toLongLong (v : QJsonValue) : Z :=
  match v with
  | JDouble n => if (- 2 ^ 63 <=? n) && (n <=? INT64_MAX) then n else 0
  | JBool b => if b then 1 else 0
  | JString s => parseLongLong s
  | _ => 0
  end.

(** The two directions of [QJsonDocument]: [toJson(Compact)] of an object
    and [fromJson], which gives no document on a parse error. *)
Class Codec := {
  toJson : QJsonObject -> QByteArray;
  fromJson : QByteArray -> option QJsonDocument
}.

(** *** A reference reader and writer

    A compact writer and a recursive-descent reader for the JSON the
    protocol exchanges (integral numbers, byte strings).  They stand for
    Qt's implementation wherever a concrete frame is evaluated. *)

Definition quote : ascii := ascii_of_nat 34.

Definition hexDigit (n : nat) : ascii :=
  ascii_of_nat (if (n <? 10)%nat then 48 + n else 87 + n).

Definition escapeChar (c : ascii) : list ascii :=
  let n := nat_of_ascii c in
  if (n =? 34)%nat then ["\"%char; quote]
  else if (n =? 92)%nat then ["\"; "\"]%char
  else if (n =? 8)%nat then ["\"; "b"]%char
  else if (n =? 12)%nat then ["\"; "f"]%char
  else if (n =? 10)%nat then ["\"; "n"]%char
  else if (n =? 13)%nat then ["\"; "r"]%char
  else if (n =? 9)%nat then ["\"; "t"]%char
  else if (n <? 32)%nat
  then ["\"; "u"; "0"; "0"; hexDigit (n / 16); hexDigit (n mod 16)]%char
  else [c].

Definition writeString (s : string) : list ascii :=
  (quote :: concat (map escapeChar (String.list_ascii_of_string s)))
    ++ [quote].

Fixpoint writeValue (v : QJsonValue) : list ascii :=
  match v with
  | JNull | JUndefined => String.list_ascii_of_string "null"
  | JBool true => String.list_ascii_of_string "true"
  | JBool false => String.list_ascii_of_string "false"
  | JDouble n => String.list_ascii_of_string (number n)
  | JString s => writeString s
  | JArray items =>
      let fix go (first : bool) (l : list QJsonValue) : list ascii :=
        match l with
        | [] => []
        | x :: r => (if first then [] else [","%char]) ++ writeValue x ++ go false r
        end in
      "["%char :: go true items ++ ["]"%char]
  | JObject members =>
      let fix go (first : bool) (l : list (string * QJsonValue)) : list ascii :=
        match l with
        | [] => []
        | (k, x) :: r =>
            (if first then [] else [","%char]) ++ writeString k ++ [":"%char]
              ++ writeValue x ++ go false r
        end in
      "{"%char :: go true members ++ ["}"%char]
  end.

Definition isSpace (c : ascii) : bool :=
  let n := nat_of_ascii c in
  ((n =? 32) || (n =? 9) || (n =? 10) || (n =? 13))%nat.

Fixpoint skipSpace (l : list ascii) : list ascii :=
  match l with
  | c :: r => if isSpace c then skipSpace r else l
  | [] => []
  end.

Definition hexValue (c : ascii) : option nat :=
  let n := nat_of_ascii c in
  if ((48 <=? n) && (n <=? 57))%nat then Some (n - 48)%nat
  else if ((97 <=? n) && (n <=? 102))%nat then Some (n - 87)%nat
  else if ((65 <=? n) && (n <=? 70))%nat then Some (n - 55)%nat
  else None.

(** The text of a string literal, after its opening quote. *)
Fixpoint readString (l : list ascii) : option (string * list ascii) :=
  match l with
  | [] => None
  | c :: r =>
      if Ascii.eqb c quote then Some (EmptyString, r)
      else if (nat_of_ascii c <? 32)%nat then None
      else if Ascii.eqb c "\" then
        match r with
        | e :: r' =>
            let plain (x : ascii) :=
              '(s, rest) ← readString r'; Some (String x s, rest) in
            if Ascii.eqb e quote then plain quote
            else if Ascii.eqb e "\" then plain "\"%char
            else if Ascii.eqb e "/" then plain "/"%char
            else if Ascii.eqb e "b" then plain (ascii_of_nat 8)
            else if Ascii.eqb e "f" then plain (ascii_of_nat 12)
            else if Ascii.eqb e "n" then plain (ascii_of_nat 10)
            else if Ascii.eqb e "r" then plain (ascii_of_nat 13)
            else if Ascii.eqb e "t" then plain (ascii_of_nat 9)
            else if Ascii.eqb e "u" then
              match r' with
              | "0"%char :: "0"%char :: h :: g :: r'' =>
                  hi ← hexValue h; lo ← hexValue g;
                  '(s, rest) ← readString r'';
                  Some (String (ascii_of_nat (16 * hi + lo)) s, rest)
              | _ => None
              end
            else None
        | [] => None
        end
      else '(s, rest) ← readString r; Some (String c s, rest)
  end.

Fixpoint readDigits (acc : Z) (l : list ascii) : Z * list ascii :=
  match l with
  | c :: r =>
      let n := Z.of_nat (nat_of_ascii c) in
      if (48 <=? n) && (n <=? 57) then readDigits (10 * acc + (n - 48)) r
      else (acc, l)
  | [] => (acc, [])
  end.

Definition isDigit (c : ascii) : bool :=
  let n := nat_of_ascii c in ((48 <=? n) && (n <=? 57))%nat.

(** An integral number; a fraction or an exponent is outside the model. *)
Definition readNumber (l : list ascii) : option (Z * list ascii) :=
  let '(negative, l') :=
    match l with
    | c :: r => if Ascii.eqb c "-" then (true, r) else (false, l)
    | [] => (false, l)
    end in
  match l' with
  | c :: _ =>
      if isDigit c then
        let '(n, rest) := readDigits 0 l' in
        match rest with
        | d :: _ =>
            if Ascii.eqb d "." || Ascii.eqb d "e" || Ascii.eqb d "E" then None
            else Some (if negative then - n else n, rest)
        | [] => Some (if negative then - n else n, rest)
        end
      else None
  | [] => None
  end.

Fixpoint dropPrefix (p : string) (l : list ascii) : option (list ascii) :=
  match p, l with
  | EmptyString, _ => Some l
  | String a p', b :: l' => if Ascii.eqb a b then dropPrefix p' l' else None
  | String _ _, [] => None
  end.

Section Reader.
Variable readValue : list ascii -> option (QJsonValue * list ascii).

(** Members after the opening brace, up to and including the closing
    one; [acc] holds the members read so far. *)
Fixpoint readMembers (fuel : nat) (acc : QJsonObject) (l : list ascii)
  : option (QJsonObject * list ascii) :=
  match fuel with
  | O => None
  | S fuel' =>
      match skipSpace l with
      | q :: r =>
          if Ascii.eqb q quote then
            '(k, r1) ← readString r;
            match skipSpace r1 with
            | c :: r2 =>
                if Ascii.eqb c ":" then
                  '(v, r3) ← readValue r2;
                  match skipSpace r3 with
                  | s :: r4 =>
                      if Ascii.eqb s "," then readMembers fuel' (set k v acc) r4
                      else if Ascii.eqb s "}" then Some (set k v acc, r4)
                      else None
                  | [] => None
                  end
                else None
            | [] => None
            end
          else None
      | [] => None
      end
  end.

Fixpoint readItems (fuel : nat) (acc : list QJsonValue) (l : list ascii)
  : option (list QJsonValue * list ascii) :=
  match fuel with
  | O => None
  | S fuel' =>
      '(v, r1) ← readValue l;
      match skipSpace r1 with
      | s :: r2 =>
          if Ascii.eqb s "," then readItems fuel' (acc ++ [v]) r2
          else if Ascii.eqb s "]" then Some (acc ++ [v], r2)
          else None
      | [] => None
      end
  end.
End Reader.

Fixpoint readValue (fuel : nat) (l : list ascii) : option (QJsonValue * list ascii) :=
  match fuel with
  | O => None
  | S fuel' =>
      match skipSpace l with
      | [] => None
      | c :: r =>
          if Ascii.eqb c "{" then
            match skipSpace r with
            | d :: r' =>
                if Ascii.eqb d "}" then Some (JObject [], r')
                else '(o, rest) ← readMembers (readValue fuel') fuel' [] r;
                     Some (JObject o, rest)
            | [] => None
            end
          else if Ascii.eqb c "[" then
            match skipSpace r with
            | d :: r' =>
                if Ascii.eqb d "]" then Some (JArray [], r')
                else '(a, rest) ← readItems (readValue fuel') fuel' [] r;
                     Some (JArray a, rest)
            | [] => None
            end
          else if Ascii.eqb c quote then
            '(s, rest) ← readString r; Some (JString s, rest)
          else if Ascii.eqb c "t" then
            rest ← dropPrefix "rue" r; Some (JBool true, rest)
          else if Ascii.eqb c "f" then
            rest ← dropPrefix "alse" r; Some (JBool false, rest)
          else if Ascii.eqb c "n" then
            rest ← dropPrefix "ull" r; Some (JNull, rest)
          else '(n, rest) ← readNumber (c :: r); Some (JDouble n, rest)
      end
  end.

Definition referenceToJson (o : QJsonObject) : QByteArray :=
  bytesOf (String.string_of_list_ascii (writeValue (JObject o))).

(** A document is an object or an array, with nothing but white space
    after it. *)
Definition referenceFromJson (d : QByteArray) : option QJsonDocument :=
  let text := String.list_ascii_of_string (textOf d) in
  '(v, rest) ← readValue (S (length text)) text;
  match skipSpace rest, v with
  | [], JObject o => Some (DocObject o)
  | [], JArray a => Some (DocArray a)
  | _, _ => None
  end.

Definition reference : Codec :=
  {| toJson := referenceToJson; fromJson := referenceFromJson |}.

End Json.

(** ** [ApprovalDialog] *)

Module Dialog.

Definition DEFAULT_TIMEOUT : Z := 60.

(** The extensions [isFileTypeDangerous] looks for. *)
Definition DANGEROUS_EXTENSIONS : list string :=
  [ "exe"; "bat"; "cmd"; "com"; "scr"; "pif"; "vbs"; "vbe"; "js"; "jse";
    "wsf"; "wsh"; "msi"; "msp"; "hta"; "cpl"; "jar"; "app"; "deb"; "rpm";
    "dmg"; "pkg"; "run"; "bin"; "sh"; "ps1"; "psm1"; "psd1"; "ps1xml" ].

(** [QDialog::DialogCode]. *)
Inductive DialogCode := Accepted | Rejected.

Record t := {
  m_request : FileTransferRequest;
  m_approved : bool;
  m_message : string;
  m_timeoutSeconds : Z;
  m_remainingSeconds : Z;
  m_timeoutTimer : option Z;      (* running with this interval (ms)? *)
  m_displayTimer : bool;
  m_timeoutLabel : string;        (* m_timeoutLabel->text() *)
  m_timeoutLabelVisible : bool;
  m_rememberVisible : bool;       (* m_rememberCheckBox->isVisible() *)
  m_rememberChecked : bool;       (* m_rememberCheckBox->isChecked() *)
  m_messageEdit : string;         (* m_messageEdit->toPlainText() *)
  m_rejectIsDefault : bool;
  property_transferId : string;
  finished : option DialogCode    (* set by accept() / reject() *)
}.

Definition isFileTypeDangerous (filePath : string) : bool :=
  contains DANGEROUS_EXTENSIONS (toLower (suffix filePath)).

(** [ApprovalDialog::ApprovalDialog]. *)
Definition new (request : FileTransferRequest) : t :=
  {| m_request := request; m_approved := false; m_message := EmptyString;
     m_timeoutSeconds := DEFAULT_TIMEOUT; m_remainingSeconds := DEFAULT_TIMEOUT;
     m_timeoutTimer := None; m_displayTimer := false;
     m_timeoutLabel := EmptyString; m_timeoutLabelVisible := false;
     m_rememberVisible := false; m_rememberChecked := false;
     m_messageEdit := EmptyString;
     m_rejectIsDefault := isFileTypeDangerous (filename request);
     property_transferId := EmptyString; finished := None |}.

Definition with_decision (approved : bool) (message : string)
    (code : option DialogCode) (d : t) : t :=
  {| m_request := m_request d; m_approved := approved; m_message := message;
     m_timeoutSeconds := m_timeoutSeconds d;
     m_remainingSeconds := m_remainingSeconds d;
     m_timeoutTimer := m_timeoutTimer d; m_displayTimer := m_displayTimer d;
     m_timeoutLabel := m_timeoutLabel d;
     m_timeoutLabelVisible := m_timeoutLabelVisible d;
     m_rememberVisible := m_rememberVisible d;
     m_rememberChecked := m_rememberChecked d;
     m_messageEdit := m_messageEdit d; m_rejectIsDefault := m_rejectIsDefault d;
     property_transferId := property_transferId d; finished := code |}.

Definition with_timeout (seconds remaining : Z) (timer : option Z)
    (display : bool) (label : string) (visible : bool) (d : t) : t :=
  {| m_request := m_request d; m_approved := m_approved d; m_message := m_message d;
     m_timeoutSeconds := seconds; m_remainingSeconds := remaining;
     m_timeoutTimer := timer; m_displayTimer := display;
     m_timeoutLabel := label; m_timeoutLabelVisible := visible;
     m_rememberVisible := m_rememberVisible d;
     m_rememberChecked := m_rememberChecked d;
     m_messageEdit := m_messageEdit d; m_rejectIsDefault := m_rejectIsDefault d;
     property_transferId := property_transferId d; finished := finished d |}.

Definition with_widgets (visible checked : bool) (text transfer : string) (d : t) : t :=
  {| m_request := m_request d; m_approved := m_approved d; m_message := m_message d;
     m_timeoutSeconds := m_timeoutSeconds d;
     m_remainingSeconds := m_remainingSeconds d;
     m_timeoutTimer := m_timeoutTimer d; m_displayTimer := m_displayTimer d;
     m_timeoutLabel := m_timeoutLabel d;
     m_timeoutLabelVisible := m_timeoutLabelVisible d;
     m_rememberVisible := visible; m_rememberChecked := checked;
     m_messageEdit := text; m_rejectIsDefault := m_rejectIsDefault d;
     property_transferId := transfer; finished := finished d |}.

(** [ApprovalDialog::updateTimeoutDisplay]. *)
Definition updateTimeoutDisplay (d : t) : t :=
  let remaining := wrap32 (m_remainingSeconds d - 1) in
  if remaining <=? 0
  then with_timeout (m_timeoutSeconds d) remaining (m_timeoutTimer d) false
         "Request timed out" (m_timeoutLabelVisible d) d
  else with_timeout (m_timeoutSeconds d) remaining (m_timeoutTimer d)
         (m_displayTimer d)
         ("Auto-reject in " +:+ number remaining +:+ " seconds")
         (m_timeoutLabelVisible d) d.

(** [ApprovalDialog::setAutoTimeout]. *)
Definition setAutoTimeout (seconds : Z) (d : t) : t :=
  if 0 <? seconds then
    let d := with_timeout seconds seconds (Some (wrap32 (seconds * 1000))) true
               (m_timeoutLabel d) (m_timeoutLabelVisible d) d in
    let d := updateTimeoutDisplay d in
    with_timeout (m_timeoutSeconds d) (m_remainingSeconds d) (m_timeoutTimer d)
      (m_displayTimer d) (m_timeoutLabel d) true d
  else with_timeout seconds seconds None false (m_timeoutLabel d) false d.

(** [ApprovalDialog::setRememberOptionEnabled]. *)
Definition setRememberOptionEnabled (enabled : bool) (d : t) : t :=
  with_widgets enabled (m_rememberChecked d) (m_messageEdit d)
    (property_transferId d) d.

Definition setTransferId (transfer : string) (d : t) : t :=
  with_widgets (m_rememberVisible d) (m_rememberChecked d) (m_messageEdit d)
    transfer d.

Definition shouldRememberDecision (d : t) : bool := m_rememberChecked d.
Definition isApproved (d : t) : bool := m_approved d.
Definition getMessage (d : t) : string := m_message d.

(** [QString::trimmed]. *)
Fixpoint trimLeft (s : string) : string :=
  match s with
  | String c r => if Json.isSpace c then trimLeft r else s
  | EmptyString => EmptyString
  end.

Fixpoint trimRight (s : string) : string :=
  match s with
  | String c r =>
      let r' := trimRight r in
      if Json.isSpace c && isEmpty r' then EmptyString else String c r'
  | EmptyString => EmptyString
  end.

Definition trimmed (s : string) : string := trimRight (trimLeft s).

Definition orDefault (s fallback : string) : string :=
  if isEmpty s then fallback else s.

(** [onApproveClicked], [onRejectClicked], [onTimeout]. *)
Definition onApproveClicked (d : t) : t :=
  with_decision true (orDefault (trimmed (m_messageEdit d)) "Approved by user")
    (Some Accepted) d.

Definition onRejectClicked (d : t) : t :=
  with_decision false (orDefault (trimmed (m_messageEdit d)) "Rejected by user")
    (Some Rejected) d.

Definition onTimeout (d : t) : t :=
  with_decision false "Request timed out" (Some Rejected) d.

(** [closeEvent]: the decision is recorded, [finished] is not emitted. *)
Definition closeEvent (d : t) : t :=
  with_decision false "Request cancelled by user" (finished d) d.

(** What reaches an open dialog: what the user does, and its timers. *)
Inductive Event :=
| ClickApprove
| ClickReject
| PressEscape
| PressReturn (control : bool)
| ToggleRemember
| TypeMessage (text : string)
| CloseWindow
| TimeoutFires
| DisplayTick.

Definition byUser (e : Event) : bool :=
  match e with TimeoutFires | DisplayTick => false | _ => true end.

(** The events whose slot calls [accept] or [reject]: the user's answers
    and the timeout.  A click on the remember box, typing and closing the
    window do not. *)
Definition closes (e : Event) : bool :=
  match e with
  | ClickApprove | ClickReject | PressEscape | PressReturn _ | TimeoutFires => true
  | _ => false
  end.

(** The number of clicks on the remember box among [es]. *)
Fixpoint toggles (es : list Event) : nat :=
  match es with
  | ToggleRemember :: es => S (toggles es)
  | _ :: es => toggles es
  | [] => 0%nat
  end.

Definition step (e : Event) (d : t) : t :=
  match finished d with
  | Some _ => d
  | None =>
      match e with
      | ClickApprove => onApproveClicked d
      | ClickReject | PressEscape => onRejectClicked d
      | PressReturn control => if control then onApproveClicked d else onRejectClicked d
      | ToggleRemember =>
          if m_rememberVisible d
          then with_widgets true (negb (m_rememberChecked d)) (m_messageEdit d)
                 (property_transferId d) d
          else d
      | TypeMessage text =>
          with_widgets (m_rememberVisible d) (m_rememberChecked d) text
            (property_transferId d) d
      | CloseWindow => closeEvent d
      | TimeoutFires =>
          match m_timeoutTimer d with
          | Some _ => onTimeout d
          | None => d
          end
      | DisplayTick => if m_displayTimer d then updateTimeoutDisplay d else d
      end
  end.

Definition run (es : list Event) (d : t) : t := foldl (fun d e => step e d) d es.

End Dialog.

(** ** The environment of the controller *)

(** What [QFileInfo], [QFile], [QDir] and [QMimeDatabase] report. *)
Record FileInfo := { exists_ : bool; isFile : bool; size_ : Z }.

Class FileSystem := {
  fileInfo : string -> FileInfo;
  contentOf : string -> option QByteArray;   (* [None]: cannot be opened *)
  mimeTypeForFile : string -> string;
  directoryReady : string -> bool            (* exists, or [mkpath] succeeds *)
}.

(** The persisted settings ([QSettings]), one field for each key the
    controller reads; [None] is an absent key.  A value is taken to have the
    type it was written with.  [stored_RememberedDecisions] holds what
    [childKeys()] lists in the group [RememberedDecisions], with the values. *)
Record Store := {
  stored_Enabled : option bool;            (* AutoApproval/Enabled *)
  stored_Timeout : option Z;               (* AutoApproval/Timeout *)
  stored_RememberDecision : option bool;   (* AutoApproval/RememberDecision *)
  stored_MaxFileSize : option Z;           (* Security/MaxFileSize *)
  stored_AllowedExtensions : list string;  (* Security/AllowedExtensions *)
  stored_RememberedDecisions : gmap string bool
}.

(** A value written under [key] inside a group is one of the group's
    [childKeys()] only if [key] is not empty ([setValue] refuses an empty
    key) and has no [/] (with one, it is a key of a subgroup).  What else
    [QSettings] does to a key depends on the platform and is left out. *)
Definition childKey (key : string) : bool :=
  negb (Qt.isEmpty key)
  && forallb (fun c => negb (Ascii.eqb c "/")) (String.list_ascii_of_string key).

Definition emptyStore : Store :=
  {| stored_Enabled := None; stored_Timeout := None;
     stored_RememberDecision := None; stored_MaxFileSize := None;
     stored_AllowedExtensions := []; stored_RememberedDecisions := ∅ |}.

(** ** [FileTransferManager] *)

Module Manager.
Import Json.

Definition DEFAULT_CHUNK_SIZE : Z := 64 * 1024.
Definition DEFAULT_MAX_CONCURRENT : Z := 3.
Definition PING_INTERVAL : Z := 30000.
Definition RECONNECT_INTERVAL : Z := 5000.
Definition MAX_FILE_SIZE : Z := 100 * 1024 * 1024.
Definition MAX_RECONNECT_ATTEMPTS : Z := 5.

Inductive Signal :=
| connected
| disconnected
| connectionError (error : string)
| transferRequested (transfer : string) (request : FileTransferRequest)
| transferApproved (transfer : string)
| transferRejected (transfer reason : string)
| transferStarted (transfer : string)
| transferProgress (transfer : string) (progress : FileTransferProgress)
| transferCompleted (transfer filePath : string)
| transferFailed (transfer error : string)
| transferCancelled (transfer : string)
| chunkSent (transfer : string) (index : Z)
| chunkReceived (transfer : string) (index : Z)
| transferApprovalRequested (request : FileTransferRequest)
| transferApprovalDecision (transfer : string) (approved : bool) (message : string)
| fileValidationFailed (filePath reason : string).

(** What a slot does to the outside: signals, traffic on the socket,
    warnings in the log, a dialog put on screen, and slot invocations
    queued for a worker's thread. *)
Inductive Effect :=
| emit (s : Signal)
| socketOpen (url : string)
| socketClose
| sendTextMessage (message : QJsonObject)
| sendBinaryMessage (frame : QByteArray)
| qWarning (text : string)
| showDialog (d : Dialog.t)
| threadStart (transfer : string)
| toWorker (transfer : string) (e : Worker.Event).

Record t := {
  m_serverUrl : string;
  m_sessionId : string;
  m_isConnected : bool;
  m_pingTimer : bool;               (* running? *)
  m_reconnectTimer : bool;          (* running? single shot *)
  m_reconnectAttempts : Z;
  m_transferSessions : gmap string Session.t;
  m_transferWorkers : gmap string Worker.t;
  m_chunkSize : Z;
  m_maxConcurrentTransfers : Z;
  m_encryptionEnabled : bool;
  m_compressionEnabled : bool;
  m_maxFileSize : Z;
  m_allowedExtensions : list string;
  m_autoApprovalEnabled : bool;
  m_approvalTimeout : Z;
  m_rememberDecisionEnabled : bool;
  m_rememberedDecisions : gmap string bool;
  m_pendingRequests : gmap string FileTransferRequest;
  m_settings : Store
}.

Definition with_connection (url session : string) (isConnected ping reconnect : bool)
    (attempts : Z) (m : t) : t :=
  {| m_serverUrl := url; m_sessionId := session; m_isConnected := isConnected;
     m_pingTimer := ping; m_reconnectTimer := reconnect;
     m_reconnectAttempts := attempts;
     m_transferSessions := m_transferSessions m;
     m_transferWorkers := m_transferWorkers m;
     m_chunkSize := m_chunkSize m;
     m_maxConcurrentTransfers := m_maxConcurrentTransfers m;
     m_encryptionEnabled := m_encryptionEnabled m;
     m_compressionEnabled := m_compressionEnabled m;
     m_maxFileSize := m_maxFileSize m;
     m_allowedExtensions := m_allowedExtensions m;
     m_autoApprovalEnabled := m_autoApprovalEnabled m;
     m_approvalTimeout := m_approvalTimeout m;
     m_rememberDecisionEnabled := m_rememberDecisionEnabled m;
     m_rememberedDecisions := m_rememberedDecisions m;
     m_pendingRequests := m_pendingRequests m;
     m_settings := m_settings m |}.

Definition with_transfers (sessions : gmap string Session.t)
    (workers : gmap string Worker.t) (m : t) : t :=
  {| m_serverUrl := m_serverUrl m; m_sessionId := m_sessionId m;
     m_isConnected := m_isConnected m;
     m_pingTimer := m_pingTimer m; m_reconnectTimer := m_reconnectTimer m;
     m_reconnectAttempts := m_reconnectAttempts m;
     m_transferSessions := sessions;
     m_transferWorkers := workers;
     m_chunkSize := m_chunkSize m;
     m_maxConcurrentTransfers := m_maxConcurrentTransfers m;
     m_encryptionEnabled := m_encryptionEnabled m;
     m_compressionEnabled := m_compressionEnabled m;
     m_maxFileSize := m_maxFileSize m;
     m_allowedExtensions := m_allowedExtensions m;
     m_autoApprovalEnabled := m_autoApprovalEnabled m;
     m_approvalTimeout := m_approvalTimeout m;
     m_rememberDecisionEnabled := m_rememberDecisionEnabled m;
     m_rememberedDecisions := m_rememberedDecisions m;
     m_pendingRequests := m_pendingRequests m;
     m_settings := m_settings m |}.

Definition with_transport (chunk concurrent : Z) (encryption compression : bool)
    (m : t) : t :=
  {| m_serverUrl := m_serverUrl m; m_sessionId := m_sessionId m;
     m_isConnected := m_isConnected m;
     m_pingTimer := m_pingTimer m; m_reconnectTimer := m_reconnectTimer m;
     m_reconnectAttempts := m_reconnectAttempts m;
     m_transferSessions := m_transferSessions m;
     m_transferWorkers := m_transferWorkers m;
     m_chunkSize := chunk;
     m_maxConcurrentTransfers := concurrent;
     m_encryptionEnabled := encryption;
     m_compressionEnabled := compression;
     m_maxFileSize := m_maxFileSize m;
     m_allowedExtensions := m_allowedExtensions m;
     m_autoApprovalEnabled := m_autoApprovalEnabled m;
     m_approvalTimeout := m_approvalTimeout m;
     m_rememberDecisionEnabled := m_rememberDecisionEnabled m;
     m_rememberedDecisions := m_rememberedDecisions m;
     m_pendingRequests := m_pendingRequests m;
     m_settings := m_settings m |}.

Definition with_policy (maxSize : Z) (extensions : list string)
    (autoApproval : bool) (timeout : Z) (remember : bool) (store : Store) (m : t) : t :=
  {| m_serverUrl := m_serverUrl m; m_sessionId := m_sessionId m;
     m_isConnected := m_isConnected m;
     m_pingTimer := m_pingTimer m; m_reconnectTimer := m_reconnectTimer m;
     m_reconnectAttempts := m_reconnectAttempts m;
     m_transferSessions := m_transferSessions m;
     m_transferWorkers := m_transferWorkers m;
     m_chunkSize := m_chunkSize m;
     m_maxConcurrentTransfers := m_maxConcurrentTransfers m;
     m_encryptionEnabled := m_encryptionEnabled m;
     m_compressionEnabled := m_compressionEnabled m;
     m_maxFileSize := maxSize;
     m_allowedExtensions := extensions;
     m_autoApprovalEnabled := autoApproval;
     m_approvalTimeout := timeout;
     m_rememberDecisionEnabled := remember;
     m_rememberedDecisions := m_rememberedDecisions m;
     m_pendingRequests := m_pendingRequests m;
     m_settings := store |}.

Definition with_decisions (remembered : gmap string bool)
    (pending : gmap string FileTransferRequest) (store : Store) (m : t) : t :=
  {| m_serverUrl := m_serverUrl m; m_sessionId := m_sessionId m;
     m_isConnected := m_isConnected m;
     m_pingTimer := m_pingTimer m; m_reconnectTimer := m_reconnectTimer m;
     m_reconnectAttempts := m_reconnectAttempts m;
     m_transferSessions := m_transferSessions m;
     m_transferWorkers := m_transferWorkers m;
     m_chunkSize := m_chunkSize m;
     m_maxConcurrentTransfers := m_maxConcurrentTransfers m;
     m_encryptionEnabled := m_encryptionEnabled m;
     m_compressionEnabled := m_compressionEnabled m;
     m_maxFileSize := m_maxFileSize m;
     m_allowedExtensions := m_allowedExtensions m;
     m_autoApprovalEnabled := m_autoApprovalEnabled m;
     m_approvalTimeout := m_approvalTimeout m;
     m_rememberDecisionEnabled := m_rememberDecisionEnabled m;
     m_rememberedDecisions := remembered;
     m_pendingRequests := pending;
     m_settings := store |}.

Definition result : Type := t * list Effect.

(** Running one slot after another. *)
Definition andThen (r : result) (f : t -> result) : result :=
  let '(m, out) := r in let '(m', out') := f m in (m', out ++ out').

Notation "r >>> f" := (andThen r f) (at level 50, left associativity).

Definition say (out : list Effect) (m : t) : result := (m, out).

(** *** Settings *)

(** [FileTransferManager::saveSettings]; remembered decisions are written
    by [saveRememberedDecision] only. *)
Definition saveSettings (m : t) : t :=
  with_policy (m_maxFileSize m) (m_allowedExtensions m) (m_autoApprovalEnabled m)
    (m_approvalTimeout m) (m_rememberDecisionEnabled m)
    {| stored_Enabled := Some (m_autoApprovalEnabled m);
       stored_Timeout := Some (m_approvalTimeout m);
       stored_RememberDecision := Some (m_rememberDecisionEnabled m);
       stored_MaxFileSize := Some (m_maxFileSize m);
       stored_AllowedExtensions := m_allowedExtensions m;
       stored_RememberedDecisions := stored_RememberedDecisions (m_settings m) |}
    m.

(** [FileTransferManager::loadSettings]. *)
Definition loadSettings (m : t) : t :=
  let store := m_settings m in
  with_decisions
    (stored_RememberedDecisions store ∪ m_rememberedDecisions m)
    (m_pendingRequests m) store
    (with_policy
       (default MAX_FILE_SIZE (stored_MaxFileSize store))
       (match stored_AllowedExtensions store with
        | [] => m_allowedExtensions m
        | saved => saved
        end)
       (default false (stored_Enabled store))
       (default 30 (stored_Timeout store))
       (default true (stored_RememberDecision store))
       store m).

(** [FileTransferManager::FileTransferManager], given what [QSettings]
    holds. *)
Definition new (store : Store) : t :=
  loadSettings
    {| m_serverUrl := EmptyString; m_sessionId := EmptyString;
       m_isConnected := false; m_pingTimer := false; m_reconnectTimer := false;
       m_reconnectAttempts := 0;
       m_transferSessions := ∅; m_transferWorkers := ∅;
       m_chunkSize := DEFAULT_CHUNK_SIZE;
       m_maxConcurrentTransfers := DEFAULT_MAX_CONCURRENT;
       m_encryptionEnabled := true; m_compressionEnabled := false;
       m_maxFileSize := MAX_FILE_SIZE;
       m_allowedExtensions :=
         [ ".txt"; ".pdf"; ".doc"; ".docx"; ".xls"; ".xlsx";
           ".zip"; ".rar"; ".jpg"; ".png"; ".gif"; ".bmp";
           ".ppt"; ".pptx"; ".csv"; ".rtf"; ".odt"; ".ods" ];
       m_autoApprovalEnabled := false;
       m_approvalTimeout := 30;
       m_rememberDecisionEnabled := true;
       m_rememberedDecisions := ∅; m_pendingRequests := ∅;
       m_settings := store |}.

Definition setChunkSize (size : Z) (m : t) : t :=
  with_transport (qMax 1024 (qMin size (1024 * 1024))) (m_maxConcurrentTransfers m)
    (m_encryptionEnabled m) (m_compressionEnabled m) m.

Definition setMaxConcurrentTransfers (max : Z) (m : t) : t :=
  with_transport (m_chunkSize m) (qMax 1 (qMin max 10))
    (m_encryptionEnabled m) (m_compressionEnabled m) m.

Definition setEncryptionEnabled (enabled : bool) (m : t) : t :=
  with_transport (m_chunkSize m) (m_maxConcurrentTransfers m) enabled
    (m_compressionEnabled m) m.

Definition setCompressionEnabled (enabled : bool) (m : t) : t :=
  with_transport (m_chunkSize m) (m_maxConcurrentTransfers m)
    (m_encryptionEnabled m) enabled m.

Definition setAutoApprovalEnabled (enabled : bool) (m : t) : t :=
  saveSettings (with_policy (m_maxFileSize m) (m_allowedExtensions m) enabled
                  (m_approvalTimeout m) (m_rememberDecisionEnabled m) (m_settings m) m).

Definition setApprovalTimeout (seconds : Z) (m : t) : t :=
  saveSettings (with_policy (m_maxFileSize m) (m_allowedExtensions m)
                  (m_autoApprovalEnabled m) (qMax 5 seconds)
                  (m_rememberDecisionEnabled m) (m_settings m) m).

Definition getApprovalTimeout (m : t) : Z := m_approvalTimeout m.

Definition setRememberDecisionEnabled (enabled : bool) (m : t) : t :=
  saveSettings (with_policy (m_maxFileSize m) (m_allowedExtensions m)
                  (m_autoApprovalEnabled m) (m_approvalTimeout m) enabled
                  (m_settings m) m).

Definition setMaxFileSize (maxSize : Z) (m : t) : t :=
  saveSettings (with_policy (qMax 1024 maxSize) (m_allowedExtensions m)
                  (m_autoApprovalEnabled m) (m_approvalTimeout m)
                  (m_rememberDecisionEnabled m) (m_settings m) m).

Definition normalizeExtension (extension : string) : string :=
  let ext := toLower extension in
  if startsWith ext "." then ext else "." +:+ ext.

Definition addAllowedFileExtension (extension : string) (m : t) : t :=
  let ext := normalizeExtension extension in
  if contains (m_allowedExtensions m) ext then m
  else saveSettings (with_policy (m_maxFileSize m) (m_allowedExtensions m ++ [ext])
                       (m_autoApprovalEnabled m) (m_approvalTimeout m)
                       (m_rememberDecisionEnabled m) (m_settings m) m).

Definition removeAllowedFileExtension (extension : string) (m : t) : t :=
  let ext := normalizeExtension extension in
  if contains (m_allowedExtensions m) ext
  then saveSettings
         (with_policy (m_maxFileSize m)
            (filter (fun e => e ≠ ext) (m_allowedExtensions m))
            (m_autoApprovalEnabled m) (m_approvalTimeout m)
            (m_rememberDecisionEnabled m) (m_settings m) m)
  else m.

(** *** Control messages *)

(** [createControlMessage]; the [timestamp] member is left out. *)
Definition createControlMessage (type : string) : QJsonObject :=
  set "type" (JString type) [].

(** [sendControlMessage]. *)
Definition sendControlMessage (message : QJsonObject) (m : t) : result :=
  if m_isConnected m then (m, [sendTextMessage message])
  else (m, [qWarning "Cannot send message: not connected"]).

Definition registerSession (m : t) : result :=
  if negb (m_isConnected m) || isEmpty (m_sessionId m) then (m, [])
  else sendControlMessage
         (set "role" (JString "client")
            (set "session_id" (JString (m_sessionId m))
               (createControlMessage "session_register"))) m.

Definition sendPing (m : t) : result :=
  if m_isConnected m then sendControlMessage (createControlMessage "ping") m
  else (m, []).

(** *** The connection and its reconnect timer *)

Definition connectToServer (serverUrl : string) (m : t) : result :=
  (with_connection serverUrl (m_sessionId m) (m_isConnected m) (m_pingTimer m)
     (m_reconnectTimer m) 0 m,
   [socketOpen serverUrl]).

(** [onWebSocketConnected]. *)
Definition onWebSocketConnected (m : t) : result :=
  let m := with_connection (m_serverUrl m) (m_sessionId m) true true false 0 m in
  registerSession m >>> say [emit connected].

(** [onWebSocketDisconnected]. *)
Definition onWebSocketDisconnected (m : t) : result :=
  let restart := m_reconnectAttempts m <? MAX_RECONNECT_ATTEMPTS in
  (with_connection (m_serverUrl m) (m_sessionId m) false false
     (restart || m_reconnectTimer m) (m_reconnectAttempts m) m,
   [emit disconnected]).

(** [onWebSocketError]. *)
Definition onWebSocketError (errorString : string) (m : t) : result :=
  (m, [qWarning ("WebSocket error: " +:+ errorString);
       emit (connectionError errorString)]).

(** The slot connected to [m_reconnectTimer] in the constructor. *)
Definition onReconnectTimer (m : t) : result :=
  if m_reconnectAttempts m <? MAX_RECONNECT_ATTEMPTS then
    (with_connection (m_serverUrl m) (m_sessionId m) (m_isConnected m)
       (m_pingTimer m) (m_reconnectTimer m) (wrap32 (m_reconnectAttempts m + 1)) m,
     [socketOpen (m_serverUrl m)])
  else
    (m, [qWarning "Max reconnection attempts reached";
         emit (connectionError "Failed to reconnect after multiple attempts")]).

Definition onPingTimer (m : t) : result := sendPing m.

Definition onSessionRegistered (session : string) (m : t) : result :=
  registerSession
    (with_connection (m_serverUrl m) session (m_isConnected m) (m_pingTimer m)
       (m_reconnectTimer m) (m_reconnectAttempts m) m).

(** *** Validation and the approval of inbound requests *)

(** [FileTransferManager::validateFile]; the second component is
    [errorMessage] after the call. *)
Definition validateFile `{FileSystem} (filePath errorMessage : string) (m : t)
  : bool * string :=
  let info := fileInfo filePath in
  if negb (exists_ info) then (false, "File does not exist")
  else if negb (isFile info) then (false, "Path is not a file")
  else if m_maxFileSize m <? size_ info then
    (false, "File size (" +:+ number (Z.quot (size_ info) (1024 * 1024)) +:+
            " MB) exceeds maximum allowed size (" +:+
            number (Z.quot (m_maxFileSize m) (1024 * 1024)) +:+ " MB)")
  else
    let extension := toLower (suffix filePath) in
    if negb (isEmpty extension)
       && negb (contains (m_allowedExtensions m) ("." +:+ extension))
    then (false, "File extension '." +:+ extension +:+ "' is not allowed")
    else if startsWith (mimeTypeForFile filePath) "application/x-executable"
    then (false, "Executable files are not allowed")
    else (true, errorMessage).

Definition calculateFileChecksum `{FileSystem} `{Sha256} (filePath : string) : string :=
  match contentOf filePath with
  | None => EmptyString
  | Some content => sha256Hex content
  end.

(** [FileTransferManager::isFileExtensionAllowed]. *)
Definition isFileExtensionAllowed (filePath : string) (m : t) : bool :=
  contains (m_allowedExtensions m) ("." +:+ toLower (suffix filePath)).

(** [FileTransferManager::isFileSizeValid]. *)
Definition isFileSizeValid (fileSize : Z) (m : t) : bool :=
  (0 <? fileSize) && (fileSize <=? m_maxFileSize m).

(** [checkRememberedDecision]: the decision, when there is one. *)
Definition checkRememberedDecision (transfer : string) (m : t) : option bool :=
  m_rememberedDecisions m !! transfer.

(** [saveRememberedDecision]: the decision goes into the map, and into the
    settings under the transfer id as the key. *)
Definition saveRememberedDecision (transfer : string) (approved : bool) (m : t) : t :=
  let store := m_settings m in
  with_decisions (<[transfer := approved]> (m_rememberedDecisions m))
    (m_pendingRequests m)
    {| stored_Enabled := stored_Enabled store;
       stored_Timeout := stored_Timeout store;
       stored_RememberDecision := stored_RememberDecision store;
       stored_MaxFileSize := stored_MaxFileSize store;
       stored_AllowedExtensions := stored_AllowedExtensions store;
       stored_RememberedDecisions :=
         if childKey transfer
         then <[transfer := approved]> (stored_RememberedDecisions store)
         else stored_RememberedDecisions store |}
    m.

(** [FileTransferManager::processApprovalDecision]. *)
Definition processApprovalDecision (transfer : string) (approved : bool)
    (message : string) (m : t) : result :=
  let m := with_decisions (m_rememberedDecisions m)
             (delete transfer (m_pendingRequests m)) (m_settings m) m in
  sendControlMessage
    (set "message" (JString message)
       (set "approved" (JBool approved)
          (set "transfer_id" (JString transfer)
             (createControlMessage "transfer_approval")))) m
  >>> say [emit (transferApprovalDecision transfer approved message)].

(** [FileTransferManager::showApprovalDialog]. *)
Definition showApprovalDialog (request : FileTransferRequest) (m : t) : result :=
  let remembered :=
    if m_rememberDecisionEnabled m then checkRememberedDecision (id request) m
    else None in
  match remembered with
  | Some approved =>
      processApprovalDecision (id request) approved
        (if approved then "Auto-approved (remembered)"
         else "Auto-rejected (remembered)") m
  | None =>
      let dialog := Dialog.new request in
      let dialog := if 0 <? m_approvalTimeout m
                    then Dialog.setAutoTimeout (m_approvalTimeout m) dialog
                    else dialog in
      let dialog := Dialog.setRememberOptionEnabled (m_rememberDecisionEnabled m) dialog in
      let dialog := Dialog.setTransferId (id request) dialog in
      (m, [showDialog dialog])
  end.

(** [FileTransferManager::onApprovalDialogFinished]. *)
Definition onApprovalDialogFinished (dialog : Dialog.t) (m : t) : result :=
  let transfer := Dialog.property_transferId dialog in
  let approved := Dialog.isApproved dialog in
  let message := Dialog.getMessage dialog in
  let m := if Dialog.shouldRememberDecision dialog
           then saveRememberedDecision transfer approved m else m in
  processApprovalDecision transfer approved message m.

Definition typeOfInt (n : Z) : TransferType :=
  if n =? 0 then Upload else if n =? 1 then Download else OtherType n.

(** The fields [onTransferRequestReceived] reads from the frame. *)
Definition requestOfJson (request : QJsonObject) : FileTransferRequest :=
  {| id := toString (value request "transfer_id");
     sessionId := toString (value request "session_id");
     filename := toString (value request "filename");
     fileSize := toLongLong (value request "file_size");
     checksum := toString (value request "checksum");
     type := typeOfInt (toInt (value request "type"));
     technician := toString (value request "technician");
     localPath := EmptyString |}.

(** [FileTransferManager::onTransferRequestReceived]. *)
Definition onTransferRequestReceived (request : QJsonObject) (m : t) : result :=
  let transferRequest := requestOfJson request in
  let m := with_decisions (m_rememberedDecisions m)
             (<[id transferRequest := transferRequest]> (m_pendingRequests m))
             (m_settings m) m in
  if negb (isFileExtensionAllowed (filename transferRequest) m) then
    let errorMessage :=
      "File extension not allowed: " +:+ suffix (filename transferRequest) in
    say [emit (fileValidationFailed (filename transferRequest) errorMessage)] m
    >>> processApprovalDecision (id transferRequest) false errorMessage
  else if negb (isFileSizeValid (fileSize transferRequest) m) then
    let errorMessage :=
      "File size exceeds maximum allowed: " +:+
      number (fileSize transferRequest) +:+ " bytes" in
    say [emit (fileValidationFailed (filename transferRequest) errorMessage)] m
    >>> processApprovalDecision (id transferRequest) false errorMessage
  else if m_autoApprovalEnabled m then
    processApprovalDecision (id transferRequest) true "Auto-approved" m
  else
    say [emit (transferApprovalRequested transferRequest)] m
    >>> showApprovalDialog transferRequest.

(** *** Sessions and workers *)

Section Transfers.
Context `{ChunkSize} `{Sha256}.

Definition putSession (transfer : string) (s : Session.t) (m : t) : t :=
  with_transfers (<[transfer := s]> (m_transferSessions m)) (m_transferWorkers m) m.

Definition putWorker (transfer : string) (w : Worker.t) (m : t) : t :=
  with_transfers (m_transferSessions m) (<[transfer := w]> (m_transferWorkers m)) m.

(** A [statusChanged] of the session, queued for the worker that is
    connected to it. *)
Definition notifyWorker (transfer : string) (sigs : list Session.Signal) (m : t)
  : list Effect :=
  match m_transferWorkers m !! transfer with
  | None => []
  | Some _ =>
      omap (fun sig => match sig with
                       | Session.statusChanged st =>
                           Some (toWorker transfer (Worker.SessionStatusChanged st))
                       | _ => None
                       end) sigs
  end.

Definition canStart (transfer : string) (m : t) : bool :=
  match m_transferSessions m !! transfer with
  | None => false
  | Some _ => Z.of_nat (size (m_transferWorkers m)) <? m_maxConcurrentTransfers m
  end.

(** [FileTransferManager::startTransfer].  Storing the new worker under
    a key that has one destroys the old worker, whose destructor cancels
    it. *)
Definition startTransfer (transfer : string) (m : t) : result :=
  match m_transferSessions m !! transfer with
  | None => (m, [qWarning "Cannot start transfer: session not found"])
  | Some s =>
      if negb (canStart transfer m)
      then (m, [qWarning "Cannot start transfer: max concurrent transfers reached"])
      else
        let worker := Worker.new s in
        let '(s, destroyed) :=
          match m_transferWorkers m !! transfer with
          | Some old =>
              let '((_, s'), sigs) := Worker.cancelTransfer (old, s) in
              (s', omap (fun sig => match sig with
                                    | Worker.fromSession sg => Some sg
                                    | _ => None
                                    end) sigs)
          | None => (s, [])
          end in
        let m := putWorker transfer worker (putSession transfer s m) in
        let out1 := notifyWorker transfer destroyed m in
        let '(s, sigs) := Session.setStatus InProgress s in
        let m := putSession transfer s m in
        (m, out1 ++ [threadStart transfer] ++ notifyWorker transfer sigs m
              ++ [emit (transferStarted transfer)])
  end.

(** The slots connected to a session's [statusChanged]: the lambda of
    [requestFileUpload] and [requestFileDownload], then the worker's
    [onSessionStatusChanged] (queued: the worker lives in its thread). *)
Fixpoint deliver (transfer : string) (sigs : list Session.Signal) (m : t) : result :=
  match sigs with
  | [] => (m, [])
  | Session.statusChanged Approved :: rest =>
      let keepsWorker := negb (canStart transfer m) in
      startTransfer transfer m
      >>> (fun m' => (m', if keepsWorker
                          then notifyWorker transfer [Session.statusChanged Approved] m'
                          else []))
      >>> deliver transfer rest
  | sig :: rest =>
      (m, notifyWorker transfer [sig] m) >>> deliver transfer rest
  end.

(** [session->setStatus(status)] and [session->setError(error)] called by
    the controller. *)
Definition sessionSetStatus (transfer : string) (status : TransferStatus) (m : t)
  : result :=
  match m_transferSessions m !! transfer with
  | None => (m, [])
  | Some s =>
      let '(s, sigs) := Session.setStatus status s in
      deliver transfer sigs (putSession transfer s m)
  end.

Definition sessionSetError (transfer error : string) (m : t) : result :=
  match m_transferSessions m !! transfer with
  | None => (m, [])
  | Some s =>
      let '(s, sigs) := Session.setError error s in
      deliver transfer sigs (putSession transfer s m)
  end.

(** A direct call of a worker's slot from the controller's thread. *)
Definition callWorker (transfer : string) (f : Worker.state -> Worker.result) (m : t)
  : result :=
  match m_transferWorkers m !! transfer, m_transferSessions m !! transfer with
  | Some w, Some s =>
      let '((w, s), sigs) := f (w, s) in
      let m := putWorker transfer w (putSession transfer s m) in
      deliver transfer
        (omap (fun sig => match sig with
                          | Worker.fromSession sg => Some sg
                          | _ => None
                          end) sigs) m
  | _, _ => (m, [])
  end.

Definition transferControl (transfer action : string) : QJsonObject :=
  set "action" (JString action)
    (set "transfer_id" (JString transfer) (createControlMessage "transfer_control")).

(** [pauseTransfer], [resumeTransfer], [cancelTransfer]. *)
Definition pauseTransfer (transfer : string) (m : t) : result :=
  callWorker transfer Worker.pauseTransfer m
  >>> sendControlMessage (transferControl transfer "pause").

Definition resumeTransfer (transfer : string) (m : t) : result :=
  callWorker transfer Worker.resumeTransfer m
  >>> sendControlMessage (transferControl transfer "resume").

Definition cancelTransfer (transfer : string) (m : t) : result :=
  callWorker transfer Worker.cancelTransfer m
  >>> sessionSetStatus transfer Cancelled
  >>> (fun m => (with_transfers (m_transferSessions m)
                   (delete transfer (m_transferWorkers m)) m, []))
  >>> sendControlMessage (transferControl transfer "cancel")
  >>> say [emit (transferCancelled transfer)].

Definition isActive (s : Session.t) : bool :=
  match Session.m_status s with
  | Pending | Approved | InProgress | Paused => true
  | _ => false
  end.

(** [getActiveTransfers]; the keys come in the map's order. *)
Definition getActiveTransfers (m : t) : list string :=
  (map_to_list (filter (fun kv => isActive kv.2 = true) (m_transferSessions m))).*1.

(** [disconnectFromServer]. *)
Definition disconnectFromServer (m : t) : result :=
  if m_isConnected m then
    foldl (fun r transfer => r >>> cancelTransfer transfer) (m, [])
      (getActiveTransfers m)
    >>> (fun m => (with_connection (m_serverUrl m) (m_sessionId m) (m_isConnected m)
                     false false (m_reconnectAttempts m) m, [socketClose]))
  else (m, []).

(** [handleTransferResponse]. *)
Definition handleTransferResponse (message : QJsonObject) (m : t) : result :=
  let transfer := toString (value message "transfer_id") in
  let status := toString (value message "status") in
  let responseMessage := toString (value message "message") in
  match m_transferSessions m !! transfer with
  | None => (m, [])
  | Some _ =>
      if String.eqb status "pending" then sessionSetStatus transfer Pending m
      else if String.eqb status "approved" then sessionSetStatus transfer Approved m
      else if String.eqb status "rejected"
      then sessionSetStatus transfer Rejected m
           >>> sessionSetError transfer responseMessage
      else (m, [])
  end.

(** [handleTransferStatusUpdate]. *)
Definition handleTransferStatusUpdate (message : QJsonObject) (m : t) : result :=
  let transfer := toString (value message "transfer_id") in
  let status := toString (value message "status") in
  let statusMessage := toString (value message "message") in
  match m_transferSessions m !! transfer with
  | None => (m, [])
  | Some _ =>
      if String.eqb status "approved"
      then sessionSetStatus transfer Approved m
           >>> say [emit (transferApproved transfer)]
      else if String.eqb status "rejected"
      then sessionSetStatus transfer Rejected m
           >>> sessionSetError transfer statusMessage
           >>> say [emit (transferRejected transfer statusMessage)]
      else (m, [])
  end.

(** [handleChunkAcknowledgment]. *)
Definition handleChunkAcknowledgment (message : QJsonObject) (m : t) : result :=
  let transfer := toString (value message "transfer_id") in
  let index := toInt (value message "chunk_index") in
  (m, emit (chunkSent transfer index)
        :: match m_transferWorkers m !! transfer with
           | Some _ => [toWorker transfer (Worker.Acknowledged index)]
           | None => []
           end).

Definition toDouble (v : QJsonValue) : float :=
  match v with JDouble n => doubleOf n | _ => 0%float end.

(** [handleProgressResponse]. *)
Definition handleProgressResponse (message : QJsonObject) (m : t) : result :=
  let progressObj :=
    match value message "progress" with JObject o => o | _ => [] end in
  let progress :=
    {| transferId := toString (value progressObj "transfer_id");
       bytesTransferred := toLongLong (value progressObj "bytes_transferred");
       totalBytes := toLongLong (value progressObj "total_bytes");
       percentage := toDouble (value progressObj "percentage");
       speed := toLongLong (value progressObj "speed");
       remainingTime := toLongLong (value progressObj "remaining_time") |} in
  (m, [emit (transferProgress (transferId progress) progress)]).

(** [handleErrorMessage]. *)
Definition handleErrorMessage (message : QJsonObject) (m : t) : result :=
  let errorMessage := toString (value message "message") in
  (m, [qWarning ("Server error: " +:+ toString (value message "error"));
       emit (connectionError errorMessage)]).

(** [handleControlMessage]. *)
Definition handleControlMessage (message : QJsonObject) (m : t) : result :=
  let type := toString (value message "type") in
  if String.eqb type "file_transfer_response" then handleTransferResponse message m
  else if String.eqb type "transfer_status_update"
  then handleTransferStatusUpdate message m
  else if String.eqb type "chunk_ack" then handleChunkAcknowledgment message m
  else if String.eqb type "progress_response" then handleProgressResponse message m
  else if String.eqb type "error" then handleErrorMessage message m
  else if String.eqb type "pong" then (m, [])
  else if String.eqb type "transfer_request" then onTransferRequestReceived message m
  else (m, []).

(** *** Requests made on this side *)

Definition transferRequestMessage (request : FileTransferRequest) (kind : string)
  : QJsonObject :=
  set "technician" (JString (technician request))
    (set "type" (JString kind)
       (set "file_size" (JDouble (fileSize request))
          (set "filename" (JString (filename request))
             (set "session_id" (JString (sessionId request))
                (set "id" (JString (id request))
                   (createControlMessage "file_transfer_request")))))).

(** [requestFileUpload]; [newId] is what [generateTransferId] draws.  The
    result is the transfer id, empty on failure. *)
Definition requestFileUpload `{FileSystem} (filePath session tech newId : string)
    (m : t) : result * string :=
  if negb (m_isConnected m)
  then ((m, [qWarning "Cannot request file upload: not connected to server"]),
        EmptyString)
  else
    let '(valid, errorMessage) := validateFile filePath EmptyString m in
    if negb valid
    then ((m, [qWarning ("File validation failed: " +:+ errorMessage);
               emit (transferFailed EmptyString errorMessage)]), EmptyString)
    else
      let sum := calculateFileChecksum filePath in
      if isEmpty sum
      then ((m, (if contentOf filePath is None
                 then [qWarning "Failed to open file for checksum calculation"]
                 else [])
                ++ [qWarning "Failed to calculate file checksum";
                    qWarning "Failed to prepare file for upload"]), EmptyString)
      else
        let request :=
          {| id := newId; sessionId := session;
             filename := fileName filePath;
             fileSize := size_ (fileInfo filePath);
             checksum := sum; type := Upload; technician := tech;
             localPath := filePath |} in
        let m := putSession newId (Session.new request) m in
        (sendControlMessage
           (set "checksum" (JString sum) (transferRequestMessage request "upload")) m
         >>> say [emit (transferRequested newId request)],
         newId).

(** [requestFileDownload]. *)
Definition requestFileDownload `{FileSystem}
    (name session tech savePath newId : string) (m : t) : result * string :=
  if negb (m_isConnected m)
  then ((m, [qWarning "Cannot request file download: not connected to server"]),
        EmptyString)
  else if negb (directoryReady savePath)
  then ((m, [qWarning "Failed to create save directory";
             qWarning "Failed to prepare file for download"]), EmptyString)
  else
    let request :=
      {| id := newId; sessionId := session; filename := name; fileSize := 0;
         checksum := EmptyString; type := Download; technician := tech;
         localPath := savePath |} in
    let m := putSession newId (Session.new request) m in
    (sendControlMessage (transferRequestMessage request "download") m
     >>> say [emit (transferRequested newId request)],
     newId).

End Transfers.

(** *** Binary chunk frames *)

Section Frames.
Context `{Codec}.

Definition chunkHeader (chunk : FileChunk) : QJsonObject :=
  set "is_last" (JBool (isLast chunk))
    (set "checksum" (JString (chunk_checksum chunk))
       (set "chunk_index" (JDouble (chunkIndex chunk))
          (set "transfer_id" (JString (chunk_transferId chunk)) []))).

(** The frame [sendBinaryChunk] builds:
    [header_length(4 bytes)][header][chunk_data]. *)
Definition encodeChunk (chunk : FileChunk) : QByteArray :=
  let headerData := toJson (chunkHeader chunk) in
  let headerLength := sizeOf headerData in
  [ charOf (Z.land (Z.shiftr headerLength 24) 255);
    charOf (Z.land (Z.shiftr headerLength 16) 255);
    charOf (Z.land (Z.shiftr headerLength 8) 255);
    charOf (Z.land headerLength 255) ]
  ++ headerData ++ data chunk.

(** [FileTransferManager::sendBinaryChunk]. *)
Definition sendBinaryChunk (chunk : FileChunk) (m : t) : result :=
  if negb (m_isConnected m) then (m, [qWarning "Cannot send chunk: not connected"])
  else (m, [sendBinaryMessage (encodeChunk chunk)]).

(** The [int] read from the first four bytes of a frame. *)
Definition headerLengthOf (b0 b1 b2 b3 : byte) : Z :=
  wrap32 (Z.lor (Z.lor (Z.lor (Z.shiftl (byteZ b0) 24) (Z.shiftl (byteZ b1) 16))
                   (Z.shiftl (byteZ b2) 8))
            (byteZ b3)).

(** The same four bytes as the unsigned big-endian length [H] of the
    wire format. *)
Definition bigEndian (b0 b1 b2 b3 : byte) : Z :=
  byteZ b0 * 2 ^ 24 + byteZ b1 * 2 ^ 16 + byteZ b2 * 2 ^ 8 + byteZ b3.

Inductive Decoded :=
| Discarded (warning : string)
| Chunk (chunk : FileChunk).

(** The [FileChunk] filled in from a parsed header and the payload. *)
Definition chunkOf (header : QJsonObject) (chunkData : QByteArray) : FileChunk :=
  {| chunk_transferId := toString (value header "transfer_id");
     chunkIndex := toInt (value header "chunk_index");
     data := chunkData;
     chunk_checksum := toString (value header "checksum");
     isLast := toBool (value header "is_last") |}.

(** The decoding part of [onWebSocketBinaryMessageReceived]. *)
Definition decodeChunk (frame : QByteArray) : Decoded :=
  match frame with
  | b0 :: b1 :: b2 :: b3 :: _ =>
      let headerLength := headerLengthOf b0 b1 b2 b3 in
      if sizeOf frame - 4 <? headerLength
      then Discarded "Invalid header length in binary message"
      else
        let headerData := mid frame 4 headerLength in
        let chunkData := mid frame (wrap32 (4 + headerLength)) (-1) in
        match fromJson headerData with
        | None => Discarded "Failed to parse chunk header"
        | Some headerDoc => Chunk (chunkOf (object headerDoc) chunkData)
        end
  | _ => Discarded "Binary message too short"
  end.

(** [FileTransferManager::onWebSocketBinaryMessageReceived]. *)
Definition onWebSocketBinaryMessageReceived (frame : QByteArray) (m : t) : result :=
  match decodeChunk frame with
  | Discarded warning => (m, [qWarning warning])
  | Chunk chunk =>
      match m_transferWorkers m !! chunk_transferId chunk with
      | Some _ =>
          (m, [emit (chunkReceived (chunk_transferId chunk) (chunkIndex chunk))])
      | None => (m, [])
      end
  end.

(** [FileTransferManager::onWebSocketTextMessageReceived]. *)
Definition onWebSocketTextMessageReceived `{ChunkSize} `{Sha256}
    (message : string) (m : t) : result :=
  match fromJson (bytesOf message) with
  | None => (m, [qWarning "Failed to parse JSON message"])
  | Some doc => handleControlMessage (object doc) m
  end.

(** What the controller does with a signal of the worker of [transfer]
    (the lambdas connected in [startTransfer]). *)
Definition onWorkerSignal (transfer : string) (sig : Worker.Signal) (m : t) : result :=
  match sig with
  | Worker.transferCompleted =>
      (m, [emit (transferCompleted transfer
                   (from_option (fun s => localPath (Session.m_request s))
                      EmptyString (m_transferSessions m !! transfer)))])
  | Worker.transferFailed error => (m, [emit (transferFailed transfer error)])
  | Worker.chunkReady chunk => sendBinaryChunk chunk m
  | _ => (m, [])
  end.

(** An event in the thread of the worker of [transfer], and the
    controller's reaction to the signals it raises. *)
Definition workerEvent `{ChunkSize} `{Sha256} (transfer : string) (e : Worker.Event)
    (m : t) : result :=
  match m_transferWorkers m !! transfer, m_transferSessions m !! transfer with
  | Some w, Some s =>
      let '((w, s), sigs) := Worker.step e (w, s) in
      foldl (fun r sig => r >>> onWorkerSignal transfer sig)
        (putWorker transfer w (putSession transfer s m), []) sigs
  | _, _ => (m, [])
  end.

End Frames.

(** *** The connection as a transition system *)

Inductive ConnectionEvent :=
| Connect (url : string)
| SocketConnected
| SocketDisconnected
| SocketError (errorString : string)
| ReconnectTimerFires.

(** The single-shot reconnect timer fires only while it runs. *)
Definition connectionStep (e : ConnectionEvent) (m : t) : result :=
  match e with
  | Connect url => connectToServer url m
  | SocketConnected => onWebSocketConnected m
  | SocketDisconnected => onWebSocketDisconnected m
  | SocketError errorString => onWebSocketError errorString m
  | ReconnectTimerFires =>
      if m_reconnectTimer m
      then onReconnectTimer
             (with_connection (m_serverUrl m) (m_sessionId m) (m_isConnected m)
                (m_pingTimer m) false (m_reconnectAttempts m) m)
      else (m, [])
  end.

Fixpoint connectionRun (es : list ConnectionEvent) (m : t) : result :=
  match es with
  | [] => (m, [])
  | e :: es' => connectionStep e m >>> connectionRun es'
  end.

(** *** Reading states and effects *)

(** The decisions announced by [transferApprovalDecision]. *)
Definition decisions (out : list Effect) : list (string * bool * string) :=
  omap (fun e => match e with
                 | emit (transferApprovalDecision transfer approved message) =>
                     Some (transfer, approved, message)
                 | _ => None
                 end) out.

(** The approval dialogs put on screen. *)
Definition dialogs (out : list Effect) : list Dialog.t :=
  omap (fun e => match e with showDialog d => Some d | _ => None end) out.

(** The connection attempts made. *)
Definition opens (out : list Effect) : list string :=
  omap (fun e => match e with socketOpen url => Some url | _ => None end) out.

(** The failures announced by [transferFailed]. *)
Definition failures (out : list Effect) : list (string * string) :=
  omap (fun e => match e with
                 | emit (transferFailed transfer error) => Some (transfer, error)
                 | _ => None
                 end) out.

(** The binary frames handed to the socket. *)
Definition sent (out : list Effect) : list QByteArray :=
  omap (fun e => match e with sendBinaryMessage frame => Some frame | _ => None end) out.

(** The retry timer of the worker of [transfer]: whether it runs, and its
    interval in milliseconds. *)
Definition retryTimerOf (transfer : string) (m : t) : option (bool * Z) :=
  (fun w => (Worker.m_retryTimer w, Worker.m_retryInterval w))
    <$> m_transferWorkers m !! transfer.

(** The status of the session of [transfer]. *)
Definition statusOf (transfer : string) (m : t) : option TransferStatus :=
  Session.m_status <$> m_transferSessions m !! transfer.

End Manager.

(** ** Predicates the properties are stated with *)

(** What the session's constructor establishes and no operation of the
    session changes: the chunk count derived from the request and the total
    of the progress record. *)
Definition sessionShape `{ChunkSize} (s : Session.t) : Prop :=
  Session.m_totalChunks s = Session.totalChunksFor (fileSize (Session.m_request s))
  /\ totalBytes (Session.m_progress s) = fileSize (Session.m_request s).

(** The attempt counter stays within its bound, and the reconnect timer
    runs only while attempts are left. *)
Definition connectionInvariant (m : Manager.t) : Prop :=
  0 <= Manager.m_reconnectAttempts m <= Manager.MAX_RECONNECT_ATTEMPTS
  /\ (Manager.m_reconnectTimer m = true ->
      Manager.m_reconnectAttempts m < Manager.MAX_RECONNECT_ATTEMPTS).

(** The effects by which the reconnect slot reports that it gave up. *)
Definition exhaustionReport (e : Manager.Effect) : bool :=
  match e with
  | Manager.qWarning text => String.eqb text "Max reconnection attempts reached"
  | Manager.emit (Manager.connectionError error) =>
      String.eqb error "Failed to reconnect after multiple attempts"
  | _ => false
  end.

(** The events that set the attempt counter back to zero. *)
Definition resets (e : Manager.ConnectionEvent) : bool :=
  match e with
  | Manager.Connect _ | Manager.SocketConnected => true
  | _ => false
  end.

(** A socket error whose text happens to be that of the report. *)
Definition mimicsReport (e : Manager.ConnectionEvent) : bool :=
  match e with
  | Manager.SocketError text =>
      String.eqb text "Failed to reconnect after multiple attempts"
  | _ => false
  end.

(** An open prompt for [transfer] with its timeout timer running. *)
Definition waiting (transfer : string) (d : Dialog.t) : Prop :=
  Dialog.finished d = None
  /\ is_Some (Dialog.m_timeoutTimer d)
  /\ Dialog.property_transferId d = transfer.

(** ** Concrete data for the examples *)

Module Examples.

(** The chunk size the controller defaults to ([DEFAULT_CHUNK_SIZE]). *)
Definition chunk64k : ChunkSize := {| CHUNK_SIZE := 64 * 1024 |}.

(** A 130 KiB upload, as in the specification's first scenario. *)
Definition upload130k : FileTransferRequest :=
  {| id := "t1"; sessionId := "s1"; filename := "report.pdf";
     fileSize := 130 * 1024; checksum := "00"; type := Upload;
     technician := "tech"; localPath := "/home/user/report.pdf" |}.

(** A 1600 KiB upload: 25 chunks of 64 KiB. *)
Definition upload1600k : FileTransferRequest :=
  {| id := "t2"; sessionId := "s1"; filename := "backup.tar";
     fileSize := 1600 * 1024; checksum := "00"; type := Upload;
     technician := "tech"; localPath := "/home/user/backup.tar" |}.

(** A chunk and, below, a frame that opens with the byte [0x80]: the
    four bytes [80 00 00 00] followed by the JSON text of an object with
    [chunk_index] 7 and [transfer_id] [t1]. *)
Definition lastChunk : FileChunk :=
  {| chunk_transferId := "t1"; chunkIndex := 2; data := [x01; x02; xff];
     chunk_checksum := "ab"; isLast := true |}.

Definition highBitFrame : QByteArray :=
  [x80; x00; x00; x00]
    ++ Json.referenceToJson
         (Json.set "chunk_index" (Json.JDouble 7)
            (Json.set "transfer_id" (Json.JString "t1") [])).

(** The controller once [t1] has been requested and started: its session
    is [InProgress] and has a worker. *)
Definition transferring : Manager.t :=
  (@Manager.startTransfer chunk64k "t1"
     (@Manager.putSession "t1" (@Session.new chunk64k upload130k)
        (Manager.new emptyStore))).1.

(** *** A small upload from request to completion *)

(** A stand-in for SHA-256 (the length of the data, spelled out); the
    examples need some digest, none of the properties depends on it. *)
Definition digest : Sha256 :=
  {| sha256Hex := fun d => "sha256-of-" +:+ number (sizeOf d) +:+ "-bytes" |}.

(** Five bytes at [/home/user/notes.txt], the same at [/home/user/README],
    nothing else. *)
Definition notes : QByteArray := [x68; x65; x6c; x6c; x6f].

Definition disk : FileSystem :=
  {| fileInfo := fun path =>
       if String.eqb path "/home/user/notes.txt" || String.eqb path "/home/user/README"
       then {| exists_ := true; isFile := true; size_ := 5 |}
       else {| exists_ := false; isFile := false; size_ := 0 |};
     contentOf := fun path =>
       if String.eqb path "/home/user/notes.txt" || String.eqb path "/home/user/README"
       then Some notes else None;
     mimeTypeForFile := fun _ => "text/plain";
     directoryReady := fun _ => true |}.

Import Manager.

(** A controller with default settings, connected. *)
Definition online : Manager.t :=
  (connectToServer "ws://server/filetransfer" (Manager.new emptyStore)
   >>> onWebSocketConnected).1.

(** [notes.txt] requested for upload as transfer [t1]. *)
Definition requested : Manager.t :=
  (@requestFileUpload chunk64k digest disk
     "/home/user/notes.txt" "s1" "tech" "t1" online).1.1.

(** A [file_transfer_response] frame for [t1]. *)
Definition response (status : string) : Json.QJsonObject :=
  Json.set "status" (Json.JString status)
    (Json.set "transfer_id" (Json.JString "t1")
       (createControlMessage "file_transfer_response")).

(** The peer approves: the worker is created, the session is
    [InProgress]. *)
Definition started : Manager.t :=
  (@handleTransferResponse chunk64k (response "approved") requested).1.

Definition workerEvents (es : list Worker.Event) (m : Manager.t) : Manager.result :=
  foldl (fun r e => r >>> @workerEvent Json.reference chunk64k digest "t1" e) (m, []) es.

(** The worker's thread starts, the single chunk goes out and is
    acknowledged: the session is [Completed]. *)
Definition completed : Manager.t :=
  (workerEvents [Worker.ThreadStarted (Some notes); Worker.Acknowledged 0] started).1.

Definition completedSession : Session.t :=
  default (@Session.new chunk64k upload130k) (m_transferSessions completed !! "t1").

(** The only chunk of [notes.txt]. *)
Definition onlyChunk : FileChunk :=
  {| chunk_transferId := "t1"; chunkIndex := 0; data := notes;
     chunk_checksum := "sha256-of-5-bytes"; isLast := true |}.

(** The same transfer once its only chunk has gone out. *)
Definition sending : Manager.t :=
  (workerEvents [Worker.ThreadStarted (Some notes)] started).1.

Definition sendingSession : Session.t :=
  default (@Session.new chunk64k upload130k) (m_transferSessions sending !! "t1").

Definition sendingWorker : Worker.t :=
  default (@Worker.new chunk64k sendingSession) (m_transferWorkers sending !! "t1").

(** The chunk times out, is sent again after the retry timer, times out
    again, is sent once more, and times out a third time. *)
Definition threeTimeouts : list Worker.Event :=
  [ Worker.ThreadStarted (Some notes);
    Worker.ChunkTimeoutFires; Worker.RetryTimerFires;
    Worker.ChunkTimeoutFires; Worker.RetryTimerFires;
    Worker.ChunkTimeoutFires ].

(** *** An outage *)

(** One reconnect attempt that the socket refuses. *)
Definition failedAttempt : list Manager.ConnectionEvent :=
  [ReconnectTimerFires; SocketError "Connection refused"; SocketDisconnected].

(** The connection drops, five attempts fail, and the timer is given two
    more chances to fire. *)
Definition outage : list Manager.ConnectionEvent :=
  SocketDisconnected :: concat (replicate 5 failedAttempt)
    ++ [ReconnectTimerFires; ReconnectTimerFires].

(** *** Inbound requests *)

(** A [transfer_request] frame. *)
Definition inbound (transfer name : string) (bytes : Z) : Json.QJsonObject :=
  Json.set "file_size" (Json.JDouble bytes)
    (Json.set "filename" (Json.JString name)
       (Json.set "transfer_id" (Json.JString transfer)
          (createControlMessage "transfer_request"))).

(** Controllers that remember a decision for [t1]. *)
Definition rememberedAllow : Manager.t := saveRememberedDecision "t1" true online.
Definition rememberedDeny : Manager.t := saveRememberedDecision "t1" false online.
Definition rememberedDenyAuto : Manager.t := setAutoApprovalEnabled true rememberedDeny.

(** The request for [notes.txt] and the prompt the default controller
    shows for it. *)
Definition promptRequest : FileTransferRequest :=
  requestOfJson (inbound "t1" "notes.txt" 1000).

Definition prompt : Dialog.t :=
  default (Dialog.new promptRequest)
    (head (dialogs (onTransferRequestReceived (inbound "t1" "notes.txt" 1000) online).2)).

End Examples.

(** ** Notions for the properties of the transfer as a whole *)

(** The bytes of chunk [index] of a file: at most [CHUNK_SIZE] bytes from
    offset [index * CHUNK_SIZE]. *)
Definition chunkBytes `{ChunkSize} (content : QByteArray) (index : Z) : QByteArray :=
  take (Z.to_nat CHUNK_SIZE) (drop (Z.to_nat (index * CHUNK_SIZE)) content).

(** [readChunk] called for every index below the session's chunk count,
    in order; [writeChunk] called for a list of chunks, in the order
    given. *)
Definition readChunks `{ChunkSize} (s : Session.t) : list QByteArray :=
  map (fun i => Session.readChunk (Z.of_nat i) s)
    (seq 0 (Z.to_nat (Session.m_totalChunks s))).

Definition writeChunks `{ChunkSize} (chunks : list (Z * QByteArray)) (s : Session.t)
  : Session.t :=
  foldl (fun s c => (Session.writeChunk c.1 c.2 s).1) s chunks.

(** The file of a download after some of the chunks of [content] have been
    written: it is no longer than [content], it reaches the end of every
    chunk written, and it agrees with [content] on each of them. *)
Definition partOf `{ChunkSize} (content : QByteArray) (written : list Z)
    (f : QByteArray) : Prop :=
  (length f <= length content)%nat
  /\ (forall i, i ∈ written ->
        Z.min (i * CHUNK_SIZE + CHUNK_SIZE) (sizeOf content) <= sizeOf f)
  /\ (forall j, (j < length f)%nat -> Z.of_nat j / CHUNK_SIZE ∈ written ->
        f !! j = content !! j).

(** A worker that has stopped: not running, and neither the chunk timeout
    nor the retry timer pending. *)
Definition stopped (w : Worker.t) : Prop :=
  Worker.m_isRunning w = false
  /\ Worker.m_chunkTimeoutTimer w = false
  /\ Worker.m_retryTimer w = false.

(** The event that runs the worker's [startTransfer], and the signals
    that put a chunk on the wire or ask for one. *)
Definition restarts (e : Worker.Event) : bool :=
  match e with Worker.ThreadStarted _ => true | _ => false end.

Definition transmits (sig : Worker.Signal) : bool :=
  match sig with Worker.chunkReady _ | Worker.chunkRequested _ _ => true | _ => false end.

(** The worker's completed counter next to the set it counts. *)
Definition tally (w : Worker.t) : Z * gset Z :=
  (Worker.m_completedChunks w, Worker.m_completedChunkIndices w).

Definition counted (w : Worker.t) : Prop :=
  Worker.m_completedChunks w = Z.of_nat (size (Worker.m_completedChunkIndices w)).

(** The chunks a worker has handed over for sending. *)
Definition sentChunks (sigs : list Worker.Signal) : list FileChunk :=
  omap (fun sig => match sig with Worker.chunkReady c => Some c | _ => None end) sigs.

(** Chunk [index] of an upload of [content], as [sendChunk] builds it. *)
Definition chunkAt `{ChunkSize} `{Sha256} (request : FileTransferRequest)
    (content : QByteArray) (index : Z) : FileChunk :=
  {| chunk_transferId := id request; chunkIndex := index;
     data := chunkBytes content index;
     chunk_checksum := sha256Hex (chunkBytes content index);
     isLast := index =? Session.totalChunksFor (fileSize request) - 1 |}.

(** An upload of [n] chunks under way: chunks [0 .. k-1] are acknowledged,
    chunk [k] is the current one, nothing has failed. *)
Definition uploading (request : FileTransferRequest) (content : QByteArray)
    (n k : Z) (st : Worker.state) : Prop :=
  Worker.m_isRunning st.1 = true /\ Worker.m_isPaused st.1 = false
  /\ Worker.m_isCancelled st.1 = false
  /\ Worker.m_currentChunkIndex st.1 = k /\ Worker.m_totalChunks st.1 = n
  /\ Worker.m_completedChunks st.1 = k
  /\ (forall j, j ∈ Worker.m_completedChunkIndices st.1 <-> 0 <= j < k)
  /\ Worker.m_failedChunks st.1 = ∅
  /\ Session.m_file st.2 = Some content
  /\ Session.m_request st.2 = request.

(** The events by which the user approves in the dialog. *)
Definition approves (e : Dialog.Event) : bool :=
  match e with
  | Dialog.ClickApprove | Dialog.PressReturn true => true
  | _ => false
  end.

(** The text frames among the effects of the controller. *)
Definition texts (out : list Manager.Effect) : list Json.QJsonObject :=
  omap (fun e => match e with
                 | Manager.sendTextMessage message => Some message
                 | _ => None
                 end) out.

(** The message types [handleControlMessage] dispatches on. *)
Definition knownMessageTypes : list string :=
  [ "file_transfer_response"; "transfer_status_update"; "chunk_ack";
    "progress_response"; "error"; "pong"; "transfer_request" ].

(** ** Concrete data for the further examples *)

Module Scenarios.

(** Two-byte chunks, so that the five bytes of [Examples.notes] make
    three chunks. *)
Definition chunk2 : ChunkSize := {| CHUNK_SIZE := 2 |}.

Definition notesUpload : FileTransferRequest :=
  {| id := "t1"; sessionId := "s1"; filename := "notes.txt";
     fileSize := 5; checksum := "00"; type := Upload;
     technician := "tech"; localPath := "/home/user/notes.txt" |}.

Definition notesDownload : FileTransferRequest :=
  {| id := "t2"; sessionId := "s1"; filename := "notes.txt";
     fileSize := 5; checksum := "00"; type := Download;
     technician := "tech"; localPath := "/home/user/Downloads/notes.txt" |}.

(** An upload of a file of no bytes. *)
Definition emptyUpload : FileTransferRequest :=
  {| id := "t3"; sessionId := "s1"; filename := "empty.txt";
     fileSize := 0; checksum := "00"; type := Upload;
     technician := "tech"; localPath := "/home/user/empty.txt" |}.

(** The session of the upload before its file is opened, and with the
    file open for reading; the session of the download with its file open
    for writing. *)
Definition fresh : Session.t := @Session.new chunk2 notesUpload.

Definition reading : Session.t := (Session.openFile (Some Examples.notes) fresh).1.

Definition writing : Session.t :=
  (Session.openFile (Some []) (@Session.new chunk2 notesDownload)).1.

(** The default controller with remembering switched off, and the prompt
    it shows. *)
Definition forgetful : Manager.t := Manager.setRememberDecisionEnabled false Examples.online.

Definition forgetfulPrompt : Dialog.t :=
  default (Dialog.new Examples.promptRequest)
    (head (Manager.dialogs (Manager.showApprovalDialog Examples.promptRequest forgetful).2)).

(** Settings in which a timeout of zero seconds was stored, and the prompt
    the controller that loads them shows. *)
Definition zeroTimeout : Store :=
  {| stored_Enabled := None; stored_Timeout := Some 0;
     stored_RememberDecision := None; stored_MaxFileSize := None;
     stored_AllowedExtensions := []; stored_RememberedDecisions := ∅ |}.

Definition endlessPrompt : Dialog.t :=
  default (Dialog.new Examples.promptRequest)
    (head (Manager.dialogs
             (Manager.showApprovalDialog Examples.promptRequest
                (Manager.new zeroTimeout)).2)).

(** The first of the three chunks of the upload times out and is
    acknowledged after that; the retry timer fires; the second chunk times
    out three times, with the retry timer firing in between. *)
Definition lateAcknowledgement : list Worker.Event :=
  [ Worker.ThreadStarted (Some Examples.notes);
    Worker.ChunkTimeoutFires; Worker.Acknowledged 0; Worker.RetryTimerFires;
    Worker.ChunkTimeoutFires; Worker.RetryTimerFires;
    Worker.ChunkTimeoutFires; Worker.RetryTimerFires;
    Worker.ChunkTimeoutFires ].

(** The prompt of [Examples.prompt] answered with the box checked. *)
Definition approvedForGood : Dialog.t :=
  Dialog.run [Dialog.ToggleRemember; Dialog.ClickApprove] Examples.prompt.

(** A frame of a type the controller does not know. *)
Definition greeting : Json.QJsonObject := Manager.createControlMessage "hello".

(** The controller of [Examples.sending] with room for one transfer only,
    and a second upload requested. *)
Definition busy : Manager.t :=
  (@Manager.requestFileUpload Examples.chunk64k Examples.digest Examples.disk
     "/home/user/README" "s1" "tech" "t2"
     (Manager.setMaxConcurrentTransfers 1 Examples.sending)).1.1.

(** The controller after [notes.txt] has been requested for download as
    [t2], the session it registered, and the first of the chunks the peer
    sends for it. *)
Definition downloadRequested : Manager.t :=
  (@Manager.requestFileDownload Examples.chunk64k Examples.disk
     "notes.txt" "s1" "tech" "/home/user/Downloads/notes.txt" "t2" Examples.online).1.1.

Definition downloading : Session.t :=
  default (@Session.new Examples.chunk64k notesDownload)
    (Manager.m_transferSessions downloadRequested !! "t2").

Definition firstOfThree : FileChunk :=
  {| chunk_transferId := "t2"; chunkIndex := 0; data := [x68; x65];
     chunk_checksum := "sha256-of-2-bytes"; isLast := false |}.

(** A disk that also holds the empty file [/home/user/empty.txt]. *)
Definition diskWithEmpty : FileSystem :=
  {| fileInfo := fun path =>
       if String.eqb path "/home/user/empty.txt"
       then {| exists_ := true; isFile := true; size_ := 0 |}
       else fileInfo (FileSystem := Examples.disk) path;
     contentOf := fun path =>
       if String.eqb path "/home/user/empty.txt" then Some []
       else contentOf (FileSystem := Examples.disk) path;
     mimeTypeForFile := fun _ => "text/plain";
     directoryReady := fun _ => true |}.

End Scenarios.

(** ** Proof automation *)

(** Case analysis on every [let], [if] and [match] of a worker slot. *)
Ltac break_worker :=
  repeat (match goal with
          | |- context [let '(_, _) := ?x in _] => destruct x eqn:?
          | |- context [if ?b then _ else _] => destruct b eqn:?
          | |- context [match ?x with _ => _ end] => destruct x eqn:?
          end; cbn [fst snd]).

(* ===================================================================== *)
(** * Part II: properties                                                 *)
(* ===================================================================== *)

(** ** Machine integers *)

Lemma wrap32_small z : INT_MIN <= z <= INT_MAX -> wrap32 z = z.
Proof.
  unfold INT_MIN, INT_MAX, wrap32. intros Hz.
  rewrite Z.mod_small; lia.
Qed.

Lemma wrap64_small z : - 2 ^ 63 <= z <= INT64_MAX -> wrap64 z = z.
Proof.
  unfold INT64_MAX, wrap64. intros Hz.
  rewrite Z.mod_small; lia.
Qed.

Lemma qMin_min a b : qMin a b = Z.min a b.
Proof. unfold qMin. destruct (Z.ltb_spec b a); lia. Qed.

Lemma qMax_max a b : qMax a b = Z.max a b.
Proof. unfold qMax. destruct (Z.ltb_spec a b); lia. Qed.

(** ** Chunk counts (C6) *)

Section ChunkCount.
Context `{ChunkSize}.

(** Without overflow the constructor's expression is the mathematical
    one. *)
Lemma totalChunksFor_exact (N : Z) :
  0 < CHUNK_SIZE -> 0 < N ->
  N + CHUNK_SIZE <= INT64_MAX ->
  (N + CHUNK_SIZE - 1) / CHUNK_SIZE <= INT_MAX ->
  Session.totalChunksFor N = (N + CHUNK_SIZE - 1) / CHUNK_SIZE.
Proof.
  intros HC HN H64 H32. unfold Session.totalChunksFor.
  destruct (Z.ltb_spec 0 N); [|lia].
  unfold INT64_MAX in H64.
  rewrite (wrap64_small (N + CHUNK_SIZE)) by (unfold INT64_MAX; lia).
  rewrite wrap64_small by (unfold INT64_MAX; lia).
  rewrite Z.quot_div_nonneg by lia.
  apply wrap32_small. split; [|done].
  unfold INT_MIN. transitivity 0; [lia|]. apply Z.div_pos; lia.
Qed.

(** [(N + c - 1) / c] is the ceiling of [N / c]. *)
Lemma ceiling_bounds (N c : Z) :
  0 < c -> (((N + c - 1) / c) - 1) * c < N <= ((N + c - 1) / c) * c.
Proof.
  intros Hc.
  pose proof (Z.div_mod (N + c - 1) c ltac:(lia)) as Hdm.
  pose proof (Z.mod_pos_bound (N + c - 1) c Hc) as Hm.
  nia.
Qed.

(** C6.  For a request of size [N > 0] the session and the worker both
    compute [(N + CHUNK_SIZE - 1) div CHUNK_SIZE] chunks, the ceiling of
    [N / CHUNK_SIZE], as long as the count fits the [int] it is stored in
    and the sum fits [qint64]. *)
Theorem total_chunks_is_ceiling (request : FileTransferRequest) (s : Session.t) :
  0 < CHUNK_SIZE ->
  0 < fileSize request ->
  fileSize request + CHUNK_SIZE <= INT64_MAX ->
  (fileSize request + CHUNK_SIZE - 1) / CHUNK_SIZE <= INT_MAX ->
  Session.m_request s = request ->
  let k := (fileSize request + CHUNK_SIZE - 1) / CHUNK_SIZE in
  Session.m_totalChunks (Session.new request) = k
  /\ Worker.m_totalChunks (Worker.new s) = k
  /\ (k - 1) * CHUNK_SIZE < fileSize request <= k * CHUNK_SIZE.
Proof.
  intros HC HN H64 H32 Hs k. repeat split.
  - by apply totalChunksFor_exact.
  - cbn. rewrite Hs. by apply totalChunksFor_exact.
  - apply ceiling_bounds; lia.
  - apply ceiling_bounds; lia.
Qed.

End ChunkCount.

(** The 130 KiB upload of the first scenario has three chunks of 64 KiB. *)
Lemma total_chunks_is_ceiling_witness :
  Session.m_totalChunks (@Session.new Examples.chunk64k Examples.upload130k) = 3
  /\ Worker.m_totalChunks
       (@Worker.new Examples.chunk64k (@Session.new Examples.chunk64k Examples.upload130k)) = 3.
Proof.
  pose proof (@total_chunks_is_ceiling Examples.chunk64k Examples.upload130k
                (@Session.new Examples.chunk64k Examples.upload130k)
                ltac:(reflexivity) ltac:(reflexivity) ltac:(vm_compute; discriminate)
                ltac:(vm_compute; discriminate) eq_refl) as (Hs & Hw & _).
  split; [exact Hs | exact Hw].
Defined.

(** ** Chunk progress (C7) *)

(** C7, as stated, fails on the percentage, which is not the exact
    quotient.  After 7 of the 25 chunks of a 1600 KiB upload, 458752 of
    1638400 bytes are done, which is 28 per cent exactly.  The code
    divides first: 458752 / 1638400 = 0.28 has no binary64
    representation, and the rounded quotient times 100 rounds to
    [0x1.c000000000001p+4], one unit in the last place above 28.
    Multiplying first would have given 28. *)
Lemma percentage_is_rounded :
  let s := @Session.new Examples.chunk64k Examples.upload1600k in
  let p := Session.m_progress (@Session.updateChunkProgress Examples.chunk64k 7 s).1 in
  Session.m_totalChunks s = 25
  /\ bytesTransferred p = 458752
  /\ totalBytes p = 1638400
  /\ 100 * bytesTransferred p = 28 * totalBytes p
  /\ percentage p = 0x1.c000000000001p+4%float
  /\ Prim2SF (percentage p) = SpecFloat.S754_finite false 7881299347898369 (-48)
  /\ Prim2SF 28%float = SpecFloat.S754_finite false 7881299347898368 (-48)
  /\ percentage p <> 28%float
  /\ PrimFloat.ltb 28 (percentage p) = true
  /\ (doubleOf (100 * bytesTransferred p) / doubleOf (totalBytes p))%float = 28%float.
Proof.
  cbv zeta. split_and!; try (vm_compute; reflexivity).
  intros Heq. apply (f_equal Prim2SF) in Heq. vm_compute in Heq. discriminate Heq.
Qed.

Section ChunkProgress.
Context `{ChunkSize}.

Lemma sessionShape_new request : sessionShape (Session.new request).
Proof. by split. Qed.

Lemma sessionShape_setStatus status s :
  sessionShape s -> sessionShape (Session.setStatus status s).1.
Proof. unfold Session.setStatus. by case_decide. Qed.

Lemma sessionShape_setError e s :
  sessionShape s -> sessionShape (Session.setError e s).1.
Proof. intros Hs. by apply sessionShape_setStatus. Qed.

Lemma sessionShape_setPaused b s :
  sessionShape s -> sessionShape (Session.setPaused b s).1.
Proof. intros Hs. destruct b; by apply sessionShape_setStatus. Qed.

Lemma sessionShape_setCancelled b s :
  sessionShape s -> sessionShape (Session.setCancelled b s).1.
Proof. intros Hs. destruct b; [by apply sessionShape_setStatus | done]. Qed.

Lemma sessionShape_updateProgress b s :
  sessionShape s -> sessionShape (Session.updateProgress b s).1.
Proof. by intros [? ?]. Qed.

Lemma sessionShape_updateChunkProgress c s :
  sessionShape s -> sessionShape (Session.updateChunkProgress c s).1.
Proof.
  intros [Ht Hb]. split; [done|]. cbn.
  by destruct (0 <? Session.m_totalChunks s).
Qed.

Lemma sessionShape_openFile disk s :
  sessionShape s -> sessionShape (Session.openFile disk s).1.
Proof.
  intros Hs. unfold Session.openFile.
  destruct (Session.m_file s), disk; try done.
  by destruct (type (Session.m_request s)).
Qed.

Lemma sessionShape_writeChunk i d s :
  sessionShape s -> sessionShape (Session.writeChunk i d s).1.
Proof.
  intros Hs. unfold Session.writeChunk.
  destruct (Session.m_file s); [|done]. by case_match.
Qed.

(** C7, amended.  With [totalChunks > 0] and a non-negative
    [completed], [updateChunkProgress(completed)] leaves
    [bytesTransferred = min(completed * CHUNK_SIZE, fileSize)] and, when
    [totalBytes > 0], the [double]
    [(double(bytesTransferred) / double(totalBytes)) * 100.0]: the quotient
    is rounded to binary64, and so is its product with 100.  The side
    conditions say that the integers are in the range of their C++ types. *)
Theorem updateChunkProgress_bytes (s : Session.t) (completed : Z) :
  0 < CHUNK_SIZE <= INT_MAX ->
  sessionShape s ->
  fileSize (Session.m_request s) + CHUNK_SIZE <= INT64_MAX ->
  (fileSize (Session.m_request s) + CHUNK_SIZE - 1) / CHUNK_SIZE <= INT_MAX ->
  0 < Session.m_totalChunks s ->
  0 <= completed <= INT_MAX ->
  let p := Session.m_progress (Session.updateChunkProgress completed s).1 in
  bytesTransferred p = Z.min (completed * CHUNK_SIZE) (fileSize (Session.m_request s))
  /\ (0 < totalBytes p ->
      percentage p
      = (doubleOf (bytesTransferred p) / doubleOf (totalBytes p) * 100)%float).
Proof.
  intros HC [Ht Hb] H64 H32 Hpos Hc.
  assert (0 < fileSize (Session.m_request s)) as HN.
  { rewrite Ht in Hpos. unfold Session.totalChunksFor in Hpos.
    destruct (Z.ltb_spec 0 (fileSize (Session.m_request s))); lia. }
  rewrite totalChunksFor_exact in Ht by lia.
  cbn. destruct (Z.ltb_spec 0 (Session.m_totalChunks s)); [|lia].
  rewrite wrap64_small
    by (unfold INT64_MAX, INT_MAX in *; nia).
  cbn. rewrite qMin_min.
  set (b := Z.min _ _).
  assert (b = Z.min (completed * CHUNK_SIZE) (fileSize (Session.m_request s))) as ->.
  { subst b. destruct (Z.eqb_spec completed (Session.m_totalChunks s)) as [->|];
      destruct (Z.ltb_spec 0 (fileSize (Session.m_request s))); cbn; try lia.
    destruct HC as [HC0 _].
    pose proof (ceiling_bounds (fileSize (Session.m_request s)) _ HC0) as Hceil.
    rewrite <- Ht in Hceil. lia. }
  split; [done|].
  intros Htot. destruct (Z.ltb_spec 0 (totalBytes (Session.m_progress s))); [|lia].
  reflexivity.
Qed.

End ChunkProgress.

(** Two of the three chunks of the 130 KiB upload are 131072 bytes; all
    three are the whole file, and the percentage is then 100. *)
Lemma updateChunkProgress_bytes_witness :
  let s := @Session.new Examples.chunk64k Examples.upload130k in
  let p2 := Session.m_progress (@Session.updateChunkProgress Examples.chunk64k 2 s).1 in
  let p3 := Session.m_progress (@Session.updateChunkProgress Examples.chunk64k 3 s).1 in
  bytesTransferred p2 = 131072
  /\ bytesTransferred p3 = 133120
  /\ percentage p3 = (doubleOf 133120 / doubleOf 133120 * 100)%float
  /\ percentage p3 = 100%float.
Proof.
  cbv zeta. split_and!; [| | | vm_compute; reflexivity].
  - apply (@updateChunkProgress_bytes Examples.chunk64k
             (@Session.new Examples.chunk64k Examples.upload130k) 2);
      [vm_compute; split; [reflexivity | discriminate]
      | apply sessionShape_new
      | vm_compute; discriminate
      | vm_compute; discriminate
      | reflexivity
      | vm_compute; split; discriminate ].
  - apply (@updateChunkProgress_bytes Examples.chunk64k
             (@Session.new Examples.chunk64k Examples.upload130k) 3);
      [vm_compute; split; [reflexivity | discriminate]
      | apply sessionShape_new
      | vm_compute; discriminate
      | vm_compute; discriminate
      | reflexivity
      | vm_compute; split; discriminate ].
  - apply (@updateChunkProgress_bytes Examples.chunk64k
             (@Session.new Examples.chunk64k Examples.upload130k) 3);
      [vm_compute; split; [reflexivity | discriminate]
      | apply sessionShape_new
      | vm_compute; discriminate
      | vm_compute; discriminate
      | reflexivity
      | vm_compute; split; discriminate
      | reflexivity ].
Defined.

(** ** Binary chunk frames (C4, C5) *)

Lemma byteZ_range b : 0 <= byteZ b < 256.
Proof. unfold byteZ. pose proof (Byte.to_N_bounded b). lia. Qed.

Lemma byteZ_charOf v : byteZ (charOf v) = v mod 256.
Proof.
  unfold byteZ, charOf.
  assert (0 <= v mod 256 < 256) as Hv by (apply Z.mod_pos_bound; lia).
  destruct (Byte.of_N (Z.to_N (v mod 256))) as [b|] eqn:Hb.
  - apply Byte.to_of_N in Hb. rewrite Hb. lia.
  - apply Byte.of_N_None_iff in Hb. lia.
Qed.

Lemma byte_of_word h k :
  byteZ (charOf (Z.land (Z.shiftr h k) 255)) = (Z.shiftr h k) mod 2 ^ 8.
Proof.
  rewrite byteZ_charOf. change 255 with (Z.ones 8).
  rewrite Z.land_ones by lia. change 256 with (2 ^ 8). by rewrite Z.mod_mod by lia.
Qed.

(** Four bytes cut out of a 32-bit word and put back with shifts and
    [|] give the word. *)
Lemma bytes_assemble h :
  0 <= h < 2 ^ 32 ->
  Z.lor (Z.lor (Z.lor (Z.shiftl ((Z.shiftr h 24) mod 2 ^ 8) 24)
                      (Z.shiftl ((Z.shiftr h 16) mod 2 ^ 8) 16))
               (Z.shiftl ((Z.shiftr h 8) mod 2 ^ 8) 8))
        ((Z.shiftr h 0) mod 2 ^ 8) = h.
Proof.
  intros Hh. apply Z.bits_inj'. intros n Hn.
  rewrite !Z.lor_spec, !Z.shiftl_spec by lia.
  rewrite <- (Z.mod_small h (2 ^ 32)) at 5 by lia.
  rewrite !Z.testbit_mod_pow2 by lia.
  destruct (Z.ltb_spec n 8), (Z.ltb_spec (n - 8) 8), (Z.ltb_spec (n - 16) 8),
    (Z.ltb_spec (n - 24) 8), (Z.ltb_spec n 32); try lia; cbn;
    rewrite ?(Z.testbit_neg_r _ (n - 8)), ?(Z.testbit_neg_r _ (n - 16)),
      ?(Z.testbit_neg_r _ (n - 24)) by lia;
    rewrite ?Z.shiftr_spec by lia; cbn; rewrite ?orb_false_r; try done;
    f_equal; lia.
Qed.

Lemma sizeOf_nonneg d : 0 <= sizeOf d.
Proof. unfold sizeOf. lia. Qed.

Lemma mid_slice d pos len :
  0 <= pos -> 0 <= len <= sizeOf d - pos ->
  mid d pos len = take (Z.to_nat len) (drop (Z.to_nat pos) d).
Proof.
  intros Hp Hl. unfold mid.
  destruct (Z.ltb_spec (sizeOf d) pos); [lia|].
  destruct (Z.ltb_spec pos 0); [lia|].
  destruct (Z.ltb_spec len 0); [lia|].
  destruct (Z.ltb_spec (sizeOf d - pos) len); [lia|]. done.
Qed.

(** A negative length, the default [-1] among them, selects everything
    from [pos] on. *)
Lemma mid_negative_length d pos len :
  0 <= pos <= sizeOf d -> len < 0 -> mid d pos len = drop (Z.to_nat pos) d.
Proof.
  intros Hp Hl. unfold mid.
  destruct (Z.ltb_spec (sizeOf d) pos); [lia|].
  destruct (Z.ltb_spec pos 0); [lia|].
  destruct (Z.ltb_spec len 0); [|lia]. cbn.
  apply take_ge. rewrite length_drop. unfold sizeOf. lia.
Qed.

Lemma lor_bytes b0 b1 b2 b3 :
  Z.lor (Z.lor (Z.lor (Z.shiftl (byteZ b0) 24) (Z.shiftl (byteZ b1) 16))
           (Z.shiftl (byteZ b2) 8)) (byteZ b3) = Manager.bigEndian b0 b1 b2 b3.
Proof.
  pose proof (byteZ_range b0). pose proof (byteZ_range b1).
  pose proof (byteZ_range b2). pose proof (byteZ_range b3).
  set (h := Manager.bigEndian b0 b1 b2 b3).
  assert (0 <= h < 2 ^ 32) as Hh by (subst h; unfold Manager.bigEndian; lia).
  rewrite <- (bytes_assemble h Hh) at 1.
  rewrite !Z.shiftr_div_pow2 by lia.
  assert ((h / 2 ^ 24) mod 2 ^ 8 = byteZ b0) as ->.
  { assert (h / 2 ^ 24 = byteZ b0) as ->
      by (symmetry;
          apply (Z.div_unique _ _ _ (byteZ b1 * 2 ^ 16 + byteZ b2 * 2 ^ 8 + byteZ b3));
          subst h; unfold Manager.bigEndian; lia).
    apply Z.mod_small. lia. }
  assert ((h / 2 ^ 16) mod 2 ^ 8 = byteZ b1) as ->.
  { assert (h / 2 ^ 16 = byteZ b0 * 2 ^ 8 + byteZ b1) as ->
      by (symmetry; apply (Z.div_unique _ _ _ (byteZ b2 * 2 ^ 8 + byteZ b3));
          subst h; unfold Manager.bigEndian; lia).
    symmetry. apply (Z.mod_unique _ _ (byteZ b0)); lia. }
  assert ((h / 2 ^ 8) mod 2 ^ 8 = byteZ b2) as ->.
  { assert (h / 2 ^ 8 = byteZ b0 * 2 ^ 16 + byteZ b1 * 2 ^ 8 + byteZ b2) as ->
      by (symmetry; apply (Z.div_unique _ _ _ (byteZ b3));
          subst h; unfold Manager.bigEndian; lia).
    symmetry. apply (Z.mod_unique _ _ (byteZ b0 * 2 ^ 8 + byteZ b1)); lia. }
  assert ((h / 2 ^ 0) mod 2 ^ 8 = byteZ b3) as ->.
  { rewrite Z.pow_0_r, Z.div_1_r.
    symmetry.
    apply (Z.mod_unique _ _ (byteZ b0 * 2 ^ 16 + byteZ b1 * 2 ^ 8 + byteZ b2));
      subst h; unfold Manager.bigEndian; lia. }
  done.
Qed.

(** The [int] the controller reads is the unsigned length [H] when the top
    bit of the first byte is clear, and [H - 2^32], a negative number, when
    it is set. *)
Lemma headerLengthOf_signed b0 b1 b2 b3 :
  Manager.headerLengthOf b0 b1 b2 b3 =
  if byteZ b0 <? 128 then Manager.bigEndian b0 b1 b2 b3
  else Manager.bigEndian b0 b1 b2 b3 - 2 ^ 32.
Proof.
  unfold Manager.headerLengthOf. rewrite lor_bytes.
  pose proof (byteZ_range b0). pose proof (byteZ_range b1).
  pose proof (byteZ_range b2). pose proof (byteZ_range b3).
  unfold wrap32, Manager.bigEndian. destruct (Z.ltb_spec (byteZ b0) 128).
  - rewrite Z.mod_small; lia.
  - set (h := byteZ b0 * 2 ^ 24 + byteZ b1 * 2 ^ 16 + byteZ b2 * 2 ^ 8 + byteZ b3).
    rewrite <- (Z.mod_unique (h + 2 ^ 31) (2 ^ 32) 1 (h + 2 ^ 31 - 2 ^ 32));
      subst h; lia.
Qed.

Lemma headerLengthOf_encoded h :
  0 <= h <= INT_MAX ->
  Manager.headerLengthOf (charOf (Z.land (Z.shiftr h 24) 255))
    (charOf (Z.land (Z.shiftr h 16) 255))
    (charOf (Z.land (Z.shiftr h 8) 255))
    (charOf (Z.land h 255)) = h.
Proof.
  intros Hh. unfold Manager.headerLengthOf, INT_MAX in *.
  rewrite <- (Z.shiftr_0_r h) at 4.
  rewrite !byte_of_word, bytes_assemble by lia.
  apply wrap32_small. unfold INT_MIN, INT_MAX. lia.
Qed.

Lemma toInt_int i : INT_MIN <= i <= INT_MAX -> Json.toInt (Json.JDouble i) = i.
Proof.
  intros Hi. cbn. destruct (Z.leb_spec INT_MIN i), (Z.leb_spec i INT_MAX); cbn; lia.
Qed.

Lemma chunkOf_chunkHeader chunk :
  0 <= chunkIndex chunk <= INT_MAX ->
  Manager.chunkOf (Manager.chunkHeader chunk) (data chunk) = chunk.
Proof.
  intros Hi. destruct chunk as [t i d c l]. unfold Manager.chunkOf.
  change (Json.value (Manager.chunkHeader _) "transfer_id") with (Json.JString t).
  change (Json.value (Manager.chunkHeader _) "chunk_index") with (Json.JDouble i).
  change (Json.value (Manager.chunkHeader _) "checksum") with (Json.JString c).
  change (Json.value (Manager.chunkHeader _) "is_last") with (Json.JBool l).
  cbn -[Json.toInt] in *. rewrite toInt_int; [done|]. unfold INT_MIN. lia.
Qed.

Section Frames.
Context `{Json.Codec}.
Import Manager.

Lemma decodeChunk_short frame :
  sizeOf frame < 4 -> decodeChunk frame = Discarded "Binary message too short".
Proof.
  unfold sizeOf. intros Hl.
  destruct frame as [|? [|? [|? [|? ?]]]]; cbn in Hl; try done; lia.
Qed.

(** Frames whose first byte has its top bit clear are handled as the
    wire format says: rejected when [H] exceeds what follows the four
    bytes or when the [H] header bytes do not parse, decoded otherwise. *)
Lemma decodeChunk_low b0 b1 b2 b3 rest :
  4 + sizeOf rest <= INT_MAX ->
  byteZ b0 < 128 ->
  let H := bigEndian b0 b1 b2 b3 in
  decodeChunk (b0 :: b1 :: b2 :: b3 :: rest) =
  if sizeOf rest <? H then Discarded "Invalid header length in binary message"
  else match Json.fromJson (take (Z.to_nat H) rest) with
       | None => Discarded "Failed to parse chunk header"
       | Some doc => Chunk (chunkOf (Json.object doc) (drop (Z.to_nat H) rest))
       end.
Proof.
  intros Hfit Hb0 Hh. unfold decodeChunk.
  rewrite headerLengthOf_signed. destruct (Z.ltb_spec (byteZ b0) 128); [|lia].
  fold Hh.
  assert (0 <= Hh) as Hrange.
  { subst Hh. unfold bigEndian.
    pose proof (byteZ_range b0). pose proof (byteZ_range b1).
    pose proof (byteZ_range b2). pose proof (byteZ_range b3). lia. }
  assert (sizeOf (b0 :: b1 :: b2 :: b3 :: rest) = 4 + sizeOf rest) as Hsize
    by (unfold sizeOf; cbn [length]; lia).
  rewrite Hsize. replace (4 + sizeOf rest - 4) with (sizeOf rest) by lia.
  destruct (Z.ltb_spec (sizeOf rest) Hh); [done|].
  rewrite mid_slice by lia.
  rewrite wrap32_small by (unfold INT_MIN, INT_MAX in *; lia).
  rewrite mid_negative_length by lia.
  replace (Z.to_nat (4 + Hh)) with (4 + Z.to_nat Hh)%nat by lia.
  done.
Qed.

(** With the top bit set the length is negative as an [int]: the length
    check lets every such frame through, and everything after the four
    bytes is taken for the header. *)
Lemma decodeChunk_high b0 b1 b2 b3 rest :
  4 + sizeOf rest <= INT_MAX ->
  128 <= byteZ b0 ->
  let frame := b0 :: b1 :: b2 :: b3 :: rest in
  let H := bigEndian b0 b1 b2 b3 in
  decodeChunk frame =
  match Json.fromJson rest with
  | None => Discarded "Failed to parse chunk header"
  | Some doc =>
      Chunk (chunkOf (Json.object doc) (mid frame (wrap32 (4 + (H - 2 ^ 32))) (-1)))
  end.
Proof.
  intros Hfit Hb0 frame Hh. subst frame. unfold decodeChunk.
  rewrite headerLengthOf_signed. destruct (Z.ltb_spec (byteZ b0) 128); [lia|].
  fold Hh.
  assert (Hh - 2 ^ 32 < 0) as Hneg.
  { subst Hh. unfold bigEndian.
    pose proof (byteZ_range b0). pose proof (byteZ_range b1).
    pose proof (byteZ_range b2). pose proof (byteZ_range b3). lia. }
  assert (sizeOf (b0 :: b1 :: b2 :: b3 :: rest) = 4 + sizeOf rest) as Hsize
    by (unfold sizeOf; cbn [length]; lia).
  pose proof (sizeOf_nonneg rest).
  destruct (Z.ltb_spec (sizeOf (b0 :: b1 :: b2 :: b3 :: rest) - 4) (Hh - 2 ^ 32));
    [lia|].
  rewrite mid_negative_length by lia.
  done.
Qed.

(** C5.  Decoding the frame that [sendBinaryChunk] builds for a chunk
    gives the chunk back: the same transfer id, index, checksum, last
    flag and payload.  The chunk index is a non-negative [int], the frame
    fits a [QByteArray], and the header object survives Qt's JSON writer
    and reader. *)
Theorem frame_round_trip (chunk : FileChunk) :
  0 <= chunkIndex chunk <= INT_MAX ->
  sizeOf (encodeChunk chunk) <= INT_MAX ->
  Json.fromJson (Json.toJson (chunkHeader chunk))
    = Some (Json.DocObject (chunkHeader chunk)) ->
  decodeChunk (encodeChunk chunk) = Chunk chunk.
Proof.
  intros Hindex Hfit Hjson.
  unfold encodeChunk in *. cbn [app] in *.
  set (hd := Json.toJson (chunkHeader chunk)) in *.
  assert (sizeOf (hd ++ data chunk) = sizeOf hd + sizeOf (data chunk)) as Hsz
    by (unfold sizeOf; rewrite length_app; lia).
  pose proof (sizeOf_nonneg hd). pose proof (sizeOf_nonneg (data chunk)).
  match type of Hfit with sizeOf ?f <= _ =>
    assert (sizeOf f = 4 + sizeOf (hd ++ data chunk)) as Hframe
      by (unfold sizeOf; cbn [length]; lia)
  end.
  unfold decodeChunk.
  rewrite headerLengthOf_encoded by lia.
  rewrite Hframe.
  destruct (Z.ltb_spec (4 + sizeOf (hd ++ data chunk) - 4) (sizeOf hd)); [lia|].
  rewrite mid_slice by lia.
  rewrite wrap32_small by (unfold INT_MIN, INT_MAX in *; lia).
  rewrite mid_negative_length by lia.
  replace (Z.to_nat (4 + sizeOf hd)) with (4 + length hd)%nat by (unfold sizeOf; lia).
  unfold sizeOf at 1. rewrite Nat2Z.id.
  change (Z.to_nat 4) with 4%nat. cbn [drop Nat.add]. rewrite drop_0.
  rewrite take_app_length, drop_app_length, Hjson.
  cbn [Json.object]. by rewrite chunkOf_chunkHeader.
Qed.

End Frames.

(** The round trip of a last chunk through the reference reader and
    writer. *)
Lemma frame_round_trip_witness :
  @Manager.decodeChunk Json.reference (@Manager.encodeChunk Json.reference Examples.lastChunk)
  = Manager.Chunk Examples.lastChunk.
Proof.
  apply (@frame_round_trip Json.reference Examples.lastChunk).
  - vm_compute. split; discriminate.
  - vm_compute. discriminate.
  - vm_compute. reflexivity.
Defined.

(** C4, at a frame that opens with [0x80].  Its big-endian length [H] is
    [2^31], far more than the 36 bytes that follow, yet the frame is not
    discarded: the length is read as [-2^31], the check passes, the
    remaining bytes parse as the header, the whole frame becomes the
    payload, and [chunkReceived] is emitted for the transfer the header
    names. *)
Theorem high_bit_frame_is_decoded :
  let frame := Examples.highBitFrame in
  Manager.bigEndian x80 x00 x00 x00 = 2 ^ 31
  /\ sizeOf frame - 4 = 36
  /\ Manager.headerLengthOf x80 x00 x00 x00 = - 2 ^ 31
  /\ @Manager.decodeChunk Json.reference frame
     = Manager.Chunk {| chunk_transferId := "t1"; chunkIndex := 7; data := frame;
                        chunk_checksum := EmptyString; isLast := false |}
  /\ @Manager.onWebSocketBinaryMessageReceived Json.reference frame Examples.transferring
     = (Examples.transferring, [Manager.emit (Manager.chunkReceived "t1" 7)]).
Proof. repeat split; vm_compute; reflexivity. Qed.

(** ** Sequencing *)

Import Manager.

Lemma andThen_state r f : (r >>> f).1 = (f r.1).1.
Proof. destruct r as [m out]. cbn. by destruct (f m). Qed.

Lemma andThen_out r f : (r >>> f).2 = r.2 ++ (f r.1).2.
Proof. destruct r as [m out]. cbn. by destruct (f m). Qed.

Lemma sendControlMessage_state message m : (sendControlMessage message m).1 = m.
Proof. unfold sendControlMessage. by destruct (m_isConnected m). Qed.

Lemma sendControlMessage_quiet message m :
  decisions (sendControlMessage message m).2 = []
  /\ dialogs (sendControlMessage message m).2 = []
  /\ length (sendControlMessage message m).2 = 1%nat.
Proof. unfold sendControlMessage. by destruct (m_isConnected m). Qed.

Lemma registerSession_state m : (registerSession m).1 = m.
Proof.
  unfold registerSession. destruct (_ || _); [done|]. apply sendControlMessage_state.
Qed.

(** ** The approval of inbound requests (C1, C8) *)

Lemma processApprovalDecision_out transfer approved message m :
  decisions (processApprovalDecision transfer approved message m).2
    = [(transfer, approved, message)]
  /\ dialogs (processApprovalDecision transfer approved message m).2 = []
  /\ length (processApprovalDecision transfer approved message m).2 = 2%nat.
Proof.
  unfold processApprovalDecision. rewrite andThen_out.
  unfold decisions, dialogs. rewrite !omap_app, length_app.
  match goal with |- context [sendControlMessage ?msg ?m'] =>
    destruct (sendControlMessage_quiet msg m') as (Hd & Hg & Hl) end.
  unfold decisions, dialogs in Hd, Hg. by rewrite Hd, Hg, Hl.
Qed.

Lemma processApprovalDecision_remembered transfer approved message m :
  m_rememberedDecisions (processApprovalDecision transfer approved message m).1
  = m_rememberedDecisions m.
Proof.
  unfold processApprovalDecision.
  by rewrite andThen_state, sendControlMessage_state.
Qed.

(** C1, as stated, fails.  With an allow remembered for [t1], a request
    for [setup.exe] under that id is denied by the extension check; with a
    deny remembered and auto-approval on, a request for [notes.txt] is
    approved. *)
Lemma remembered_decision_overridden :
  m_rememberedDecisions Examples.rememberedAllow !! "t1" = Some true
  /\ decisions (onTransferRequestReceived (Examples.inbound "t1" "setup.exe" 1000)
                  Examples.rememberedAllow).2
     = [("t1", false, "File extension not allowed: exe")]
  /\ m_rememberedDecisions Examples.rememberedDenyAuto !! "t1" = Some false
  /\ decisions (onTransferRequestReceived (Examples.inbound "t1" "notes.txt" 1000)
                  Examples.rememberedDenyAuto).2
     = [("t1", true, "Auto-approved")].
Proof. repeat split; vm_compute; reflexivity. Qed.

(** C1, amended.  For an inbound request whose id has a remembered decision
    [b] the checks run in the order of the code: a file extension that is
    not allowed denies, then a size outside [(0, maxFileSize]] denies, then
    [autoApprovalEnabled] approves, each whatever [b] is; only then, and
    only with [rememberDecisionEnabled] on, the request resolves to [b], and
    no prompt is shown; with [rememberDecisionEnabled] off the user is
    prompted. *)
Theorem remembered_decision_after_policy
    (m : Manager.t) (request : Json.QJsonObject) (b : bool) :
  let r := requestOfJson request in
  m_rememberedDecisions m !! id r = Some b ->
  let out := (onTransferRequestReceived request m).2 in
  if negb (isFileExtensionAllowed (filename r) m) then
    decisions out = [(id r, false, "File extension not allowed: " +:+ suffix (filename r))]
    /\ dialogs out = []
  else if negb (isFileSizeValid (fileSize r) m) then
    decisions out = [(id r, false, "File size exceeds maximum allowed: " +:+
                                   number (fileSize r) +:+ " bytes")]
    /\ dialogs out = []
  else if m_autoApprovalEnabled m then
    decisions out = [(id r, true, "Auto-approved")] /\ dialogs out = []
  else if m_rememberDecisionEnabled m then
    decisions out = [(id r, b, if b then "Auto-approved (remembered)"
                               else "Auto-rejected (remembered)")]
    /\ dialogs out = []
  else decisions out = [] /\ length (dialogs out) = 1%nat.
Proof.
  intros r Hb out. subst out. unfold onTransferRequestReceived. fold r.
  set (m' := with_decisions _ _ _ m).
  change (isFileExtensionAllowed (filename r) m')
    with (isFileExtensionAllowed (filename r) m).
  change (isFileSizeValid (fileSize r) m') with (isFileSizeValid (fileSize r) m).
  change (m_autoApprovalEnabled m') with (m_autoApprovalEnabled m).
  destruct (isFileExtensionAllowed (filename r) m); cbn [negb].
  2: { rewrite andThen_out. unfold decisions, dialogs.
       rewrite !omap_app. cbn [say snd fst omap].
       match goal with |- context [processApprovalDecision ?t ?a ?msg ?m0] =>
         destruct (processApprovalDecision_out t a msg m0) as (Hd & Hg & _) end.
       unfold decisions, dialogs in Hd, Hg. by rewrite Hd, Hg. }
  destruct (isFileSizeValid (fileSize r) m); cbn [negb].
  2: { rewrite andThen_out. unfold decisions, dialogs.
       rewrite !omap_app. cbn [say snd fst omap].
       match goal with |- context [processApprovalDecision ?t ?a ?msg ?m0] =>
         destruct (processApprovalDecision_out t a msg m0) as (Hd & Hg & _) end.
       unfold decisions, dialogs in Hd, Hg. by rewrite Hd, Hg. }
  destruct (m_autoApprovalEnabled m).
  { destruct (processApprovalDecision_out (id r) true "Auto-approved" m') as (Hd & Hg & _).
    by rewrite Hd, Hg. }
  rewrite andThen_out. unfold decisions, dialogs. rewrite !omap_app. cbn [say snd fst omap].
  unfold showApprovalDialog, checkRememberedDecision.
  change (m_rememberDecisionEnabled m') with (m_rememberDecisionEnabled m).
  change (m_rememberedDecisions m') with (m_rememberedDecisions m).
  destruct (m_rememberDecisionEnabled m).
  - rewrite Hb.
    match goal with |- context [processApprovalDecision ?t ?a ?msg ?m0] =>
      destruct (processApprovalDecision_out t a msg m0) as (Hd & Hg & _) end.
    unfold decisions, dialogs in Hd, Hg. by rewrite Hd, Hg.
  - done.
Qed.

(** A remembered deny for [t1] answers a request for [notes.txt] without a
    prompt. *)
Lemma remembered_decision_after_policy_witness :
  decisions (onTransferRequestReceived (Examples.inbound "t1" "notes.txt" 1000)
               Examples.rememberedDeny).2
  = [("t1", false, "Auto-rejected (remembered)")]
  /\ dialogs (onTransferRequestReceived (Examples.inbound "t1" "notes.txt" 1000)
                Examples.rememberedDeny).2 = [].
Proof.
  apply (remembered_decision_after_policy Examples.rememberedDeny
           (Examples.inbound "t1" "notes.txt" 1000) false).
  vm_compute. reflexivity.
Defined.

Lemma dialog_run_app es1 es2 d : Dialog.run (es1 ++ es2) d = Dialog.run es2 (Dialog.run es1 d).
Proof. unfold Dialog.run. apply foldl_app. Qed.

Lemma dialog_run_cons e es d : Dialog.run (e :: es) d = Dialog.run es (Dialog.step e d).
Proof. done. Qed.

(** An event that does not close the prompt leaves it waiting; it changes
    the remember box only if it is a click on the box while it is shown. *)
Lemma waiting_step transfer e d :
  waiting transfer d -> Dialog.closes e = false ->
  waiting transfer (Dialog.step e d)
  /\ Dialog.m_rememberVisible (Dialog.step e d) = Dialog.m_rememberVisible d
  /\ Dialog.m_rememberChecked (Dialog.step e d)
     = match e with
       | Dialog.ToggleRemember =>
           if Dialog.m_rememberVisible d then negb (Dialog.m_rememberChecked d)
           else Dialog.m_rememberChecked d
       | _ => Dialog.m_rememberChecked d
       end.
Proof.
  intros (Hopen & [ms Htimer] & Hid) He. unfold Dialog.step. rewrite Hopen.
  destruct e; try done.
  - destruct (Dialog.m_rememberVisible d) eqn:Hv; repeat split; cbn; eauto.
  - destruct (Dialog.m_displayTimer d); [|repeat split; eauto].
    unfold Dialog.updateTimeoutDisplay.
    destruct (_ <=? 0); repeat split; cbn; eauto.
Qed.

(** Until an event closes the prompt, the remember box is as the clicks on
    it leave it: ticked after an odd number of them. *)
Lemma waiting_run transfer es d :
  waiting transfer d ->
  Forall (fun e => Dialog.closes e = false) es ->
  waiting transfer (Dialog.run es d)
  /\ Dialog.m_rememberVisible (Dialog.run es d) = Dialog.m_rememberVisible d
  /\ Dialog.m_rememberChecked (Dialog.run es d)
     = if Dialog.m_rememberVisible d
       then xorb (Dialog.m_rememberChecked d) (Nat.odd (Dialog.toggles es))
       else Dialog.m_rememberChecked d.
Proof.
  intros Hd Hes. revert d Hd. induction Hes as [|e es He Hes IH]; intros d Hd.
  - cbn. split; [done|]. split; [done|].
    destruct (Dialog.m_rememberVisible d); [|done]. by rewrite xorb_false_r.
  - rewrite dialog_run_cons.
    destruct (waiting_step transfer e d Hd He) as (Hw & Hv & Hc).
    destruct (IH _ Hw) as (Hw' & Hv' & Hc').
    split; [done|]. split; [by rewrite Hv'|].
    rewrite Hc', Hv, Hc. destruct (Dialog.m_rememberVisible d); [|by destruct e].
    destruct e; try done.
    change (Dialog.toggles (Dialog.ToggleRemember :: es)) with (S (Dialog.toggles es)).
    rewrite Nat.odd_succ, <- Nat.negb_odd.
    by destruct (Dialog.m_rememberChecked d), (Nat.odd (Dialog.toggles es)).
Qed.

(** The timeout closes a waiting prompt as a rejection, and leaves the
    remember box as it is. *)
Lemma waiting_timeout transfer d :
  waiting transfer d ->
  let d' := Dialog.step Dialog.TimeoutFires d in
  Dialog.finished d' = Some Dialog.Rejected
  /\ Dialog.m_approved d' = false
  /\ Dialog.m_message d' = "Request timed out"
  /\ Dialog.m_rememberChecked d' = Dialog.m_rememberChecked d
  /\ Dialog.property_transferId d' = transfer.
Proof.
  intros (Hopen & [ms Htimer] & Hid). cbn. unfold Dialog.step.
  by rewrite Hopen, Htimer.
Qed.

(** Nothing reaches a prompt that is closed. *)
Lemma finished_run code es d : Dialog.finished d = Some code -> Dialog.run es d = d.
Proof.
  intros Hd. induction es as [|e es IH]; [done|].
  rewrite dialog_run_cons. unfold Dialog.step at 1. by rewrite Hd.
Qed.

Lemma setAutoTimeout_started seconds d :
  0 < seconds ->
  Dialog.finished (Dialog.setAutoTimeout seconds d) = Dialog.finished d
  /\ Dialog.m_timeoutTimer (Dialog.setAutoTimeout seconds d)
     = Some (wrap32 (seconds * 1000))
  /\ Dialog.m_rememberChecked (Dialog.setAutoTimeout seconds d)
     = Dialog.m_rememberChecked d.
Proof.
  intros Hs. unfold Dialog.setAutoTimeout.
  destruct (Z.ltb_spec 0 seconds); [|lia].
  unfold Dialog.updateTimeoutDisplay. cbn. by destruct (_ <=? 0).
Qed.

(** The dialog that [showApprovalDialog] puts on screen: the remember box
    is shown when remembering is enabled, and is not ticked. *)
Lemma shown_dialog request m d :
  showApprovalDialog request m = (m, [showDialog d]) ->
  0 < m_approvalTimeout m ->
  waiting (id request) d
  /\ Dialog.m_timeoutTimer d = Some (wrap32 (m_approvalTimeout m * 1000))
  /\ Dialog.m_rememberVisible d = m_rememberDecisionEnabled m
  /\ Dialog.m_rememberChecked d = false.
Proof.
  unfold showApprovalDialog. intros Hshow Hpos.
  destruct (if m_rememberDecisionEnabled m then _ else _) as [approved|].
  - exfalso.
    match type of Hshow with processApprovalDecision ?t ?a ?msg ?m0 = _ =>
      destruct (processApprovalDecision_out t a msg m0) as (_ & _ & Hlen) end.
    by rewrite Hshow in Hlen.
  - destruct (Z.ltb_spec 0 (m_approvalTimeout m)); [|lia].
    injection Hshow as <-.
    destruct (setAutoTimeout_started (m_approvalTimeout m) (Dialog.new request) Hpos)
      as (Hf & Ht & Hc).
    unfold waiting. cbn. rewrite Hf, Ht, Hc. by repeat split; eauto.
Qed.

(** C8, as stated, fails twice.  The prompt for [notes.txt], left alone
    until its timer fires, is answered with [Request timed out], not
    [timed out].  And a tick in the remember box is no answer and does not
    stop the timer: when the timer then fires, the rejection is saved as
    the remembered decision for [t1], in memory and in the settings, and a
    second request under that id is rejected without a prompt. *)
Lemma timeout_message_differs :
  let left := Dialog.run [Dialog.TimeoutFires] Examples.prompt in
  let ticked := Dialog.run [Dialog.ToggleRemember; Dialog.TimeoutFires] Examples.prompt in
  let after := (onApprovalDialogFinished ticked Examples.online).1 in
  decisions (onApprovalDialogFinished left Examples.online).2
  = [("t1", false, "Request timed out")]
  /\ "Request timed out" ≠ "timed out"
  /\ Dialog.m_rememberVisible Examples.prompt = true
  /\ Dialog.finished (Dialog.step Dialog.ToggleRemember Examples.prompt) = None
  /\ Dialog.m_timeoutTimer (Dialog.step Dialog.ToggleRemember Examples.prompt) = Some 30000
  /\ Dialog.finished ticked = Some Dialog.Rejected
  /\ decisions (onApprovalDialogFinished ticked Examples.online).2
     = [("t1", false, "Request timed out")]
  /\ checkRememberedDecision "t1" Examples.online = None
  /\ checkRememberedDecision "t1" after = Some false
  /\ stored_RememberedDecisions (m_settings after) !! "t1" = Some false
  /\ decisions (onTransferRequestReceived (Examples.inbound "t1" "notes.txt" 1000) after).2
     = [("t1", false, "Auto-rejected (remembered)")]
  /\ dialogs (onTransferRequestReceived (Examples.inbound "t1" "notes.txt" 1000) after).2
     = [].
Proof. cbv zeta. split_and!; try (vm_compute; reflexivity). discriminate. Qed.

(** C8, amended.  A prompted request whose timeout timer (of
    [approvalTimeout] seconds) fires before the user answers, whatever else
    reaches the dialog before or after, resolves as not approved with the
    message [Request timed out].  The remember box is ticked at that moment
    exactly when remembering is enabled and the box was clicked an odd number
    of times; if it is not ticked no remembered decision is saved and the
    settings are as before, and if it is ticked the rejection is saved as
    the remembered decision for the request's id.  [setApprovalTimeout]
    keeps the timeout at 5 seconds or more (any value below 5 yields 5), and
    the default is 30 seconds. *)
Theorem approval_times_out (m : Manager.t) (request : FileTransferRequest)
    (d : Dialog.t) (before after : list Dialog.Event) :
  showApprovalDialog request m = (m, [showDialog d]) ->
  0 < m_approvalTimeout m ->
  Forall (fun e => Dialog.closes e = false) before ->
  let d' := Dialog.run (before ++ Dialog.TimeoutFires :: after) d in
  let r := onApprovalDialogFinished d' m in
  let ticked := m_rememberDecisionEnabled m && Nat.odd (Dialog.toggles before) in
  Dialog.m_timeoutTimer d = Some (wrap32 (m_approvalTimeout m * 1000))
  /\ Dialog.finished d' = Some Dialog.Rejected
  /\ decisions r.2 = [(id request, false, "Request timed out")]
  /\ Dialog.shouldRememberDecision d' = ticked
  /\ m_rememberedDecisions r.1
     = (if ticked then <[id request := false]> (m_rememberedDecisions m)
        else m_rememberedDecisions m)
  /\ checkRememberedDecision (id request) r.1
     = (if ticked then Some false else checkRememberedDecision (id request) m)
  /\ (ticked = false -> m_settings r.1 = m_settings m)
  /\ (forall seconds, getApprovalTimeout (setApprovalTimeout seconds m) = Z.max 5 seconds)
  /\ (forall seconds, seconds < 5 -> getApprovalTimeout (setApprovalTimeout seconds m) = 5)
  /\ getApprovalTimeout (Manager.new emptyStore) = 30.
Proof.
  intros Hshow Hpos Hes d' r ticked.
  destruct (shown_dialog request m d Hshow Hpos) as (Hd & Htimer & Hvis & Hunticked).
  destruct (waiting_run (id request) before d Hd Hes) as (Hw & _ & Hbox).
  destruct (waiting_timeout (id request) _ Hw) as (Hfin & Happ & Hmsg & Hrem & Hid).
  assert (d' = Dialog.step Dialog.TimeoutFires (Dialog.run before d)) as Hd'.
  { subst d'. rewrite dialog_run_app, dialog_run_cons.
    by apply (finished_run Dialog.Rejected). }
  assert (Dialog.m_rememberChecked d' = ticked) as Hticked.
  { rewrite Hd', Hrem, Hbox, Hvis, Hunticked. subst ticked.
    by destruct (m_rememberDecisionEnabled m). }
  assert (r = processApprovalDecision (id request) false "Request timed out"
                (if ticked then saveRememberedDecision (id request) false m else m))
    as ->.
  { subst r. unfold onApprovalDialogFinished, Dialog.shouldRememberDecision,
      Dialog.isApproved, Dialog.getMessage.
    rewrite Hticked. by rewrite Hd', Hid, Happ, Hmsg. }
  assert (m_rememberedDecisions
            (processApprovalDecision (id request) false "Request timed out"
               (if ticked then saveRememberedDecision (id request) false m else m)).1
          = (if ticked then <[id request := false]> (m_rememberedDecisions m)
             else m_rememberedDecisions m)) as Hsaved.
  { rewrite processApprovalDecision_remembered. by destruct ticked. }
  split; [done|]. split; [by rewrite Hd'|].
  split; [apply processApprovalDecision_out|].
  split; [done|]. split; [done|].
  split.
  { unfold checkRememberedDecision. rewrite Hsaved.
    destruct ticked; [apply lookup_insert_eq | done]. }
  split.
  { intros ->. unfold processApprovalDecision.
    by rewrite andThen_state, sendControlMessage_state. }
  split; [|split; [|done]].
  - intros seconds. cbn. apply qMax_max.
  - intros seconds Hs. cbn. rewrite qMax_max. lia.
Qed.

(** The prompt for [notes.txt] under the default settings.  After a display
    tick and the timeout nothing is remembered; after a tick in the box and
    the timeout the rejection is. *)
Lemma approval_times_out_witness :
  Dialog.m_timeoutTimer Examples.prompt = Some 30000
  /\ decisions (onApprovalDialogFinished
                  (Dialog.run [Dialog.DisplayTick; Dialog.TimeoutFires] Examples.prompt)
                  Examples.online).2
     = [("t1", false, "Request timed out")]
  /\ m_rememberedDecisions
       (onApprovalDialogFinished
          (Dialog.run [Dialog.DisplayTick; Dialog.TimeoutFires] Examples.prompt)
          Examples.online).1
     = m_rememberedDecisions Examples.online
  /\ checkRememberedDecision "t1"
       (onApprovalDialogFinished
          (Dialog.run [Dialog.ToggleRemember; Dialog.TimeoutFires; Dialog.ClickApprove]
             Examples.prompt)
          Examples.online).1
     = Some false
  /\ getApprovalTimeout (setApprovalTimeout 2 Examples.online) = 5.
Proof.
  pose proof (approval_times_out Examples.online Examples.promptRequest Examples.prompt
                [Dialog.DisplayTick] []
                ltac:(vm_compute; reflexivity) ltac:(reflexivity)
                ltac:(repeat constructor))
    as (Htimer & _ & Hdecision & _ & Hkept & _ & _ & _ & Hmin & _).
  pose proof (approval_times_out Examples.online Examples.promptRequest Examples.prompt
                [Dialog.ToggleRemember] [Dialog.ClickApprove]
                ltac:(vm_compute; reflexivity) ltac:(reflexivity)
                ltac:(repeat constructor))
    as (_ & _ & _ & _ & _ & Hsaved & _).
  split; [exact Htimer|]. split; [exact Hdecision|]. split; [exact Hkept|].
  split; [exact Hsaved|]. apply Hmin. lia.
Defined.

(** ** Session status *)

Lemma setStatus_status status s :
  Session.m_status (Session.setStatus status s).1 = status.
Proof. unfold Session.setStatus. by case_decide. Qed.

Lemma setStatus_same s : Session.setStatus (Session.m_status s) s = (s, []).
Proof. unfold Session.setStatus. by case_decide. Qed.

(** C2, as stated, fails: [setStatus] has no guard.  A completed upload
    goes back to [Pending] on a [file_transfer_response] frame that says
    so, to [Failed] on one that says [rejected], and to [Cancelled] on
    [cancelTransfer]. *)
Lemma terminal_status_changes :
  statusOf "t1" Examples.completed = Some Completed
  /\ Session.m_status (Session.setStatus InProgress Examples.completedSession).1
     = InProgress
  /\ statusOf "t1"
       (@handleTransferResponse Examples.chunk64k (Examples.response "pending")
          Examples.completed).1 = Some Pending
  /\ statusOf "t1"
       (@handleTransferResponse Examples.chunk64k (Examples.response "rejected")
          Examples.completed).1 = Some Failed
  /\ statusOf "t1"
       (@cancelTransfer Examples.chunk64k "t1" Examples.completed).1 = Some Cancelled.
Proof. repeat split; vm_compute; reflexivity. Qed.

Section Terminal.
Context `{ChunkSize}.
Import Json.

(** C2, amended.  A session in a terminal status keeps it under: a
    [setStatus] to the status it has; a [file_transfer_response] frame
    whose status is none of [pending], [approved], [rejected]; a
    [transfer_status_update] frame whose status is neither [approved] nor
    [rejected]; either frame for a transfer id the manager does not know;
    and pause, resume and cancel of a worker that is not running.  The
    manager is left as it was and nothing is emitted.  [setStatus] itself
    takes any status, whatever the session's status is. *)
Theorem terminal_status_kept (m : Manager.t) (transfer : string) (s : Session.t) :
  m_transferSessions m !! transfer = Some s ->
  terminal (Session.m_status s) = true ->
  (forall status, Session.m_status (Session.setStatus status s).1 = status)
  /\ Session.setStatus (Session.m_status s) s = (s, [])
  /\ (forall message,
        let status := toString (value message "status") in
        status ≠ "pending" -> status ≠ "approved" -> status ≠ "rejected" ->
        handleTransferResponse message m = (m, []))
  /\ (forall message,
        let status := toString (value message "status") in
        status ≠ "approved" -> status ≠ "rejected" ->
        handleTransferStatusUpdate message m = (m, []))
  /\ (forall message,
        m_transferSessions m !! toString (value message "transfer_id") = None ->
        handleTransferResponse message m = (m, [])
        /\ handleTransferStatusUpdate message m = (m, []))
  /\ (forall w, Worker.m_isRunning w = false ->
        Worker.pauseTransfer (w, s) = ((w, s), [])
        /\ Worker.resumeTransfer (w, s) = ((w, s), [])
        /\ Worker.cancelTransfer (w, s) = ((w, s), [])).
Proof.
  intros Hs Hterm. split; [|split; [|split; [|split; [|split]]]].
  - intros status. apply setStatus_status.
  - apply setStatus_same.
  - intros message status Hp Ha Hr. unfold handleTransferResponse.
    fold status.
    destruct (m_transferSessions m !! toString (value message "transfer_id")); [|done].
    by rewrite (proj2 (String.eqb_neq _ _) Hp), (proj2 (String.eqb_neq _ _) Ha),
      (proj2 (String.eqb_neq _ _) Hr).
  - intros message status Ha Hr. unfold handleTransferStatusUpdate.
    fold status.
    destruct (m_transferSessions m !! toString (value message "transfer_id")); [|done].
    by rewrite (proj2 (String.eqb_neq _ _) Ha), (proj2 (String.eqb_neq _ _) Hr).
  - intros message Hnone. unfold handleTransferResponse, handleTransferStatusUpdate.
    by rewrite Hnone.
  - intros w Hw. unfold Worker.pauseTransfer, Worker.resumeTransfer,
      Worker.cancelTransfer. by rewrite Hw.
Qed.
End Terminal.

(** The completed upload of [notes.txt]. *)
Lemma terminal_status_kept_witness :
  Session.m_status (Session.setStatus Pending Examples.completedSession).1 = Pending
  /\ Session.setStatus Completed Examples.completedSession
     = (Examples.completedSession, [])
  /\ @handleTransferResponse Examples.chunk64k (Examples.response "done")
       Examples.completed = (Examples.completed, []).
Proof.
  pose proof (@terminal_status_kept Examples.chunk64k Examples.completed "t1"
                Examples.completedSession ltac:(vm_compute; reflexivity)
                ltac:(vm_compute; reflexivity)) as (Hset & Hsame & Hresponse & _).
  split; [apply Hset|]. split; [exact Hsame|].
  apply Hresponse; vm_compute; discriminate.
Defined.

(** ** Chunk retries *)

(** C3 at a failing input: an upload whose only chunk is never
    acknowledged.  [MAX_CHUNK_RETRIES] is 3 and the message says
    [after 3 retries], but the count is compared after it is incremented,
    so the failure is announced on the third timeout, when the chunk has
    been retransmitted twice (after 1000 ms and after 2000 ms) and sent
    three times in all; there is no third retry after 4000 ms and no
    fourth failure.  Nothing is made of the failure beyond the signal: the
    retry timer is not started, the worker is still running, the session
    is still [InProgress], and an acknowledgement that arrives afterwards
    completes the transfer. *)
Theorem two_retries_then_failure :
  let frame := @encodeChunk Json.reference Examples.onlyChunk in
  let after n := (Examples.workerEvents (take n Examples.threeTimeouts) Examples.started).1 in
  let run := Examples.workerEvents Examples.threeTimeouts Examples.started in
  let worker := default Examples.sendingWorker (m_transferWorkers run.1 !! "t1") in
  let late := Examples.workerEvents (Examples.threeTimeouts ++ [Worker.Acknowledged 0])
                Examples.started in
  Worker.MAX_CHUNK_RETRIES = 3
  /\ sent (Examples.workerEvents (take 1 Examples.threeTimeouts) Examples.started).2
     = [frame]
  /\ sent run.2 = [frame; frame; frame]
  /\ failures (Examples.workerEvents (take 5 Examples.threeTimeouts) Examples.started).2
     = []
  /\ failures run.2 = [("t1", "Chunk 0 failed after 3 retries")]
  /\ retryTimerOf "t1" (after 2%nat) = Some (true, 1000)
  /\ retryTimerOf "t1" (after 4%nat) = Some (true, 2000)
  /\ retryTimerOf "t1" run.1 = Some (false, 2000)
  /\ Worker.m_chunkRetries worker !! 0 = Some 3
  /\ 0 ∈ Worker.m_failedChunks worker
  /\ Worker.m_isRunning worker = true
  /\ statusOf "t1" run.1 = Some InProgress
  /\ failures late.2 = [("t1", "Chunk 0 failed after 3 retries")]
  /\ statusOf "t1" late.1 = Some Completed.
Proof.
  cbv zeta. split_and!; vm_compute; reflexivity.
Qed.

(** An acknowledgement stops the chunk timer only.  When chunk 0 of three
    is acknowledged after it has timed out, the retry timer that the
    timeout started is still pending; when it fires it sends the chunk that
    is current by then, chunk 1, a second time.  Chunk 1 goes out four
    times before its third timeout is reported. *)
Lemma late_acknowledgement_resends :
  let r := @Worker.run Scenarios.chunk2 Examples.digest Scenarios.lateAcknowledgement
             (@Worker.new Scenarios.chunk2 Scenarios.fresh, Scenarios.fresh) in
  map chunkIndex (sentChunks r.2) = [0; 1; 1; 1; 1]
  /\ omap (fun sig => match sig with Worker.transferFailed e => Some e | _ => None end) r.2
     = ["Chunk 1 failed after 3 retries"]
  /\ Worker.m_isRunning r.1.1 = true.
Proof. cbv zeta. split_and!; vm_compute; reflexivity. Qed.

Section Retry.
Context `{ChunkSize} `{Sha256}.
Import Worker.

Lemma backoffDelay_pow n : 1 <= n <= 21 -> backoffDelay n = 1000 * 2 ^ (n - 1).
Proof.
  intros Hn. unfold backoffDelay, RETRY_DELAY_BASE.
  rewrite Z.shiftl_1_l.
  assert (2 ^ (n - 1) <= 2 ^ 20) by (apply Z.pow_le_mono_r; lia).
  assert (0 < 2 ^ (n - 1)) by (apply Z.pow_pos_nonneg; lia).
  rewrite (wrap32_small (2 ^ (n - 1))) by (unfold INT_MIN, INT_MAX; lia).
  apply wrap32_small. unfold INT_MIN, INT_MAX. lia.
Qed.

(** One failure of chunk [i] whose count so far is [c]: the chunk joins
    the failed set and its count becomes [c + 1]; below 3 that starts the
    retry timer with 1000 * 2^c ms, from 3 on it emits [transferFailed]
    and leaves the timer alone.  The session is not touched. *)
Lemma recordFailure_step (w : Worker.t) (s : Session.t) (i c : Z) (what : string) :
  default 0 (m_chunkRetries w !! i) = c -> 0 <= c < INT_MAX ->
  let r := recordFailure i what (w, s) in
  m_chunkRetries r.1.1 !! i = Some (c + 1)
  /\ i ∈ m_failedChunks r.1.1
  /\ r.1.2 = s
  /\ (c + 1 < 3 ->
      r.2 = [] /\ m_retryTimer r.1.1 = true
      /\ m_retryInterval r.1.1 = 1000 * 2 ^ c)
  /\ (3 <= c + 1 ->
      r.2 = [transferFailed ("Chunk " +:+ number i +:+ what +:+ "3 retries")]
      /\ m_retryTimer r.1.1 = m_retryTimer w
      /\ m_retryInterval r.1.1 = m_retryInterval w).
Proof.
  intros Hc Hrange r. subst r. unfold recordFailure, retryCountAfterFailure.
  unfold INT_MAX in Hrange.
  rewrite Hc, wrap32_small by (unfold INT_MIN, INT_MAX; lia).
  unfold MAX_CHUNK_RETRIES.
  destruct (Z.leb_spec 3 (c + 1)); cbn.
  - rewrite lookup_insert_eq.
    repeat split; try done; try lia. by apply elem_of_union_l, elem_of_singleton.
  - rewrite lookup_insert_eq.
    repeat split; try done; try lia; [by apply elem_of_union_l, elem_of_singleton|].
    rewrite backoffDelay_pow by lia. f_equal. f_equal. lia.
Qed.

(** In a worker that runs and is not cancelled, a chunk timeout is a
    failure of the current chunk. *)
Lemma onChunkTimeout_records (w : Worker.t) (s : Session.t) :
  m_isRunning w = true -> m_isCancelled w = false ->
  onChunkTimeout (w, s) = recordFailure (m_currentChunkIndex w) " failed after " (w, s).
Proof. intros Hrun Hcancel. unfold onChunkTimeout. by rewrite Hrun, Hcancel. Qed.

(** What holds at the failing input holds of every chunk that has not
    failed before: its first failure starts the retry timer with 1000 ms,
    its second with 2000 ms, and its third emits [transferFailed]. *)
Lemma three_failures (w : Worker.t) (s : Session.t) (i : Z) (what : string) :
  m_chunkRetries w !! i = None ->
  let r1 := recordFailure i what (w, s) in
  let r2 := recordFailure i what r1.1 in
  let r3 := recordFailure i what r2.1 in
  (r1.2 = [] /\ m_retryTimer r1.1.1 = true /\ m_retryInterval r1.1.1 = 1000)
  /\ (r2.2 = [] /\ m_retryTimer r2.1.1 = true /\ m_retryInterval r2.1.1 = 2000)
  /\ r3.2 = [transferFailed ("Chunk " +:+ number i +:+ what +:+ "3 retries")]
  /\ m_retryTimer r3.1.1 = m_retryTimer r2.1.1
  /\ i ∈ m_failedChunks r3.1.1
  /\ r3.1.2 = s.
Proof.
  intros Hfresh r1 r2 r3.
  destruct (recordFailure_step w s i 0 what) as (H1 & _ & Hs1 & Hretry1 & _);
    [by rewrite Hfresh | unfold INT_MAX; lia |]. fold r1 in H1, Hs1, Hretry1.
  destruct (recordFailure_step r1.1.1 r1.1.2 i 1 what) as (H2 & _ & Hs2 & Hretry2 & _);
    [by rewrite H1 | unfold INT_MAX; lia |].
  rewrite <- surjective_pairing in H2, Hs2, Hretry2. fold r2 in H2, Hs2, Hretry2.
  destruct (recordFailure_step r2.1.1 r2.1.2 i 2 what) as (_ & Hin & Hs3 & _ & Hfatal);
    [by rewrite H2 | unfold INT_MAX; lia |].
  rewrite <- surjective_pairing in Hin, Hs3, Hfatal. fold r3 in Hin, Hs3, Hfatal.
  split; [apply Hretry1; lia|]. split; [apply Hretry2; lia|].
  split; [apply Hfatal; lia|]. split; [apply Hfatal; lia|].
  split; [done|]. congruence.
Qed.
End Retry.

(** ** Reconnection *)

Lemma connectionInvariant_new store : connectionInvariant (Manager.new store).
Proof. split; cbn; [unfold MAX_RECONNECT_ATTEMPTS; lia | done]. Qed.

Lemma connectionInvariant_step e m :
  connectionInvariant m -> connectionInvariant (connectionStep e m).1.
Proof.
  intros [Hrange Htimer]. unfold connectionInvariant, MAX_RECONNECT_ATTEMPTS in *.
  destruct e as [url| | |err|]; cbn.
  - split; cbn; [lia|]. intros _. lia.
  - unfold onWebSocketConnected. rewrite andThen_state, registerSession_state.
    split; cbn; [lia | done].
  - split; cbn; [done|]. unfold MAX_RECONNECT_ATTEMPTS.
    destruct (Z.ltb_spec (m_reconnectAttempts m) 5); cbn; [intros _; lia | exact Htimer].
  - done.
  - destruct (m_reconnectTimer m) eqn:Ht.
    2: { cbn. split; [done | by rewrite Ht]. }
    specialize (Htimer eq_refl). unfold onReconnectTimer, MAX_RECONNECT_ATTEMPTS. cbn.
    destruct (Z.ltb_spec (m_reconnectAttempts m) 5); [|lia]. cbn.
    rewrite wrap32_small by (unfold INT_MIN, INT_MAX; lia).
    split; [lia | done].
Qed.

Lemma connectionInvariant_run es m :
  connectionInvariant m -> connectionInvariant (connectionRun es m).1.
Proof.
  revert m. induction es as [|e es IH]; intros m Hinv; [done|].
  cbn [connectionRun]. rewrite andThen_state. apply IH.
  by apply connectionInvariant_step.
Qed.

(** When the reconnect timer fires, its slot always takes the branch that
    opens the socket: the branch that reports exhaustion is never taken. *)
Lemma reconnectTimer_never_exhausted m :
  connectionInvariant m ->
  (connectionStep ReconnectTimerFires m).2
  = if m_reconnectTimer m then [socketOpen (m_serverUrl m)] else [].
Proof.
  intros [Hrange Htimer]. cbn. destruct (m_reconnectTimer m); [|done].
  specialize (Htimer eq_refl). unfold onReconnectTimer. cbn.
  by destruct (Z.ltb_spec (m_reconnectAttempts m) MAX_RECONNECT_ATTEMPTS); [|lia].
Qed.

Lemma connectionStep_no_report e m :
  connectionInvariant m -> mimicsReport e = false ->
  forallb (fun x => negb (exhaustionReport x)) (connectionStep e m).2 = true.
Proof.
  intros Hinv He. destruct e as [url| | |err|].
  - done.
  - cbn. unfold onWebSocketConnected. rewrite andThen_out. cbn.
    rewrite forallb_app. cbn. rewrite andb_true_r.
    unfold registerSession. destruct (_ || _); [done|].
    unfold sendControlMessage. by destruct (m_isConnected _).
  - done.
  - cbn in *. by rewrite He.
  - rewrite reconnectTimer_never_exhausted by done. by destruct (m_reconnectTimer m).
Qed.

Lemma exhaustion_never_reported es m :
  connectionInvariant m ->
  forallb (fun e => negb (mimicsReport e)) es = true ->
  forallb (fun x => negb (exhaustionReport x)) (connectionRun es m).2 = true.
Proof.
  revert m. induction es as [|e es IH]; intros m Hinv Hes; [done|].
  cbn in Hes. apply andb_true_iff in Hes as [He Hes]. apply negb_true_iff in He.
  cbn [connectionRun]. rewrite andThen_out, forallb_app.
  rewrite connectionStep_no_report by done. cbn.
  apply IH; [by apply connectionInvariant_step | done].
Qed.

(** Within one episode (no connect request, no connected event) every
    attempt is counted. *)
Lemma episode_attempts es m :
  connectionInvariant m ->
  forallb (fun e => negb (resets e)) es = true ->
  m_reconnectAttempts (connectionRun es m).1
  = m_reconnectAttempts m + Z.of_nat (length (opens (connectionRun es m).2)).
Proof.
  revert m. induction es as [|e es IH]; intros m Hinv Hes; [cbn; lia|].
  cbn in Hes. apply andb_true_iff in Hes as [He Hes].
  cbn [connectionRun]. rewrite andThen_state, andThen_out.
  unfold opens in *. rewrite omap_app, length_app.
  rewrite IH by (try apply connectionInvariant_step; done).
  enough (m_reconnectAttempts (connectionStep e m).1
          = m_reconnectAttempts m
            + Z.of_nat (length (omap (fun e => match e with
                                               | socketOpen url => Some url
                                               | _ => None
                                               end) (connectionStep e m).2))) by lia.
  destruct Hinv as [Hrange Htimer]. unfold MAX_RECONNECT_ATTEMPTS in *.
  destruct e as [url| | |err|]; try done; cbn.
  - lia.
  - lia.
  - destruct (m_reconnectTimer m); [|cbn; lia].
    specialize (Htimer eq_refl). unfold onReconnectTimer, MAX_RECONNECT_ATTEMPTS. cbn.
    destruct (Z.ltb_spec (m_reconnectAttempts m) 5); [|lia]. cbn.
    rewrite wrap32_small by (unfold INT_MIN, INT_MAX; lia). lia.
Qed.

(** The part of C9 that holds: between two resets at most five attempts are
    made. *)
Lemma at_most_five_attempts_per_episode es m :
  connectionInvariant m ->
  forallb (fun e => negb (resets e)) es = true ->
  (length (opens (connectionRun es m).2) <= 5)%nat.
Proof.
  intros Hinv Hes.
  pose proof (episode_attempts es m Hinv Hes) as Hcount.
  destruct (connectionInvariant_run es m Hinv) as [Hr _].
  destruct Hinv as [Hr0 _]. unfold MAX_RECONNECT_ATTEMPTS in *. lia.
Qed.

(** ... and every connected event sets the counter back to zero. *)
Lemma connected_resets_attempts m : m_reconnectAttempts (onWebSocketConnected m).1 = 0.
Proof. unfold onWebSocketConnected. by rewrite andThen_state, registerSession_state. Qed.

(** C9: the connection error on exhaustion is never emitted.  The server
    goes away and each of the five reconnect attempts is refused: five
    attempts are made, the counter ends at 5 with the timer stopped, the
    only connection errors are the socket's own, and nothing reports that
    the attempts are exhausted.  Firing the timer again does nothing, as it
    does not run. *)
Theorem reconnect_exhaustion_is_silent :
  let run := connectionRun Examples.outage Examples.online in
  length (opens run.2) = 5%nat
  /\ m_reconnectAttempts run.1 = MAX_RECONNECT_ATTEMPTS
  /\ m_reconnectTimer run.1 = false
  /\ forallb (fun e => negb (exhaustionReport e)) run.2 = true
  /\ (connectionStep ReconnectTimerFires run.1).2 = [].
Proof. cbv zeta. split; [|split; [|split; [|split]]]; vm_compute; reflexivity. Qed.

(** ** File extensions *)

Section EmptyExtension.
Context `{FileSystem}.

(** C10.  A path whose file name has no suffix passes [validateFile]
    whatever the allowed extensions are (in any manager with the same
    size limit), provided the file exists, is a
    regular file, is within the size limit and is not of an executable
    MIME type; [isFileExtensionAllowed] looks the bare dot up in the
    allowed extensions for it, and so rejects it when the dot is not one
    of them. *)
Theorem empty_extension_asymmetry (m : Manager.t) (filePath errorMessage : string) :
  suffix filePath = EmptyString ->
  exists_ (fileInfo filePath) = true ->
  isFile (fileInfo filePath) = true ->
  size_ (fileInfo filePath) <= m_maxFileSize m ->
  startsWith (mimeTypeForFile filePath) "application/x-executable" = false ->
  (forall m', m_maxFileSize m' = m_maxFileSize m ->
              validateFile filePath errorMessage m' = (true, errorMessage))
  /\ validateFile filePath errorMessage m = (true, errorMessage)
  /\ isFileExtensionAllowed filePath m = contains (m_allowedExtensions m) "."
  /\ (contains (m_allowedExtensions m) "." = false ->
      isFileExtensionAllowed filePath m = false).
Proof.
  intros Hsuffix Hexists Hfile Hsize Hmime.
  assert (forall m', m_maxFileSize m' = m_maxFileSize m ->
                     validateFile filePath errorMessage m' = (true, errorMessage))
    as Hvalid.
  { intros m' Hmax. unfold validateFile.
    rewrite Hexists, Hfile, Hsuffix, Hmime, Hmax. cbn.
    by destruct (Z.ltb_spec (m_maxFileSize m) (size_ (fileInfo filePath))); [lia|]. }
  assert (isFileExtensionAllowed filePath m = contains (m_allowedExtensions m) ".")
    as Hallowed.
  { unfold isFileExtensionAllowed. by rewrite Hsuffix. }
  split; [done|]. split; [by apply Hvalid|].
  split; [done|]. intros Hdot. by rewrite Hallowed.
Qed.
End EmptyExtension.

(** [README], 120 bytes of plain text, under the default settings. *)
Lemma empty_extension_asymmetry_witness :
  @validateFile Examples.disk "/home/user/README" EmptyString Examples.online
  = (true, EmptyString)
  /\ isFileExtensionAllowed "/home/user/README" Examples.online = false.
Proof.
  pose proof (@empty_extension_asymmetry Examples.disk Examples.online
                "/home/user/README" EmptyString
                ltac:(reflexivity) ltac:(reflexivity) ltac:(reflexivity)
                ltac:(vm_compute; discriminate) ltac:(reflexivity))
    as (_ & Hvalid & _ & Hreject).
  split; [exact Hvalid | apply Hreject; reflexivity].
Defined.

(* ===================================================================== *)
(** * Part III: further properties                                        *)
(* ===================================================================== *)

(** ** Status names and chunks of a file *)

(** X1.  [stringToStatus] inverts [statusToString] on every status.  In
    the other direction a name is either given back unchanged or was
    read as [Pending], the value [stringToStatus] falls back to for a name
    it does not know. *)
Theorem status_names_round_trip :
  (forall status, Session.stringToStatus (Session.statusToString status) = status)
  /\ (forall name, Session.statusToString (Session.stringToStatus name) = name
                   \/ Session.stringToStatus name = Pending).
Proof.
  split.
  - by intros [].
  - intros name. unfold Session.stringToStatus.
    repeat (match goal with
            | |- context [String.eqb name ?lit] =>
                destruct (String.eqb_spec name lit) as [->|]; [by left|]
            end).
    by right.
Qed.

Lemma int_product (a b : Z) :
  INT_MIN <= a <= INT_MAX -> 0 <= b <= INT_MAX -> - 2 ^ 62 <= a * b <= 2 ^ 62.
Proof.
  unfold INT_MIN, INT_MAX.
  change (2 ^ 31) with 2147483648. change (2 ^ 62) with 4611686018427387904.
  intros Ha Hb. nia.
Qed.

Section Chunks.
Context `{ChunkSize}.

Lemma readChunk_closed i s : Session.m_file s = None -> Session.readChunk i s = [].
Proof. unfold Session.readChunk. by intros ->. Qed.

Lemma readChunk_cases (s : Session.t) (content : QByteArray) (i : Z) :
  0 < CHUNK_SIZE <= INT_MAX ->
  Session.m_file s = Some content ->
  sizeOf content = fileSize (Session.m_request s) ->
  sizeOf content <= INT64_MAX ->
  INT_MIN <= i <= INT_MAX ->
  Session.readChunk i s
  = if (0 <=? i) && (i * CHUNK_SIZE <? sizeOf content) then chunkBytes content i else [].
Proof.
  intros HK Hfile Hsize H64 Hi.
  unfold INT_MAX, INT_MIN, INT64_MAX in *.
  unfold Session.readChunk. rewrite Hfile, <- Hsize.
  assert (- 2 ^ 62 <= i * CHUNK_SIZE <= 2 ^ 62)
    by (apply int_product; unfold INT_MIN, INT_MAX; lia).
  rewrite (wrap64_small (i * CHUNK_SIZE)) by (unfold INT64_MAX; lia).
  destruct (Z.leb_spec 0 i); cbn [andb].
  2: { destruct (_ <=? 0); [done|]. destruct (Z.ltb_spec (i * CHUNK_SIZE) 0); [done|nia]. }
  rewrite wrap64_small by (unfold INT64_MAX, sizeOf in *; nia).
  rewrite qMin_min.
  destruct (Z.ltb_spec (i * CHUNK_SIZE) (sizeOf content)).
  - rewrite wrap32_small by (unfold INT_MIN, INT_MAX; lia).
    destruct (Z.leb_spec (Z.min CHUNK_SIZE (sizeOf content - i * CHUNK_SIZE)) 0); [lia|].
    destruct (Z.ltb_spec (i * CHUNK_SIZE) 0); [lia|].
    assert (sizeOf (take (Z.to_nat (Z.min CHUNK_SIZE (sizeOf content - i * CHUNK_SIZE)))
                      (drop (Z.to_nat (i * CHUNK_SIZE)) content))
            = Z.min CHUNK_SIZE (sizeOf content - i * CHUNK_SIZE)) as Hlen.
    { unfold sizeOf in *. rewrite length_take, length_drop. lia. }
    rewrite Hlen, Z.eqb_refl. unfold chunkBytes.
    destruct (Z.le_ge_cases CHUNK_SIZE (sizeOf content - i * CHUNK_SIZE)).
    + by rewrite Z.min_l.
    + rewrite Z.min_r by done.
      rewrite !take_ge; [done| |]; unfold sizeOf in *; rewrite length_drop; lia.
  - destruct (_ <=? 0); [done|]. destruct (_ <? 0); [done|].
    rewrite drop_ge by (unfold sizeOf in *; lia).
    rewrite take_nil. cbn.
    match goal with |- (if ?b then _ else _) = _ => by destruct b end.
Qed.

Lemma chunkBytes_size (content : QByteArray) (i : Z) :
  0 < CHUNK_SIZE -> 0 <= i -> i * CHUNK_SIZE < sizeOf content ->
  sizeOf (chunkBytes content i) = Z.min CHUNK_SIZE (sizeOf content - i * CHUNK_SIZE).
Proof.
  intros HK Hi Hlt. unfold chunkBytes, sizeOf in *. rewrite length_take, length_drop. lia.
Qed.

(** Inside the file, [readChunk] is the slice. *)
Lemma readChunk_inside (s : Session.t) (content : QByteArray) (i : Z) :
  0 < CHUNK_SIZE <= INT_MAX ->
  Session.m_file s = Some content ->
  sizeOf content = fileSize (Session.m_request s) ->
  sizeOf content <= INT64_MAX ->
  0 <= i <= INT_MAX ->
  i * CHUNK_SIZE < sizeOf content ->
  Session.readChunk i s = chunkBytes content i.
Proof.
  intros HK Hfile Hsize H64 Hi Hlt.
  rewrite (readChunk_cases s content i) by (try done; unfold INT_MIN; lia).
  destruct (Z.leb_spec 0 i); [|lia].
  by destruct (Z.ltb_spec (i * CHUNK_SIZE) (sizeOf content)); [|lia].
Qed.

(** X2.  With the file open and as long as the request says,
    [readChunk(i)] returns the bytes from offset [i * CHUNK_SIZE], at most
    [CHUNK_SIZE] of them, when [i] is not negative and the offset lies
    inside the file, and the empty array otherwise; inside the file the
    chunk has [min(CHUNK_SIZE, size - i * CHUNK_SIZE)] bytes. *)
Theorem readChunk_slice (s : Session.t) (content : QByteArray) (i : Z) :
  0 < CHUNK_SIZE <= INT_MAX ->
  Session.m_file s = Some content ->
  sizeOf content = fileSize (Session.m_request s) ->
  sizeOf content <= INT64_MAX ->
  INT_MIN <= i <= INT_MAX ->
  Session.readChunk i s
  = (if (0 <=? i) && (i * CHUNK_SIZE <? sizeOf content) then chunkBytes content i else [])
  /\ (0 <= i -> i * CHUNK_SIZE < sizeOf content ->
      sizeOf (Session.readChunk i s) = Z.min CHUNK_SIZE (sizeOf content - i * CHUNK_SIZE)).
Proof.
  intros HK Hfile Hsize H64 Hi.
  pose proof (readChunk_cases s content i HK Hfile Hsize H64 Hi) as Hread.
  split; [exact Hread|]. intros Hi0 Hlt. rewrite Hread.
  destruct (Z.leb_spec 0 i); [|lia].
  destruct (Z.ltb_spec (i * CHUNK_SIZE) (sizeOf content)); [|lia].
  cbn [andb]. apply chunkBytes_size; lia.
Qed.

Lemma slices_cover {A} (k n : nat) (c : list A) :
  (0 < k)%nat -> (length c <= n * k)%nat ->
  concat (map (fun i => take k (drop (i * k) c)) (seq 0 n)) = c.
Proof.
  intros Hk. revert c. induction n as [|n IH]; intros c Hlen.
  - destruct c; [done | cbn in Hlen; lia].
  - cbn [seq map concat]. rewrite <- seq_shift, map_map. cbn [Nat.mul Nat.add drop].
    transitivity (take k c ++ drop k c); [|apply take_drop]. f_equal.
    etransitivity; [|apply (IH (drop k c)); rewrite length_drop; lia].
    f_equal. apply map_ext. intros i. rewrite drop_drop. f_equal; f_equal; lia.
Qed.

(** X3.  The chunks [0 .. totalChunks - 1] that [readChunk] gives for an
    open file, concatenated in order, are the file's content; each of them
    is non-empty and at most [CHUNK_SIZE] bytes long. *)
Theorem chunks_cover_the_file (s : Session.t) (content : QByteArray) :
  0 < CHUNK_SIZE <= INT_MAX ->
  sessionShape s ->
  Session.m_file s = Some content ->
  sizeOf content = fileSize (Session.m_request s) ->
  sizeOf content + CHUNK_SIZE <= INT64_MAX ->
  (sizeOf content + CHUNK_SIZE - 1) / CHUNK_SIZE <= INT_MAX ->
  concat (readChunks s) = content
  /\ Forall (fun d => 0 < sizeOf d <= CHUNK_SIZE) (readChunks s).
Proof.
  intros HK [Htotal _] Hfile Hsize H64 H32.
  assert (0 <= sizeOf content) as Hnonneg by (unfold sizeOf; lia).
  assert (concat (readChunks s) = content /\
          forall i, (i < Z.to_nat (Session.m_totalChunks s))%nat ->
                    Z.of_nat i * CHUNK_SIZE < sizeOf content /\ Z.of_nat i <= INT_MAX)
    as [Hcover Hin].
  { destruct (Z.eq_dec (sizeOf content) 0) as [Hzero|Hpos].
    - unfold readChunks. rewrite Htotal, <- Hsize, Hzero. cbn. split; [|lia].
      unfold sizeOf in Hzero. by destruct content.
    - assert (Session.totalChunksFor (sizeOf content)
              = (sizeOf content + CHUNK_SIZE - 1) / CHUNK_SIZE) as Hn
        by (apply totalChunksFor_exact; lia).
      assert (((sizeOf content + CHUNK_SIZE - 1) / CHUNK_SIZE - 1) * CHUNK_SIZE
              < sizeOf content
              <= (sizeOf content + CHUNK_SIZE - 1) / CHUNK_SIZE * CHUNK_SIZE) as Hceil
        by (apply ceiling_bounds; lia).
      rewrite <- Hsize, Hn in Htotal.
      assert (0 <= (sizeOf content + CHUNK_SIZE - 1) / CHUNK_SIZE)
        by (apply Z.div_pos; lia).
      assert (forall i, (i < Z.to_nat (Session.m_totalChunks s))%nat ->
                Z.of_nat i * CHUNK_SIZE < sizeOf content /\ Z.of_nat i <= INT_MAX) as Hin.
      { intros i Hi. rewrite Htotal in Hi. split; nia. }
      split; [|done].
      etransitivity;
        [|apply (slices_cover (Z.to_nat CHUNK_SIZE)
                   (Z.to_nat (Session.m_totalChunks s)) content);
          [lia | rewrite Htotal; unfold sizeOf in *; nia]].
      unfold readChunks. f_equal. apply map_ext_in. intros i Hi%in_seq.
      destruct (Hin i ltac:(lia)) as [Hlt Hint].
      rewrite (readChunk_inside s content (Z.of_nat i))
        by (try done; unfold INT64_MAX in *; lia).
      unfold chunkBytes. do 2 f_equal. nia. }
  split; [done|]. unfold readChunks. apply Forall_map, Forall_forall.
  intros i Hi%elem_of_seq. destruct (Hin i ltac:(lia)) as [Hlt Hint].
  cbn. rewrite (readChunk_inside s content (Z.of_nat i))
    by (try done; unfold INT64_MAX in *; lia).
  rewrite chunkBytes_size by lia. lia.
Qed.

End Chunks.

(** The last and the middle chunk of [notes.txt] in chunks of two bytes. *)
Lemma readChunk_slice_witness :
  @Session.readChunk Scenarios.chunk2 2 Scenarios.reading = [x6f]
  /\ sizeOf (@Session.readChunk Scenarios.chunk2 1 Scenarios.reading) = 2.
Proof.
  split.
  - destruct (@readChunk_slice Scenarios.chunk2 Scenarios.reading Examples.notes 2
                ltac:(unfold CHUNK_SIZE, Scenarios.chunk2, INT_MAX; lia)
                ltac:(reflexivity) ltac:(reflexivity)
                ltac:(vm_compute; discriminate) ltac:(unfold INT_MIN, INT_MAX; lia))
      as [Hread _].
    exact Hread.
  - destruct (@readChunk_slice Scenarios.chunk2 Scenarios.reading Examples.notes 1
                ltac:(unfold CHUNK_SIZE, Scenarios.chunk2, INT_MAX; lia)
                ltac:(reflexivity) ltac:(reflexivity)
                ltac:(vm_compute; discriminate) ltac:(unfold INT_MIN, INT_MAX; lia))
      as [_ Hsize].
    apply Hsize; vm_compute; [discriminate | reflexivity].
Defined.

(** [notes.txt] in chunks of two bytes. *)
Lemma chunks_cover_the_file_witness :
  concat (@readChunks Scenarios.chunk2 Scenarios.reading) = Examples.notes
  /\ length (@readChunks Scenarios.chunk2 Scenarios.reading) = 3%nat.
Proof.
  split; [|reflexivity].
  apply (@chunks_cover_the_file Scenarios.chunk2 Scenarios.reading Examples.notes).
  - unfold CHUNK_SIZE, Scenarios.chunk2, INT_MAX. lia.
  - split; reflexivity.
  - reflexivity.
  - reflexivity.
  - vm_compute. discriminate.
  - vm_compute. discriminate.
Defined.

(** ** Reassembly of a download *)

(** What [writeChunk] leaves in the file: [d] at offset [o], the gap before
    it (if the file was shorter) filled with zero bytes, the rest kept. *)
Lemma overwrite_facts (f d : list byte) (o : nat) :
  let f' := take o (f ++ replicate (o - length f) x00) ++ d ++ drop (o + length d) f in
  length f' = (length f `max` (o + length d))%nat
  /\ (forall j, (o <= j < o + length d)%nat -> f' !! j = d !! (j - o)%nat)
  /\ (forall j, (j < o)%nat -> (j < length f)%nat -> f' !! j = f !! j)
  /\ (forall j, (o + length d <= j)%nat -> f' !! j = f !! j).
Proof.
  intros f'. subst f'.
  assert (length (take o (f ++ replicate (o - length f) x00)) = o) as Hpre.
  { rewrite length_take, length_app, length_replicate. lia. }
  split; [|split; [|split]].
  - rewrite !length_app, Hpre, length_drop. lia.
  - intros j Hj. rewrite lookup_app_r by lia. rewrite Hpre.
    by rewrite lookup_app_l by lia.
  - intros j Hj Hlen. rewrite lookup_app_l by lia.
    rewrite lookup_take_lt by lia. by rewrite lookup_app_l by lia.
  - intros j Hj. rewrite lookup_app_r by lia. rewrite Hpre.
    rewrite lookup_app_r by lia. rewrite lookup_drop. f_equal. lia.
Qed.

Section Reassembly.
Context `{ChunkSize}.

Lemma partOf_write (content : QByteArray) (written : list Z) (f : QByteArray) (i : Z)
    (s : Session.t) :
  0 < CHUNK_SIZE ->
  sizeOf content <= INT64_MAX ->
  0 <= i -> i * CHUNK_SIZE < sizeOf content ->
  Session.m_file s = Some f ->
  partOf content written f ->
  exists f',
    Session.m_file (Session.writeChunk i (chunkBytes content i) s).1 = Some f'
    /\ partOf content (i :: written) f'.
Proof.
  intros HK H64 Hi Hlt Hfile (Hlen & Hends & Hagree).
  unfold QByteArray in *. unfold Session.writeChunk. rewrite Hfile.
  rewrite wrap64_small by (unfold INT64_MAX, sizeOf in *; lia).
  destruct (Z.ltb_spec (i * CHUNK_SIZE) 0); [lia|]. cbn [fst Session.m_file Session.with_file].
  eexists. split; [done|].
  set (o := Z.to_nat (i * CHUNK_SIZE)).
  set (d := chunkBytes content i).
  assert (length d = Z.to_nat (Z.min CHUNK_SIZE (sizeOf content - i * CHUNK_SIZE))) as Hd.
  { subst d. unfold chunkBytes, sizeOf. rewrite length_take, length_drop. lia. }
  assert (forall j, (o <= j < o + length d)%nat -> d !! (j - o)%nat = content !! j) as Hdata.
  { intros j Hj. subst d. unfold chunkBytes, QByteArray. fold o.
    rewrite lookup_take_lt by lia. rewrite lookup_drop. f_equal. lia. }
  assert (Z.of_nat o = i * CHUNK_SIZE) as Ho by (subst o; lia).
  clearbody d o.
  destruct (overwrite_facts f d o) as (Hlen' & Hin & Hbefore & Hafter).
  unfold partOf, sizeOf, QByteArray in *.
  split; [|split].
  - lia.
  - intros i' [->|Hi']%elem_of_cons.
    + lia.
    + specialize (Hends i' Hi'). lia.
  - intros j Hj Hchunk.
    destruct (decide (o <= j < o + length d)%nat) as [Hmid|Hout].
    { rewrite Hin by done. by apply Hdata. }
    assert (Z.of_nat j / CHUNK_SIZE ≠ i) as Hother.
    { intros Heq.
      pose proof (Z.mul_div_le (Z.of_nat j) CHUNK_SIZE HK).
      pose proof (Z.mul_succ_div_gt (Z.of_nat j) CHUNK_SIZE HK).
      rewrite Heq in *. lia. }
    apply elem_of_cons in Hchunk as [Heq|Hchunk]; [done|].
    pose proof (Hends _ Hchunk) as Hend.
    assert (j < length f)%nat as Hjf.
    { pose proof (Z.mul_succ_div_gt (Z.of_nat j) CHUNK_SIZE HK). lia. }
    destruct (decide (j < o)%nat).
    + rewrite Hbefore by done. by apply Hagree.
    + rewrite Hafter by lia. by apply Hagree.
Qed.

Lemma partOf_complete (content : QByteArray) (written : list Z) (f : QByteArray) :
  0 < CHUNK_SIZE ->
  (forall i, 0 <= i -> i * CHUNK_SIZE < sizeOf content -> i ∈ written) ->
  partOf content written f -> f = content.
Proof.
  intros HK Hall (Hlen & Hends & Hagree). unfold sizeOf, QByteArray in *.
  assert (length f = length content) as Heq.
  { destruct (decide (length content = 0)%nat) as [Hz|Hnz]; [lia|].
    set (l := (Z.of_nat (length content) - 1) / CHUNK_SIZE).
    pose proof (Z.mul_div_le (Z.of_nat (length content) - 1) CHUNK_SIZE HK).
    pose proof (Z.mul_succ_div_gt (Z.of_nat (length content) - 1) CHUNK_SIZE HK).
    assert (0 <= l) by (apply Z.div_pos; lia).
    specialize (Hends l (Hall l ltac:(done) ltac:(subst l; lia))). subst l. lia. }
  apply list_eq. intros j.
  destruct (decide (j < length f)%nat) as [Hj|Hj].
  - apply Hagree; [done|]. apply Hall; [apply Z.div_pos; lia|].
    pose proof (Z.mul_div_le (Z.of_nat j) CHUNK_SIZE HK). lia.
  - rewrite !lookup_ge_None_2 by lia. done.
Qed.

(** X4.  Writing with [writeChunk], into a file just opened for a
    download, the chunks that [readChunk] gives for a file leaves exactly
    that file's content, in whatever order the chunks are written and
    however often one is repeated, as long as every chunk of the file is
    written. *)
Theorem download_reassembles (source target : Session.t) (content : QByteArray)
    (order : list Z) :
  0 < CHUNK_SIZE <= INT_MAX ->
  Session.m_file source = Some content ->
  sizeOf content = fileSize (Session.m_request source) ->
  sizeOf content <= INT64_MAX ->
  Session.m_file target = Some [] ->
  Forall (fun i => 0 <= i <= INT_MAX /\ i * CHUNK_SIZE < sizeOf content) order ->
  (forall i, 0 <= i -> i * CHUNK_SIZE < sizeOf content -> i ∈ order) ->
  Session.m_file
    (writeChunks (map (fun i => (i, Session.readChunk i source)) order) target)
  = Some content.
Proof.
  intros HK Hsource Hsize H64 Htarget Horder Hall.
  assert (forall done todo t f,
            Forall (fun i => 0 <= i <= INT_MAX /\ i * CHUNK_SIZE < sizeOf content) todo ->
            Session.m_file t = Some f -> partOf content done f ->
            exists f', Session.m_file
                         (writeChunks (map (fun i => (i, Session.readChunk i source)) todo) t)
                       = Some f'
                       /\ partOf content (reverse todo ++ done) f') as Hrun.
  { intros done todo. revert done. induction todo as [|i todo IH]; intros done t f Htodo Ht Hpart.
    - exists f. by split.
    - apply Forall_cons in Htodo as [[Hi Hlt] Htodo]. cbn [map writeChunks foldl fst snd].
      rewrite (readChunk_inside source content i) by done.
      destruct (partOf_write content done f i t) as (f1 & Hf1 & Hpart1); try done; try lia.
      destruct (IH (i :: done) _ f1 Htodo Hf1 Hpart1) as (f' & Hf' & Hpart').
      exists f'. split; [exact Hf'|].
      by rewrite reverse_cons, <- app_assoc. }
  destruct (Hrun [] order target [] Horder Htarget) as (f' & Hf' & Hpart).
  { split; [cbn; lia|]. split; [by intros i Hi%elem_of_nil|]. cbn. lia. }
  rewrite Hf'. f_equal. apply (partOf_complete content (reverse order ++ [])); [lia| |done].
  intros i Hi Hlt. rewrite app_nil_r. apply elem_of_reverse. by apply Hall.
Qed.

End Reassembly.

(** The three chunks of [notes.txt] arriving as 2, 0, 1 and 0 again. *)
Lemma download_reassembles_witness :
  Session.m_file
    (@writeChunks Scenarios.chunk2
       (map (fun i => (i, @Session.readChunk Scenarios.chunk2 i Scenarios.reading))
          [2; 0; 1; 0])
       Scenarios.writing)
  = Some Examples.notes.
Proof.
  apply (@download_reassembles Scenarios.chunk2 Scenarios.reading Scenarios.writing
           Examples.notes [2; 0; 1; 0]).
  - unfold CHUNK_SIZE, Scenarios.chunk2, INT_MAX. lia.
  - reflexivity.
  - reflexivity.
  - vm_compute. discriminate.
  - reflexivity.
  - repeat constructor; vm_compute; (reflexivity || discriminate).
  - intros i Hi Hlt. unfold CHUNK_SIZE, Scenarios.chunk2 in Hlt.
    change (sizeOf Examples.notes) with 5 in Hlt. rewrite !elem_of_cons. lia.
Defined.

(** ** The worker's life cycle *)

Section WorkerFacts.
Context `{ChunkSize} `{Sha256}.
Import Worker.

Lemma stopped_step e w s :
  stopped w -> restarts e = false -> step e (w, s) = ((w, s), []).
Proof.
  intros (Hrun & Htimeout & Hretry) He.
  destruct e; try done; cbn;
    unfold onChunkAcknowledged, processReceivedChunk, checkCanContinue,
      onSessionStatusChanged, pauseTransfer, resumeTransfer, cancelTransfer;
    rewrite ?Hrun, ?Htimeout, ?Hretry; cbn; try done.
  - by destruct (m_isCancelled w).
  - by destruct status; rewrite ?Hrun.
Qed.

Lemma stopped_run es w s :
  stopped w -> forallb (fun e => negb (restarts e)) es = true ->
  run es (w, s) = ((w, s), []).
Proof.
  intros Hw. induction es as [|e es IH]; [done|]. cbn [forallb run].
  intros [He Hes]%andb_true_iff. apply negb_true_iff in He.
  by rewrite stopped_step, IH.
Qed.

(** X5.  [cancelTransfer] on a running worker stops it, flags it
    cancelled, sets the session to [Cancelled], closes the file and emits
    [transferCancelled] last; afterwards no acknowledgement, chunk, timer,
    status change, pause, resume or cancel changes the worker or the
    session or emits anything.  A worker that [completeTransfer] has
    finished is inert in the same way. *)
Theorem finished_worker_is_inert (w : Worker.t) (s : Session.t) (es : list Event) :
  m_isRunning w = true ->
  forallb (fun e => negb (restarts e)) es = true ->
  let cancelled := cancelTransfer (w, s) in
  let completed := completeTransfer (w, s) in
  (stopped cancelled.1.1 /\ m_isCancelled cancelled.1.1 = true
   /\ Session.m_status cancelled.1.2 = Cancelled
   /\ Session.m_file cancelled.1.2 = None
   /\ last cancelled.2 = Some transferCancelled
   /\ run es cancelled.1 = (cancelled.1, []))
  /\ (m_isCancelled w = false ->
      stopped completed.1.1 /\ run es completed.1 = (completed.1, [])).
Proof.
  intros Hrun Hes cancelled completed. split.
  - subst cancelled. unfold cancelTransfer. rewrite Hrun. cbn [negb].
    destruct (Session.setCancelled true s) as [s' sigs] eqn:Hs.
    assert (Session.m_status s' = Cancelled) as Hstatus.
    { unfold Session.setCancelled in Hs.
      pose proof (setStatus_status Cancelled
                    (Session.with_flags (Session.m_isPaused s) true s)) as Hset.
      by rewrite Hs in Hset. }
    cbn [fst snd]. repeat split; try done.
    + by rewrite last_snoc.
    + by apply stopped_run.
  - intros Hcancel. subst completed. unfold completeTransfer.
    rewrite Hrun, Hcancel. cbn [negb orb].
    repeat (match goal with
            | |- context [let '(_, _) := ?x in _] => destruct x
            | |- context [if ?b then _ else _] => destruct b
            end); cbn [fst snd]; (split; [done | by apply stopped_run]).
Qed.

(** X6.  [pauseTransfer] stops every timer and [resumeTransfer] restarts
    the progress timer only: after a pause and a resume the worker runs
    and is not paused, the session is [InProgress], but the chunk timeout
    and the retry timer are off, no chunk was sent or requested, and the
    slots of those two timers do nothing. *)
Theorem resume_leaves_timers_stopped (w : Worker.t) (s : Session.t) :
  m_isRunning w = true -> m_isPaused w = false ->
  let paused := pauseTransfer (w, s) in
  let resumed := resumeTransfer paused.1 in
  (m_isPaused paused.1.1 = true /\ m_progressTimer paused.1.1 = false
   /\ Session.m_status paused.1.2 = Paused)
  /\ m_isRunning resumed.1.1 = true /\ m_isPaused resumed.1.1 = false
  /\ m_progressTimer resumed.1.1 = true
  /\ m_chunkTimeoutTimer resumed.1.1 = false /\ m_retryTimer resumed.1.1 = false
  /\ Session.m_status resumed.1.2 = InProgress
  /\ forallb (fun sig => negb (transmits sig)) (paused.2 ++ resumed.2) = true
  /\ step ChunkTimeoutFires resumed.1 = (resumed.1, [])
  /\ step RetryTimerFires resumed.1 = (resumed.1, []).
Proof.
  intros Hrun Hpause. cbv zeta.
  destruct (Session.setPaused true s) as [s1 sigs1] eqn:Hs1.
  assert (pauseTransfer (w, s)
          = ((stopAllTimers (with_flags true true (m_isCancelled w) w), s1),
             liftSession sigs1)) as ->.
  { unfold pauseTransfer. by rewrite Hrun, Hpause, Hs1. }
  cbn [fst snd].
  destruct (Session.setPaused false s1) as [s2 sigs2] eqn:Hs2.
  assert (resumeTransfer (stopAllTimers (with_flags true true (m_isCancelled w) w), s1)
          = ((with_timers true false false (m_retryInterval w)
                (with_flags true false (m_isCancelled w) w), s2),
             liftSession sigs2)) as ->.
  { unfold resumeTransfer. cbn -[Session.setPaused]. by rewrite Hs2. }
  cbn [fst snd].
  assert (Session.m_status s1 = Paused) as Hstatus1.
  { unfold Session.setPaused in Hs1.
    pose proof (setStatus_status Paused (Session.with_flags true (Session.m_isCancelled s) s)).
    by rewrite Hs1 in *. }
  assert (Session.m_status s2 = InProgress) as Hstatus2.
  { unfold Session.setPaused in Hs2.
    pose proof (setStatus_status InProgress
                  (Session.with_flags false (Session.m_isCancelled s1) s1)).
    by rewrite Hs2 in *. }
  split; [done|]. do 6 (split; [done|]). split; [|by cbn].
  unfold liftSession. rewrite forallb_app.
  apply andb_true_iff. split; apply forallb_forall; by intros sig [? [<- _]]%in_map_iff.
Qed.

(** X7.  When the file cannot be opened, the worker's [startTransfer]
    emits [transferFailed] with the session's error and leaves the
    session's status as it was, but it has already set [m_isRunning]: every
    later [startTransfer] of this worker returns at once. *)
Theorem failed_start_blocks_restart (w : Worker.t) (s : Session.t) :
  m_isRunning w = false -> Session.m_file s = None ->
  let failed := startTransfer None (w, s) in
  failed.2 = [transferFailed (Session.m_error failed.1.2)]
  /\ m_isRunning failed.1.1 = true
  /\ m_progressTimer failed.1.1 = m_progressTimer w
  /\ Session.m_status failed.1.2 = Session.m_status s
  /\ forall onDisk, startTransfer onDisk failed.1 = (failed.1, []).
Proof.
  intros Hrun Hfile. cbv zeta.
  set (w' := with_failures ∅ ∅
               (with_counts (m_totalChunks w) 0 (m_completedChunkIndices w)
                  (with_current 0 (with_flags true false false w)))).
  set (s' := Session.with_error ("Failed to open file: " +:+ localPath (Session.m_request s)) s).
  assert (startTransfer None (w, s) = ((w', s'), [transferFailed (Session.m_error s')])) as ->.
  { unfold startTransfer. rewrite Hrun. unfold Session.openFile. by rewrite Hfile. }
  cbn [fst snd]. do 4 (split; [done|]). intros onDisk. done.
Qed.

(** X8.  An upload whose request gives a file size of zero or less has no
    chunks: starting its worker emits
    [transferFailed("Invalid upload session")], the session's status stays
    as it was and the worker stays marked as running. *)
Theorem empty_upload_fails (s : Session.t) (content : QByteArray) :
  type (Session.m_request s) = Upload ->
  fileSize (Session.m_request s) <= 0 ->
  Session.m_file s = None ->
  let r := startTransfer (Some content) (Worker.new s, s) in
  r.2 = [transferFailed "Invalid upload session"]
  /\ Session.m_status r.1.2 = Session.m_status s
  /\ m_isRunning r.1.1 = true.
Proof.
  intros Htype Hsize Hfile. cbv zeta.
  assert (m_totalChunks (Worker.new s) = 0) as Htotal.
  { cbn. unfold Session.totalChunksFor.
    by destruct (Z.ltb_spec 0 (fileSize (Session.m_request s))); [lia|]. }
  unfold startTransfer. cbn [new m_isRunning].
  unfold Session.openFile. rewrite Hfile, Htype.
  cbn [negb fst snd Session.with_file Session.m_request]. rewrite Htype.
  unfold processUpload.
  cbn [m_totalChunks with_timers with_failures with_counts with_current with_flags] in *.
  rewrite Htotal. by cbn.
Qed.

End WorkerFacts.

(** The worker of [notes.txt], cancelled while its chunk is on the wire. *)
Lemma finished_worker_is_inert_witness :
  let cancelled :=
    @Worker.cancelTransfer (Examples.sendingWorker, Examples.sendingSession) in
  Session.m_status cancelled.1.2 = Cancelled
  /\ @Worker.run Examples.chunk64k Examples.digest
       [Worker.Acknowledged 0; Worker.ChunkTimeoutFires; Worker.Resume] cancelled.1
     = (cancelled.1, []).
Proof.
  destruct (@finished_worker_is_inert Examples.chunk64k Examples.digest
              Examples.sendingWorker Examples.sendingSession
              [Worker.Acknowledged 0; Worker.ChunkTimeoutFires; Worker.Resume]
              ltac:(vm_compute; reflexivity) ltac:(reflexivity))
    as [(_ & _ & Hstatus & _ & _ & Hrun) _].
  split; [exact Hstatus | exact Hrun].
Defined.

(** The same worker, paused and resumed while its chunk is on the wire. *)
Lemma resume_leaves_timers_stopped_witness :
  let resumed :=
    @Worker.resumeTransfer
      (@Worker.pauseTransfer (Examples.sendingWorker, Examples.sendingSession)).1 in
  Worker.m_isRunning resumed.1.1 = true
  /\ Worker.m_chunkTimeoutTimer resumed.1.1 = false
  /\ Worker.m_chunkTimeoutTimer Examples.sendingWorker = true.
Proof.
  destruct (@resume_leaves_timers_stopped Examples.chunk64k Examples.digest
              Examples.sendingWorker Examples.sendingSession
              ltac:(vm_compute; reflexivity) ltac:(vm_compute; reflexivity))
    as (_ & Hrunning & _ & _ & Htimer & _).
  split; [exact Hrunning|]. split; [exact Htimer|]. vm_compute. reflexivity.
Defined.

(** A worker started while the file is missing, then again once it is there. *)
Lemma failed_start_blocks_restart_witness :
  let failed :=
    @Worker.startTransfer Scenarios.chunk2 Examples.digest None
      (@Worker.new Scenarios.chunk2 Scenarios.fresh, Scenarios.fresh) in
  Worker.m_isRunning failed.1.1 = true
  /\ @Worker.startTransfer Scenarios.chunk2 Examples.digest (Some Examples.notes) failed.1
     = (failed.1, []).
Proof.
  destruct (@failed_start_blocks_restart Scenarios.chunk2 Examples.digest
              (@Worker.new Scenarios.chunk2 Scenarios.fresh) Scenarios.fresh
              ltac:(reflexivity) ltac:(reflexivity))
    as (_ & Hrunning & _ & _ & Hignored).
  split; [exact Hrunning | exact (Hignored (Some Examples.notes))].
Defined.

(** An upload of an empty file. *)
Lemma empty_upload_fails_witness :
  (@Worker.startTransfer Scenarios.chunk2 Examples.digest (Some [])
     (@Worker.new Scenarios.chunk2 (@Session.new Scenarios.chunk2 Scenarios.emptyUpload),
      @Session.new Scenarios.chunk2 Scenarios.emptyUpload)).2
  = [Worker.transferFailed "Invalid upload session"].
Proof.
  apply (@empty_upload_fails Scenarios.chunk2 Examples.digest
           (@Session.new Scenarios.chunk2 Scenarios.emptyUpload) []).
  - reflexivity.
  - vm_compute. discriminate.
  - reflexivity.
Defined.

(** ** The completed counter *)

Section Tally.
Context `{ChunkSize} `{Sha256}.
Import Worker.

Lemma tally_completeTransfer st : tally (completeTransfer st).1.1 = tally st.1.
Proof. destruct st as [w s]. unfold completeTransfer. by break_worker. Qed.

Lemma tally_sendChunk i st : tally (sendChunk i st).1.1 = tally st.1.
Proof. destruct st as [w s]. unfold sendChunk. by break_worker. Qed.

Lemma tally_requestChunk i st : tally (requestChunk i st).1.1 = tally st.1.
Proof. destruct st as [w s]. unfold requestChunk. by break_worker. Qed.

Lemma tally_transmit i st : tally (transmit i st).1.1 = tally st.1.
Proof.
  unfold transmit. destruct (type _); auto using tally_sendChunk, tally_requestChunk.
Qed.

Lemma tally_processNextChunk st : tally (processNextChunk st).1.1 = tally st.1.
Proof.
  destruct st as [w s]. unfold processNextChunk.
  destruct (negb _); [done|]. destruct (_ <=? _); [apply tally_completeTransfer|].
  destruct (match firstFailed _ with Some i => _ | None => _ end);
    [by rewrite tally_transmit | apply tally_completeTransfer].
Qed.

Lemma tally_recordFailure i what st : tally (recordFailure i what st).1.1 = tally st.1.
Proof. destruct st as [w s]. unfold recordFailure. by break_worker. Qed.

Lemma tally_pauseTransfer st : tally (pauseTransfer st).1.1 = tally st.1.
Proof. destruct st as [w s]. unfold pauseTransfer. by break_worker. Qed.

Lemma tally_resumeTransfer st : tally (resumeTransfer st).1.1 = tally st.1.
Proof. destruct st as [w s]. unfold resumeTransfer. by break_worker. Qed.

Lemma tally_cancelTransfer st : tally (cancelTransfer st).1.1 = tally st.1.
Proof. destruct st as [w s]. unfold cancelTransfer. by break_worker. Qed.

Lemma tally_markCompleted i w s :
  tally (markCompleted i (w, s)).1.1
  = if decide (i ∈ m_completedChunkIndices w) then tally w
    else (wrap32 (m_completedChunks w + 1), {[i]} ∪ m_completedChunkIndices w).
Proof.
  unfold markCompleted. destruct (decide _); [done|].
  by destruct (Session.updateChunkProgress _ _).
Qed.

Lemma counted_markCompleted i w s :
  counted w -> Z.of_nat (size (m_completedChunkIndices w)) < INT_MAX ->
  let w' := (markCompleted i (w, s)).1.1 in
  counted w'
  /\ (size (m_completedChunkIndices w') <= S (size (m_completedChunkIndices w)))%nat.
Proof.
  intros Hw Hsize w'. pose proof (tally_markCompleted i w s) as Ht. fold w' in Ht.
  unfold counted, tally in *. destruct (decide (i ∈ m_completedChunkIndices w)) as [Hin|Hin].
  - injection Ht as -> ->. split; [done | lia].
  - injection Ht as -> ->. rewrite size_union by set_solver. rewrite size_singleton.
    rewrite Hw, wrap32_small by (unfold INT_MIN, INT_MAX in *; lia). split; lia.
Qed.

Lemma counted_tally w w' : tally w' = tally w -> counted w -> counted w'.
Proof. unfold tally, counted. intros [= -> ->]. done. Qed.

Lemma counted_step e w s :
  counted w -> Z.of_nat (size (m_completedChunkIndices w)) < INT_MAX ->
  restarts e = false ->
  let w' := (step e (w, s)).1.1 in
  counted w'
  /\ (size (m_completedChunkIndices w') <= S (size (m_completedChunkIndices w)))%nat.
Proof.
  intros Hw Hsize He w'.
  assert (forall w1 : Worker.t, tally w1 = tally w ->
            counted w1 /\ (size (m_completedChunkIndices w1)
                           <= S (size (m_completedChunkIndices w)))%nat) as Hsame.
  { intros w1 Ht. split; [by apply (counted_tally w)|].
    unfold tally in Ht. injection Ht as _ ->. lia. }
  subst w'. destruct e; try done; cbn [step].
  - destruct (m_chunkTimeoutTimer w); [|by apply Hsame].
    apply Hsame. unfold onChunkTimeout. destruct (_ || _); [done|].
    by rewrite tally_recordFailure.
  - destruct (m_retryTimer w); [|by apply Hsame].
    apply Hsame. unfold retryCurrentChunk. destruct (_ || _); [done|].
    by rewrite tally_transmit.
  - unfold onChunkAcknowledged. destruct (_ || _); [by apply Hsame|].
    set (w0 := if index =? m_currentChunkIndex w then stopChunkTimeout w else w).
    assert (tally w0 = tally w) as Hw0 by (subst w0; by destruct (_ =? _)).
    destruct (counted_markCompleted index w0 s) as [Hc Hs].
    { by apply (counted_tally w). }
    { unfold tally in Hw0. injection Hw0 as _ ->. done. }
    assert (m_completedChunkIndices w0 = m_completedChunkIndices w) as Hidx
      by (unfold tally in Hw0; by injection Hw0).
    rewrite Hidx in Hs.
    destruct (markCompleted index (w0, s)) as [[w1 s1] e1]. cbn [fst snd] in Hc, Hs.
    destruct (_ && _).
    + destruct (completeTransfer (w1, s1)) as [st e2] eqn:Hct.
      pose proof (tally_completeTransfer (w1, s1)) as Ht. rewrite Hct in Ht. cbn [fst snd] in *.
      split; [by apply (counted_tally w1)|].
      unfold tally in Ht. injection Ht as _ ->. done.
    + destruct (processNextChunk (forget index w1, s1)) as [st e2] eqn:Hnext.
      pose proof (tally_processNextChunk (forget index w1, s1)) as Ht.
      rewrite Hnext in Ht. cbn [fst snd] in *.
      split; [by apply (counted_tally w1)|].
      unfold tally in Ht. injection Ht as _ ->. done.
  - unfold processReceivedChunk. destruct (negb (checkCanContinue w)); [by apply Hsame|].
    destruct (negb (equalsCI _ _)); [apply Hsame; by rewrite tally_recordFailure|].
    destruct (Session.writeChunk _ _ _) as [s0 ok]. destruct (negb ok); [by apply Hsame|].
    destruct (counted_markCompleted (chunkIndex chunk) (stopChunkTimeout w) s0) as [Hc Hs];
      [done | done |].
    cbn [stopChunkTimeout with_timers m_completedChunkIndices] in Hs.
    destruct (markCompleted (chunkIndex chunk) (stopChunkTimeout w, s0)) as [[w1 s1] e1].
    cbn [fst snd] in Hc, Hs.
    set (w2 := if isLast chunk && (m_totalChunks (forget (chunkIndex chunk) w1) =? 0)
               then _ else _).
    assert (tally w2 = tally w1) as Hw2 by (subst w2; by destruct (_ && _)).
    destruct (isLast chunk && (_ <=? _)).
    + destruct (completeTransfer (w2, s1)) as [st e2] eqn:Hct.
      pose proof (tally_completeTransfer (w2, s1)) as Ht. rewrite Hct in Ht. cbn [fst snd] in *.
      rewrite Hw2 in Ht.
      split; [by apply (counted_tally w1)|].
      unfold tally in Ht. injection Ht as _ ->. done.
    + destruct (processNextChunk (w2, s1)) as [st e2] eqn:Hnext.
      pose proof (tally_processNextChunk (w2, s1)) as Ht.
      rewrite Hnext in Ht. cbn [fst snd] in *. rewrite Hw2 in Ht.
      split; [by apply (counted_tally w1)|].
      unfold tally in Ht. injection Ht as _ ->. done.
  - apply Hsame. unfold onSessionStatusChanged.
    destruct status;
      auto using tally_pauseTransfer, tally_resumeTransfer, tally_cancelTransfer.
  - apply Hsame, tally_pauseTransfer.
  - apply Hsame, tally_resumeTransfer.
  - apply Hsame, tally_cancelTransfer.
Qed.

Lemma run_cons e es st :
  run (e :: es) st = ((run es (step e st).1).1, (step e st).2 ++ (run es (step e st).1).2).
Proof.
  cbn [run]. destruct (step e st) as [st1 out1]. cbn [fst snd].
  by destruct (run es st1).
Qed.

Lemma counted_run es w s :
  counted w ->
  Z.of_nat (size (m_completedChunkIndices w)) + Z.of_nat (length es) <= INT_MAX ->
  forallb (fun e => negb (restarts e)) es = true ->
  counted (run es (w, s)).1.1.
Proof.
  revert w s. induction es as [|e es IH]; intros w s Hw Hsize Hes; [done|].
  cbn [forallb] in Hes. apply andb_true_iff in Hes as [He%negb_true_iff Hes].
  cbn [length] in Hsize.
  destruct (counted_step e w s Hw ltac:(lia) He) as [Hc Hs].
  rewrite run_cons. cbn [fst]. destruct (step e (w, s)) as [[w1 s1] out]. cbn [fst snd] in *.
  apply IH; [done | lia | done].
Qed.

(** X9.  From the start of a transfer and through any events that do not
    start the worker again, [m_completedChunks] is the number of distinct
    indices in [m_completedChunkIndices]; acknowledging an index that is
    already completed changes neither. *)
Theorem completed_count_is_exact (s : Session.t) (onDisk : option QByteArray)
    (es : list Event) :
  forallb (fun e => negb (restarts e)) es = true ->
  Z.of_nat (length es) <= INT_MAX ->
  let w := (run (ThreadStarted onDisk :: es) (Worker.new s, s)).1.1 in
  m_completedChunks w = Z.of_nat (size (m_completedChunkIndices w))
  /\ (forall i w0 s0,
        i ∈ m_completedChunkIndices w0 ->
        tally (onChunkAcknowledged i (w0, s0)).1.1 = tally w0).
Proof.
  intros Hes Hlen w. split.
  - subst w. rewrite run_cons. cbn [fst].
    assert (tally (step (ThreadStarted onDisk) (Worker.new s, s)).1.1 = (0, ∅)) as Hstart.
    { cbn [step]. unfold startTransfer. cbn [new m_isRunning].
      destruct (Session.openFile onDisk s) as [s1 ok]. destruct (negb ok); [done|].
      destruct (type _).
      - unfold processUpload. cbn [m_totalChunks with_timers with_failures with_counts
          with_current with_flags]. destruct (_ =? 0); [done|]. by rewrite tally_sendChunk.
      - unfold processDownload. by rewrite tally_requestChunk.
      - unfold processDownload. by rewrite tally_requestChunk. }
    destruct (step (ThreadStarted onDisk) (Worker.new s, s)) as [[w1 s1] out].
    cbn [fst snd] in *. unfold tally in Hstart. injection Hstart as Hc Hi.
    apply counted_run; [|rewrite Hi, size_empty; lia | done].
    unfold counted. by rewrite Hc, Hi, size_empty.
  - intros i w0 s0 Hin. unfold onChunkAcknowledged. destruct (_ || _); [done|].
    set (w1 := if i =? m_currentChunkIndex w0 then stopChunkTimeout w0 else w0).
    assert (tally w1 = tally w0) as Hw1 by (subst w1; by destruct (_ =? _)).
    assert (i ∈ m_completedChunkIndices w1) as Hin1.
    { unfold tally in Hw1. injection Hw1 as _ ->. done. }
    unfold markCompleted. destruct (decide (i ∈ m_completedChunkIndices w1)); [|done].
    rewrite bool_decide_eq_true_2 by done. cbn [negb andb].
    destruct (processNextChunk (forget i w1, s0)) as [st e2] eqn:Hnext.
    pose proof (tally_processNextChunk (forget i w1, s0)) as Ht.
    rewrite Hnext in Ht. cbn [fst snd] in *. by rewrite Ht.
Qed.

End Tally.

(** Chunk 0 acknowledged twice, then chunk 1. *)
Lemma completed_count_is_exact_witness :
  let w :=
    (@Worker.run Scenarios.chunk2 Examples.digest
       [Worker.ThreadStarted (Some Examples.notes);
        Worker.Acknowledged 0; Worker.Acknowledged 0; Worker.Acknowledged 1]
       (@Worker.new Scenarios.chunk2 Scenarios.fresh, Scenarios.fresh)).1.1 in
  Worker.m_completedChunks w = Z.of_nat (size (Worker.m_completedChunkIndices w))
  /\ Worker.m_completedChunks w = 2.
Proof.
  split; [|vm_compute; reflexivity].
  apply (@completed_count_is_exact Scenarios.chunk2 Examples.digest Scenarios.fresh
           (Some Examples.notes)
           [Worker.Acknowledged 0; Worker.Acknowledged 0; Worker.Acknowledged 1]).
  - reflexivity.
  - vm_compute. discriminate.
Defined.

(** ** An acknowledged upload *)

Lemma firstUnprocessed_least (done : gset Z) (from k : Z) (fuel : nat) :
  from <= k < from + Z.of_nat fuel ->
  (forall j, from <= j < k -> j ∈ done) -> k ∉ done ->
  Worker.firstUnprocessed done from fuel = Some k.
Proof.
  revert from. induction fuel as [|fuel IH]; intros from Hk Hdone Hnot; [lia|].
  cbn [Worker.firstUnprocessed]. destruct (decide (from ∈ done)) as [Hin|Hin].
  - assert (from ≠ k) by (by intros ->). apply IH; [lia| |done].
    intros j Hj. apply Hdone. lia.
  - destruct (decide (from = k)) as [->|]; [done|]. exfalso. apply Hin, Hdone. lia.
Qed.

Lemma firstUnprocessed_none (done : gset Z) (from : Z) (fuel : nat) :
  (forall j, from <= j < from + Z.of_nat fuel -> j ∈ done) ->
  Worker.firstUnprocessed done from fuel = None.
Proof.
  revert from. induction fuel as [|fuel IH]; intros from Hdone; [done|].
  cbn [Worker.firstUnprocessed]. destruct (decide (from ∈ done)) as [Hin|Hin].
  - apply IH. intros j Hj. apply Hdone. lia.
  - exfalso. apply Hin, Hdone. lia.
Qed.

Lemma firstFailed_empty : Worker.firstFailed ∅ = None.
Proof. unfold Worker.firstFailed. by rewrite elements_empty. Qed.

Section Upload.
Context `{ChunkSize} `{Sha256}.
Import Worker.

Variable request : FileTransferRequest.
Variable content : QByteArray.

Hypothesis HK : 0 < CHUNK_SIZE <= INT_MAX.
Hypothesis Htype : type request = Upload.
Hypothesis Hsize : fileSize request = sizeOf content.
Hypothesis Hpos : 0 < sizeOf content.
Hypothesis H64 : sizeOf content + CHUNK_SIZE <= INT64_MAX.
Hypothesis H32 : (sizeOf content + CHUNK_SIZE - 1) / CHUNK_SIZE <= INT_MAX.

Let n := Session.totalChunksFor (fileSize request).

Lemma upload_count :
  n = (sizeOf content + CHUNK_SIZE - 1) / CHUNK_SIZE
  /\ 1 <= n <= INT_MAX
  /\ (forall i, 0 <= i -> (i < n <-> i * CHUNK_SIZE < sizeOf content)).
Proof.
  subst n. rewrite Hsize, totalChunksFor_exact by lia.
  assert (((sizeOf content + CHUNK_SIZE - 1) / CHUNK_SIZE - 1) * CHUNK_SIZE
          < sizeOf content
          <= (sizeOf content + CHUNK_SIZE - 1) / CHUNK_SIZE * CHUNK_SIZE) as Hceil
    by (apply ceiling_bounds; lia).
  split; [done|]. split; [split; [nia|done]|]. intros i Hi. split; nia.
Qed.

(** Sending chunk [i] of the file. *)
Lemma sendChunk_upload (k i : Z) (w : Worker.t) (s : Session.t) :
  m_isRunning w = true -> m_isPaused w = false -> m_isCancelled w = false ->
  m_totalChunks w = n ->
  Session.m_file s = Some content -> Session.m_request s = request ->
  0 <= i < n ->
  sendChunk i (w, s)
  = ((startChunkTimeout (with_current i w), s), [chunkReady (chunkAt request content i)]).
Proof.
  intros Hrun Hpause Hcancel Htotal Hfile Hreq Hi.
  destruct upload_count as (Hn & Hrange & Hlt).
  unfold sendChunk, checkCanContinue. rewrite Hrun, Hpause, Hcancel. cbn [negb orb].
  assert (i * CHUNK_SIZE < sizeOf content) as Hin by (apply Hlt; lia).
  assert (Session.readChunk i s = chunkBytes content i) as Hread.
  { apply readChunk_inside; try done; [by rewrite Hreq | unfold INT64_MAX in *; lia | lia]. }
  assert (sizeOf (Session.readChunk i s)
          = Z.min CHUNK_SIZE (sizeOf content - i * CHUNK_SIZE)) as Hlen.
  { rewrite Hread. apply chunkBytes_size; lia. }
  destruct (Z.eqb_spec (sizeOf (Session.readChunk i s)) 0) as [Hz|_]; [lia|]. cbn [andb].
  rewrite Hreq, Htotal. unfold chunkAt. fold n. do 4 f_equal.
  - rewrite Hread. destruct (Z.leb_spec 0 i); [|lia].
    by destruct (Z.ltb_spec (i * CHUNK_SIZE) (sizeOf content)); [|lia].
  - rewrite Hread. destruct (Z.leb_spec 0 i); [|lia].
    by destruct (Z.ltb_spec (i * CHUNK_SIZE) (sizeOf content)); [|lia].
Qed.


Lemma updateChunkProgress_keeps (c : Z) (s : Session.t) :
  Session.m_file (Session.updateChunkProgress c s).1 = Session.m_file s
  /\ Session.m_request (Session.updateChunkProgress c s).1 = Session.m_request s
  /\ Session.m_status (Session.updateChunkProgress c s).1 = Session.m_status s
  /\ sentChunks (liftSession (Session.updateChunkProgress c s).2) = [].
Proof. done. Qed.

(** The thread starts: the file is opened and chunk 0 goes out. *)
Lemma upload_started (s : Session.t) :
  Session.m_request s = request -> Session.m_file s = None ->
  let r := startTransfer (Some content) (Worker.new s, s) in
  uploading request content n 0 r.1
  /\ r.2 = [chunkReady (chunkAt request content 0)].
Proof.
  intros Hreq Hfile. cbv zeta.
  destruct upload_count as (Hn & Hrange & Hlt).
  unfold startTransfer. cbn [new m_isRunning].
  unfold Session.openFile. rewrite Hfile, Hreq, Htype.
  cbn [negb fst snd Session.with_file Session.m_request]. rewrite Hreq, Htype.
  unfold processUpload.
  cbn [new m_totalChunks with_timers with_failures with_counts with_current with_flags].
  rewrite Hreq. fold n. destruct (Z.eqb_spec n 0); [lia|].
  rewrite (sendChunk_upload 0 0); try done; try lia.
  cbn [fst snd]. split; [|done]. unfold uploading. cbn.
  split_and!; try done; try lia. intros j. rewrite elem_of_empty. lia.
Qed.

(** What [onChunkAcknowledged] does with a chunk that is not yet
    completed. *)
Lemma onChunkAcknowledged_fresh (i : Z) (w : Worker.t) (s : Session.t) :
  m_isRunning w = true -> m_isCancelled w = false ->
  i ∉ m_completedChunkIndices w ->
  let w0 := if i =? m_currentChunkIndex w then stopChunkTimeout w else w in
  let c := wrap32 (m_completedChunks w + 1) in
  let w1 := with_counts (m_totalChunks w) c ({[i]} ∪ m_completedChunkIndices w) w0 in
  let su := Session.updateChunkProgress c s in
  let r := if m_totalChunks w <=? c then completeTransfer (w1, su.1)
           else processNextChunk (forget i w1, su.1) in
  onChunkAcknowledged i (w, s) = (r.1, liftSession su.2 ++ r.2).
Proof.
  intros Hrun Hcancel Hfresh. cbv zeta.
  unfold onChunkAcknowledged. rewrite Hrun, Hcancel. cbn [negb orb].
  set (w0 := if i =? m_currentChunkIndex w then stopChunkTimeout w else w).
  assert (m_completedChunkIndices w0 = m_completedChunkIndices w
          /\ m_completedChunks w0 = m_completedChunks w
          /\ m_totalChunks w0 = m_totalChunks w) as (Hi0 & Hc0 & Ht0)
    by (subst w0; by destruct (_ =? _)).
  rewrite Hi0, bool_decide_eq_false_2 by done. cbn [negb andb].
  unfold markCompleted. rewrite Hi0. destruct (decide (i ∈ _)); [done|].
  rewrite Hc0, Ht0.
  destruct (Session.updateChunkProgress (wrap32 (m_completedChunks w + 1)) s)
    as [s1 sigs1]. cbn [fst snd m_totalChunks m_completedChunks with_counts].
  destruct (_ <=? _).
  - by destruct (completeTransfer _).
  - by destruct (processNextChunk _).
Qed.

(** Chunk [k] is acknowledged and is not the last: chunk [k + 1] goes
    out. *)
Lemma upload_acknowledged (k : Z) (st : Worker.state) :
  uploading request content n k st -> 0 <= k -> k + 1 < n ->
  let r := onChunkAcknowledged k st in
  uploading request content n (k + 1) r.1
  /\ sentChunks r.2 = [chunkAt request content (k + 1)].
Proof.
  destruct st as [w s].
  intros (Hrun & Hpause & Hcancel & Hcur & Htotal & Hdone & Hidx & Hfailed & Hfile & Hreq)
    Hk Hlast. cbn [fst snd] in *. cbv zeta.
  destruct upload_count as (Hn & Hrange & Hlt).
  assert (k ∉ m_completedChunkIndices w) as Hfresh by (rewrite Hidx; lia).
  rewrite onChunkAcknowledged_fresh by done.
  rewrite Hcur, Z.eqb_refl, Hdone, Htotal.
  rewrite wrap32_small by (unfold INT_MIN, INT_MAX in *; lia).
  destruct (Z.leb_spec n (k + 1)); [lia|].
  destruct (updateChunkProgress_keeps (k + 1) s) as (Hf1 & Hr1 & _ & Hout1).
  set (s1 := (Session.updateChunkProgress (k + 1) s).1) in *.
  set (w1 := with_counts n (k + 1) ({[k]} ∪ m_completedChunkIndices w) (stopChunkTimeout w)).
  assert (processNextChunk (forget k w1, s1)
          = ((startChunkTimeout (with_current (k + 1) (with_current (k + 1) (forget k w1))),
              s1),
             [chunkReady (chunkAt request content (k + 1))])) as ->.
  { unfold processNextChunk, checkCanContinue. subst w1.
    cbn [forget with_failures with_counts with_timers stopChunkTimeout
           m_isCancelled m_isRunning m_isPaused m_retryTimer m_retryInterval
           m_progressTimer m_chunkTimeoutTimer m_chunkRetries
           m_totalChunks m_completedChunks m_failedChunks m_completedChunkIndices].
    rewrite Hrun, Hpause, Hcancel. cbn [negb orb].
    destruct (Z.leb_spec n (k + 1)); [lia|].
    rewrite Hfailed.
    rewrite difference_disjoint_L by apply disjoint_empty_l.
    rewrite firstFailed_empty.
    rewrite (firstUnprocessed_least _ 0 (k + 1)); [|lia| |].
    2: { intros j Hj. destruct (decide (j = k)) as [->|].
         - by apply elem_of_union_l, elem_of_singleton.
         - apply elem_of_union_r, Hidx. lia. }
    2: { intros [Hin%elem_of_singleton|Hin%Hidx]%elem_of_union; lia. }
    unfold transmit. cbn [snd]. rewrite Hr1, Hreq, Htype.
    rewrite (sendChunk_upload k (k + 1)); try done; try lia; congruence. }
  cbn [fst snd]. split.
  - unfold uploading. cbn. split_and!; try done; try congruence.
    + intros j. rewrite elem_of_union, elem_of_singleton, Hidx. lia.
    + rewrite Hfailed. apply difference_disjoint_L, disjoint_empty_l.
  - unfold sentChunks in *. rewrite omap_app, Hout1. done.
Qed.

(** The last chunk is acknowledged: the transfer completes. *)
Lemma upload_completed (st : Worker.state) :
  uploading request content n (n - 1) st ->
  let r := onChunkAcknowledged (n - 1) st in
  sentChunks r.2 = [] /\ last r.2 = Some transferCompleted
  /\ Session.m_status r.1.2 = Completed /\ Session.m_file r.1.2 = None
  /\ m_isRunning r.1.1 = false /\ m_completedChunks r.1.1 = n.
Proof.
  destruct st as [w s].
  intros (Hrun & Hpause & Hcancel & Hcur & Htotal & Hdone & Hidx & Hfailed & Hfile & Hreq).
  cbn [fst snd] in *. cbv zeta.
  destruct upload_count as (Hn & Hrange & Hlt).
  assert (n - 1 ∉ m_completedChunkIndices w) as Hfresh by (rewrite Hidx; lia).
  rewrite onChunkAcknowledged_fresh by done.
  rewrite Hcur, Z.eqb_refl, Hdone, Htotal.
  replace (n - 1 + 1) with n by lia.
  rewrite wrap32_small by (unfold INT_MIN, INT_MAX in *; lia).
  rewrite Z.leb_refl.
  destruct (updateChunkProgress_keeps n s) as (Hf1 & Hr1 & _ & Hout1).
  set (s1 := (Session.updateChunkProgress n s).1) in *.
  set (w1 := with_counts n n ({[n - 1]} ∪ m_completedChunkIndices w) (stopChunkTimeout w)).
  set (done := Session.setStatus Completed (Session.closeFile s1)).
  assert (completeTransfer (w1, s1)
          = ((stopAllTimers (with_flags false false false w1), done.1),
             liftSession done.2 ++ [transferCompleted])) as ->.
  { unfold completeTransfer. subst w1.
    cbn [with_counts with_timers stopChunkTimeout m_isCancelled m_isRunning m_isPaused].
    rewrite Hrun, Hcancel, Hpause, Hr1, Hreq, Htype. cbn [negb orb]. fold done.
    by destruct done. }
  pose proof (setStatus_status Completed (Session.closeFile s1)) as Hstatus.
  assert (Session.m_file done.1 = None /\ sentChunks (liftSession done.2) = [])
    as [Hclosed Hquiet].
  { subst done. unfold Session.setStatus. by destruct (decide _). }
  cbn [fst snd]. repeat split; try done.
  - unfold sentChunks in *. by rewrite !omap_app, Hout1, Hquiet.
  - by rewrite app_assoc, last_snoc.
Qed.

(** Acknowledging chunks [k], [k + 1], ..., [n - 1] in turn. *)
Lemma upload_run (m : nat) (k : Z) (st : Worker.state) :
  uploading request content n k st -> 0 <= k -> k + Z.of_nat (S m) = n ->
  let r := run (map Acknowledged (seqZ k (Z.of_nat (S m)))) st in
  sentChunks r.2 = map (chunkAt request content) (seqZ (k + 1) (Z.of_nat m))
  /\ last r.2 = Some transferCompleted
  /\ Session.m_status r.1.2 = Completed /\ Session.m_file r.1.2 = None
  /\ m_isRunning r.1.1 = false /\ m_completedChunks r.1.1 = n.
Proof.
  revert k st. induction m as [|m IH]; intros k st Hst Hk Hn; cbv zeta.
  - change (seqZ k (Z.of_nat 1)) with [k]. cbn [map].
    rewrite run_cons. cbn [run fst snd step]. rewrite app_nil_r.
    replace k with (n - 1) in * by lia.
    destruct st as [w s]. by apply upload_completed.
  - rewrite seqZ_cons by lia. cbn [map]. rewrite run_cons. cbn [fst snd].
    destruct st as [w s]. cbn [step].
    destruct (upload_acknowledged k (w, s) Hst Hk ltac:(lia)) as [Hnext Hout].
    replace (Z.pred (Z.of_nat (S (S m)))) with (Z.of_nat (S m)) by lia.
    destruct (IH (k + 1) (onChunkAcknowledged k (w, s)).1 Hnext ltac:(lia) ltac:(lia))
      as (Hsent & Hlast & Hrest).
    change (Z.succ k) with (k + 1).
    split; [|split; [|exact Hrest]].
    + unfold sentChunks in *. rewrite omap_app, Hout, Hsent.
      rewrite (seqZ_cons (k + 1)) by lia. cbn [map app]. do 3 f_equal; lia.
    + rewrite last_app, Hlast. done.
Qed.

(** X10.  An upload of a non-empty file whose chunks are acknowledged one
    after the other sends exactly the chunks [0 .. n - 1], each with its
    slice of the file, the SHA-256 of the slice and the last flag on chunk
    [n - 1] only; the payloads concatenate to the file.  It ends with
    [transferCompleted]: the session is [Completed], the file is closed,
    the worker has stopped and counts [n] completed chunks. *)
Theorem acknowledged_upload_completes (s : Session.t) :
  Session.m_request s = request -> Session.m_file s = None ->
  let r := run (ThreadStarted (Some content) :: map Acknowledged (seqZ 0 n))
             (Worker.new s, s) in
  sentChunks r.2 = map (chunkAt request content) (seqZ 0 n)
  /\ concat (map data (sentChunks r.2)) = content
  /\ last r.2 = Some transferCompleted
  /\ Session.m_status r.1.2 = Completed /\ Session.m_file r.1.2 = None
  /\ m_isRunning r.1.1 = false /\ m_completedChunks r.1.1 = n.
Proof.
  intros Hreq Hfile. cbv zeta.
  destruct upload_count as (Hn & Hrange & Hlt).
  rewrite run_cons. cbn [step fst snd].
  destruct (upload_started s Hreq Hfile) as [Hst Hout].
  destruct (upload_run (Z.to_nat (n - 1)) 0 _ Hst ltac:(lia) ltac:(lia))
    as (Hsent & Hlast & Hrest).
  replace (Z.of_nat (S (Z.to_nat (n - 1)))) with n in * by lia.
  replace (Z.of_nat (Z.to_nat (n - 1))) with (n - 1) in * by lia.
  assert (sentChunks
            ((startTransfer (Some content) (new s, s)).2
             ++ (run (map Acknowledged (seqZ 0 n))
                   (startTransfer (Some content) (new s, s)).1).2)
          = map (chunkAt request content) (seqZ 0 n)) as Hall.
  { unfold sentChunks in *. rewrite omap_app, Hout, Hsent.
    rewrite (seqZ_cons 0 n) by lia. cbn [omap map app]. do 3 f_equal; lia. }
  split; [done|]. split; [|split; [|exact Hrest]].
  - rewrite Hall, map_map. cbn [chunkAt data].
    (* the slices cover the content *)
    assert (sizeOf content <= n * CHUNK_SIZE) as Hcover.
    { destruct (Z.le_gt_cases (sizeOf content) (n * CHUNK_SIZE)) as [|Hgt]; [done|].
      apply Hlt in Hgt; lia. }
    etransitivity;
      [|apply (slices_cover (Z.to_nat CHUNK_SIZE) (Z.to_nat n) content);
        [lia | unfold sizeOf in *; apply Nat2Z.inj_le;
               rewrite Nat2Z.inj_mul, !Z2Nat.id by lia; lia]].
    f_equal. unfold seqZ. rewrite map_map. apply map_ext. intros i.
    unfold chunkBytes. do 2 f_equal. lia.
  - rewrite last_app, Hlast. done.
Qed.

End Upload.

(** [notes.txt] uploaded in chunks of two bytes. *)
Lemma acknowledged_upload_completes_witness :
  let r :=
    @Worker.run Scenarios.chunk2 Examples.digest
      [Worker.ThreadStarted (Some Examples.notes);
       Worker.Acknowledged 0; Worker.Acknowledged 1; Worker.Acknowledged 2]
      (@Worker.new Scenarios.chunk2 Scenarios.fresh, Scenarios.fresh) in
  map data (sentChunks r.2) = [[x68; x65]; [x6c; x6c]; [x6f]]
  /\ Session.m_status r.1.2 = Completed.
Proof.
  destruct (@acknowledged_upload_completes Scenarios.chunk2 Examples.digest
              Scenarios.notesUpload Examples.notes
              ltac:(unfold CHUNK_SIZE, Scenarios.chunk2, INT_MAX; lia)
              ltac:(reflexivity) ltac:(reflexivity) ltac:(vm_compute; reflexivity)
              ltac:(vm_compute; discriminate) ltac:(vm_compute; discriminate)
              Scenarios.fresh ltac:(reflexivity) ltac:(reflexivity))
    as (Hsent & _ & _ & Hstatus & _).
  split; [|exact Hstatus].
  cbv zeta. etransitivity; [exact (f_equal (map data) Hsent)|]. vm_compute. reflexivity.
Defined.

(** ** Allowed extensions *)

Lemma contains_elem_of (l : list string) (s : string) : contains l s = true <-> s ∈ l.
Proof.
  unfold contains. rewrite existsb_exists. split.
  - intros (x & Hx%list_elem_of_In & ->%String.eqb_eq). done.
  - intros Hs. exists s. split; [by apply list_elem_of_In | apply String.eqb_refl].
Qed.

Lemma filter_keeps_all {A} (P : A -> Prop) `{forall x, Decision (P x)} (l : list A) :
  Forall P l -> filter P l = l.
Proof.
  induction 1 as [|x l Hx Hl IH]; [done|]. by rewrite filter_cons_True, IH.
Qed.

Lemma contains_false (l : list string) (s : string) : contains l s = false <-> s ∉ l.
Proof. rewrite <- contains_elem_of. by destruct (contains l s). Qed.

Lemma lowerChar_idempotent c : lowerChar (lowerChar c) = lowerChar c.
Proof. by destruct c as [[] [] [] [] [] [] [] []]. Qed.

Lemma toLower_idempotent s : toLower (toLower s) = toLower s.
Proof. induction s as [|c s IH]; [done|]. cbn. by rewrite lowerChar_idempotent, IH. Qed.

Lemma startsWith_empty s : startsWith s EmptyString = true.
Proof. by destruct s. Qed.

Lemma startsWith_dot_toLower s : startsWith (toLower s) "." = startsWith s ".".
Proof.
  destruct s as [|c s]; [done|].
  destruct c as [[] [] [] [] [] [] [] []]; cbn; by rewrite ?startsWith_empty.
Qed.

Lemma normalizeExtension_idempotent e :
  normalizeExtension (normalizeExtension e) = normalizeExtension e.
Proof.
  unfold normalizeExtension. cbv zeta.
  destruct (startsWith (toLower e) ".") eqn:Hdot.
  - by rewrite toLower_idempotent, Hdot.
  - change (toLower ("." +:+ toLower e)) with ("." +:+ toLower (toLower e)).
    rewrite toLower_idempotent.
    change ("." +:+ toLower e) with (String "."%char (toLower e)).
    cbn [startsWith]. change (Ascii.eqb "." ".") with true. cbv iota.
    by rewrite startsWith_empty.
Qed.

(** X11.  [addAllowedFileExtension] normalises its argument (lower case,
    leading dot) and makes the normalised extension allowed: it is in the
    list afterwards, no other extension is added or lost, a file with that
    suffix is allowed, adding it again or adding the normalised form gives
    the same controller, and a list without duplicates stays so. *)
Theorem addAllowedFileExtension_spec (extension : string) (m : Manager.t) :
  let ext := normalizeExtension extension in
  let m' := addAllowedFileExtension extension m in
  contains (m_allowedExtensions m') ext = true
  /\ (forall x, x ≠ ext ->
        contains (m_allowedExtensions m') x = contains (m_allowedExtensions m) x)
  /\ (forall path, "." +:+ toLower (suffix path) = ext ->
        isFileExtensionAllowed path m' = true)
  /\ addAllowedFileExtension extension m' = m'
  /\ addAllowedFileExtension ext m = m'
  /\ (NoDup (m_allowedExtensions m) -> NoDup (m_allowedExtensions m')).
Proof.
  intros ext m'.
  assert (m_allowedExtensions m'
          = if contains (m_allowedExtensions m) ext then m_allowedExtensions m
            else m_allowedExtensions m ++ [ext]) as Hlist.
  { subst m'. unfold addAllowedFileExtension. fold ext. by destruct (contains _ ext). }
  assert (contains (m_allowedExtensions m') ext = true) as Hin.
  { rewrite Hlist. destruct (contains (m_allowedExtensions m) ext) eqn:Hc; [done|].
    apply contains_elem_of, elem_of_app. right. by apply list_elem_of_singleton. }
  split; [done|]. split; [|split; [|split; [|split]]].
  - intros x Hx. rewrite Hlist. destruct (contains (m_allowedExtensions m) ext); [done|].
    unfold contains. rewrite existsb_app. cbn.
    rewrite (proj2 (String.eqb_neq x ext) Hx). by rewrite !orb_false_r.
  - intros path Hpath. unfold isFileExtensionAllowed. by rewrite Hpath.
  - unfold addAllowedFileExtension at 1. fold ext. by rewrite Hin.
  - subst m' ext. unfold addAllowedFileExtension.
    by rewrite normalizeExtension_idempotent.
  - intros Hnodup. rewrite Hlist.
    destruct (contains (m_allowedExtensions m) ext) eqn:Hc; [done|].
    apply NoDup_app. split; [done|]. split; [|apply NoDup_singleton].
    intros x Hx ->%list_elem_of_singleton. by apply contains_false in Hc.
Qed.

(** X12.  [removeAllowedFileExtension] removes the normalised extension:
    it is not in the list afterwards, every other extension stays as it
    was, a file with that suffix is no longer allowed, removing it again
    changes nothing, and removing an extension just added to a list that
    did not have it gives the list back. *)
Theorem removeAllowedFileExtension_spec (extension : string) (m : Manager.t) :
  let ext := normalizeExtension extension in
  let m' := removeAllowedFileExtension extension m in
  contains (m_allowedExtensions m') ext = false
  /\ (forall x, x ≠ ext ->
        contains (m_allowedExtensions m') x = contains (m_allowedExtensions m) x)
  /\ (forall path, "." +:+ toLower (suffix path) = ext ->
        isFileExtensionAllowed path m' = false)
  /\ removeAllowedFileExtension extension m' = m'
  /\ (contains (m_allowedExtensions m) ext = false ->
      m_allowedExtensions
        (removeAllowedFileExtension extension (addAllowedFileExtension extension m))
      = m_allowedExtensions m).
Proof.
  intros ext m'.
  assert (m_allowedExtensions m' = filter (fun e => e ≠ ext) (m_allowedExtensions m))
    as Hlist.
  { subst m'. unfold removeAllowedFileExtension. fold ext.
    destruct (contains _ ext) eqn:Hc; [done|].
    apply contains_false in Hc. symmetry. apply filter_keeps_all, Forall_forall.
    by intros x Hx ->. }
  assert (contains (m_allowedExtensions m') ext = false) as Hout.
  { apply contains_false. rewrite Hlist. by intros [? _]%list_elem_of_filter. }
  split; [done|]. split; [|split; [|split]].
  - intros x Hx. rewrite Hlist.
    destruct (contains (m_allowedExtensions m) x) eqn:Hc.
    + apply contains_elem_of, list_elem_of_filter. split; [done|].
      by apply contains_elem_of.
    + apply contains_false. intros [_ Hin]%list_elem_of_filter.
      by apply contains_false in Hc.
  - intros path Hpath. unfold isFileExtensionAllowed. by rewrite Hpath.
  - unfold removeAllowedFileExtension at 1. fold ext. by rewrite Hout.
  - intros Hc. unfold removeAllowedFileExtension, addAllowedFileExtension. fold ext.
    rewrite Hc. cbn [m_allowedExtensions saveSettings with_policy].
    assert (contains (m_allowedExtensions m ++ [ext]) ext = true) as ->.
    { apply contains_elem_of, elem_of_app. right. by apply list_elem_of_singleton. }
    cbn [m_allowedExtensions saveSettings with_policy].
    rewrite filter_app. rewrite filter_cons_False by (by intros ?).
    rewrite filter_nil, app_nil_r.
    apply contains_false in Hc. apply filter_keeps_all, Forall_forall.
    by intros x Hx ->.
Qed.

(** ** Settings and the approval prompt *)

Lemma dialog_step_unapproved e d :
  approves e = false -> Dialog.m_approved d = false ->
  Dialog.m_approved (Dialog.step e d) = false.
Proof.
  intros He Hd. unfold Dialog.step. destruct (Dialog.finished d); [done|].
  destruct e; try done; cbn.
  - by destruct control.
  - by destruct (Dialog.m_rememberVisible d).
  - by destruct (Dialog.m_timeoutTimer d).
  - destruct (Dialog.m_displayTimer d); [|done].
    unfold Dialog.updateTimeoutDisplay. by destruct (_ <=? 0).
Qed.

(** X14.  A prompt is approved only by its Approve button or by
    Ctrl+Return: whatever else happens to it (Return, Escape, closing the
    window, typing, the check box, the timers), it is not approved, and
    the decision the controller announces for it is a rejection. *)
Theorem approval_needs_explicit_action (d : Dialog.t) (es : list Dialog.Event)
    (m : Manager.t) :
  Dialog.m_approved d = false ->
  forallb (fun e => negb (approves e)) es = true ->
  Dialog.isApproved (Dialog.run es d) = false
  /\ Forall (fun decision => decision.1.2 = false)
       (decisions (onApprovalDialogFinished (Dialog.run es d) m).2).
Proof.
  intros Hd Hes.
  assert (Dialog.isApproved (Dialog.run es d) = false) as Hno.
  { revert d Hd. induction es as [|e es IH]; intros d Hd; [done|].
    cbn [forallb] in Hes. apply andb_true_iff in Hes as [He%negb_true_iff Hes].
    rewrite dialog_run_cons. apply IH; [done|]. by apply dialog_step_unapproved. }
  split; [done|]. unfold onApprovalDialogFinished. rewrite Hno.
  match goal with |- context [processApprovalDecision ?t ?a ?msg ?m0] =>
    destruct (processApprovalDecision_out t a msg m0) as (-> & _) end.
  by repeat constructor.
Qed.

(** The dialog [showApprovalDialog] puts on screen when remembering is
    switched off: its check box is hidden and stays unchecked. *)
Lemma dialog_step_hidden e d :
  Dialog.m_rememberVisible d = false -> Dialog.m_rememberChecked d = false ->
  Dialog.m_rememberVisible (Dialog.step e d) = false
  /\ Dialog.m_rememberChecked (Dialog.step e d) = false.
Proof.
  intros Hv Hc. unfold Dialog.step. destruct (Dialog.finished d); [done|].
  destruct e; try done; cbn; rewrite ?Hv; try done.
  - by destruct control.
  - by destruct (Dialog.m_timeoutTimer d).
  - destruct (Dialog.m_displayTimer d); [|done].
    unfold Dialog.updateTimeoutDisplay. by destruct (_ <=? 0).
Qed.

(** X15.  With [rememberDecisionEnabled] off, whatever the user does
    with the prompt that [showApprovalDialog] shows, toggling the check
    box included, the dialog does not ask to remember the decision, and
    handling its result leaves the remembered decisions and the stored
    settings as they were. *)
Theorem remember_disabled_saves_nothing (m : Manager.t) (request : FileTransferRequest)
    (d : Dialog.t) (es : list Dialog.Event) :
  m_rememberDecisionEnabled m = false ->
  showApprovalDialog request m = (m, [showDialog d]) ->
  let r := onApprovalDialogFinished (Dialog.run es d) m in
  Dialog.shouldRememberDecision (Dialog.run es d) = false
  /\ m_rememberedDecisions r.1 = m_rememberedDecisions m
  /\ m_settings r.1 = m_settings m.
Proof.
  intros Hoff Hshow. cbv zeta.
  assert (Dialog.m_rememberVisible d = false /\ Dialog.m_rememberChecked d = false)
    as [Hv Hc].
  { unfold showApprovalDialog in Hshow. rewrite Hoff in Hshow.
    injection Hshow as <-. cbn. split; [done|].
    destruct (0 <? m_approvalTimeout m); [|done].
    unfold Dialog.setAutoTimeout. destruct (0 <? m_approvalTimeout m); [|done].
    unfold Dialog.updateTimeoutDisplay. by destruct (_ <=? 0). }
  assert (Dialog.m_rememberVisible (Dialog.run es d) = false
          /\ Dialog.m_rememberChecked (Dialog.run es d) = false) as [_ Hunchecked].
  { clear Hshow. revert d Hv Hc. induction es as [|e es IH]; intros d Hv Hc; [done|].
    rewrite dialog_run_cons. destruct (dialog_step_hidden e d Hv Hc). by apply IH. }
  split; [done|]. unfold onApprovalDialogFinished, Dialog.shouldRememberDecision.
  rewrite Hunchecked. split; [apply processApprovalDecision_remembered|].
  unfold processApprovalDecision. by rewrite andThen_state, sendControlMessage_state.
Qed.

(** X16.  [loadSettings] does not clamp the timeout it reads: a stored
    timeout of zero or less is taken as it is, the prompt shown with it has
    no timeout timer, and timer events never change or close it. *)
Theorem stored_timeout_is_not_clamped (store : Store) (seconds : Z)
    (request : FileTransferRequest) (d : Dialog.t) (es : list Dialog.Event) :
  stored_Timeout store = Some seconds -> seconds <= 0 ->
  showApprovalDialog request (Manager.new store) = (Manager.new store, [showDialog d]) ->
  Forall (fun e => Dialog.byUser e = false) es ->
  getApprovalTimeout (Manager.new store) = seconds
  /\ Dialog.m_timeoutTimer d = None
  /\ Dialog.run es d = d
  /\ Dialog.finished d = None.
Proof.
  intros Hstored Hle Hshow Hes.
  assert (getApprovalTimeout (Manager.new store) = seconds) as Hloaded.
  { cbn. by rewrite Hstored. }
  unfold getApprovalTimeout in Hloaded.
  unfold showApprovalDialog in Hshow. rewrite Hloaded in Hshow.
  destruct (if m_rememberDecisionEnabled (Manager.new store) then _ else _) as [approved|].
  { exfalso.
    match type of Hshow with processApprovalDecision ?t ?a ?msg ?m0 = _ =>
      destruct (processApprovalDecision_out t a msg m0) as (_ & _ & Hlen) end.
    by rewrite Hshow in Hlen. }
  destruct (Z.ltb_spec 0 seconds); [lia|]. injection Hshow as <-.
  split; [done|]. split; [done|]. split; [|done].
  induction Hes as [|e es He Hes IH]; [done|].
  rewrite dialog_run_cons.
  replace (Dialog.step e _) with
    (Dialog.setTransferId (id request)
       (Dialog.setRememberOptionEnabled (m_rememberDecisionEnabled (Manager.new store))
          (Dialog.new request))); [done|].
  by destruct e.
Qed.

(** The countdown label. *)
Lemma display_ticks (k : nat) (d : Dialog.t) :
  Dialog.finished d = None -> Dialog.m_displayTimer d = true ->
  0 <= Dialog.m_remainingSeconds d <= INT_MAX ->
  Z.of_nat k < Dialog.m_remainingSeconds d ->
  let d' := Dialog.run (replicate k Dialog.DisplayTick) d in
  Dialog.finished d' = None /\ Dialog.m_displayTimer d' = true
  /\ Dialog.m_remainingSeconds d' = Dialog.m_remainingSeconds d - Z.of_nat k
  /\ Dialog.m_timeoutTimer d' = Dialog.m_timeoutTimer d
  /\ (k ≠ 0%nat ->
      Dialog.m_timeoutLabel d'
      = "Auto-reject in " +:+ number (Dialog.m_remainingSeconds d - Z.of_nat k)
          +:+ " seconds").
Proof.
  revert d. induction k as [|k IH]; intros d Hopen Hdisplay Hrange Hk; cbv zeta.
  - cbn. split_and!; try done. lia.
  - replace (S k) with (k + 1)%nat by lia.
    rewrite replicate_add, dialog_run_app.
    destruct (IH d Hopen Hdisplay Hrange ltac:(lia)) as (Ho & Hd & Hr & Ht & _).
    set (d1 := Dialog.run (replicate k Dialog.DisplayTick) d) in *.
    change (Dialog.run (replicate 1 Dialog.DisplayTick) d1)
      with (Dialog.step Dialog.DisplayTick d1).
    assert (Dialog.step Dialog.DisplayTick d1
            = Dialog.with_timeout (Dialog.m_timeoutSeconds d1)
                (Dialog.m_remainingSeconds d - Z.of_nat k - 1)
                (Dialog.m_timeoutTimer d1) true
                ("Auto-reject in " +:+
                 number (Dialog.m_remainingSeconds d - Z.of_nat k - 1) +:+ " seconds")
                (Dialog.m_timeoutLabelVisible d1) d1) as ->.
    { unfold Dialog.step. rewrite Ho, Hd. unfold Dialog.updateTimeoutDisplay.
      rewrite Hr, Hd.
      rewrite wrap32_small by (unfold INT_MIN, INT_MAX in *; lia).
      by destruct (Z.leb_spec (Dialog.m_remainingSeconds d - Z.of_nat k - 1) 0); [lia|]. }
    cbn. split_and!; try done; try lia.
    intros _. do 3 f_equal. lia.
Qed.

(** X17.  The countdown label runs one second ahead of the timeout:
    [setAutoTimeout(seconds)] already shows [seconds - 1], and after
    [seconds - 1] ticks of the display timer the label reads
    "Request timed out" and the display timer has stopped, while the prompt
    is still open and its timeout timer still pending. *)
Theorem countdown_ends_a_second_early (request : FileTransferRequest) (seconds : Z) :
  0 < seconds -> seconds * 1000 <= INT_MAX ->
  let shown := Dialog.setAutoTimeout seconds (Dialog.new request) in
  let last := Dialog.run (replicate (Z.to_nat (seconds - 1)) Dialog.DisplayTick) shown in
  Dialog.m_timeoutTimer shown = Some (seconds * 1000)
  /\ Dialog.m_remainingSeconds shown = seconds - 1
  /\ Dialog.m_timeoutLabel last = "Request timed out"
  /\ Dialog.m_displayTimer last = false
  /\ Dialog.finished last = None
  /\ Dialog.m_timeoutTimer last = Some (seconds * 1000).
Proof.
  intros Hpos Hmax. cbv zeta.
  assert (Dialog.setAutoTimeout seconds (Dialog.new request)
          = Dialog.with_timeout seconds (seconds - 1) (Some (seconds * 1000))
              (negb (seconds - 1 <=? 0))
              (if seconds - 1 <=? 0 then "Request timed out"
               else "Auto-reject in " +:+ number (seconds - 1) +:+ " seconds")
              true (Dialog.new request)) as ->.
  { unfold Dialog.setAutoTimeout. destruct (Z.ltb_spec 0 seconds); [|lia].
    unfold Dialog.updateTimeoutDisplay.
    cbn [Dialog.m_remainingSeconds Dialog.with_timeout].
    rewrite (wrap32_small (seconds - 1)) by (unfold INT_MIN, INT_MAX in *; lia).
    rewrite (wrap32_small (seconds * 1000)) by (unfold INT_MIN, INT_MAX in *; lia).
    by destruct (seconds - 1 <=? 0). }
  split; [done|]. split; [done|].
  destruct (Z.leb_spec (seconds - 1) 0) as [Hone|Hmore].
  - replace (seconds - 1) with 0 by lia. by cbn.
  - set (shown := Dialog.with_timeout _ _ _ _ _ true _).
    replace (Z.to_nat (seconds - 1)) with (Z.to_nat (seconds - 2) + 1)%nat by lia.
    rewrite replicate_add, dialog_run_app.
    destruct (display_ticks (Z.to_nat (seconds - 2)) shown) as (Ho & Hd & Hr & Ht & _);
      try done.
    { cbn. unfold INT_MAX in *. lia. }
    { cbn. lia. }
    set (d1 := Dialog.run (replicate (Z.to_nat (seconds - 2)) Dialog.DisplayTick) shown) in *.
    change (Dialog.run (replicate 1 Dialog.DisplayTick) d1)
      with (Dialog.step Dialog.DisplayTick d1).
    assert (Dialog.step Dialog.DisplayTick d1
            = Dialog.with_timeout (Dialog.m_timeoutSeconds d1) 0
                (Dialog.m_timeoutTimer d1) false "Request timed out"
                (Dialog.m_timeoutLabelVisible d1) d1) as ->.
    { unfold Dialog.step. rewrite Ho, Hd. unfold Dialog.updateTimeoutDisplay. rewrite Hr.
      cbn [Dialog.m_remainingSeconds Dialog.with_timeout shown].
      replace (seconds - 1 - Z.of_nat (Z.to_nat (seconds - 2)) - 1) with 0 by lia.
      done. }
    cbn. by rewrite Ho, Ht.
Qed.

(** The box is checked, then Return is pressed without Ctrl. *)
Lemma approval_needs_explicit_action_witness :
  Dialog.isApproved
    (Dialog.run [Dialog.ToggleRemember; Dialog.PressReturn false; Dialog.CloseWindow]
       Examples.prompt) = false
  /\ decisions
       (onApprovalDialogFinished
          (Dialog.run [Dialog.ToggleRemember; Dialog.PressReturn false; Dialog.CloseWindow]
             Examples.prompt) Examples.online).2
     = [("t1", false, "Rejected by user")].
Proof.
  destruct (approval_needs_explicit_action Examples.prompt
              [Dialog.ToggleRemember; Dialog.PressReturn false; Dialog.CloseWindow]
              Examples.online ltac:(vm_compute; reflexivity) ltac:(reflexivity))
    as [Hno _].
  split; [exact Hno | vm_compute; reflexivity].
Defined.

(** The prompt of a controller that does not remember, approved. *)
Lemma remember_disabled_saves_nothing_witness :
  m_rememberedDecisions
    (onApprovalDialogFinished
       (Dialog.run [Dialog.ToggleRemember; Dialog.ClickApprove] Scenarios.forgetfulPrompt)
       Scenarios.forgetful).1
  = m_rememberedDecisions Scenarios.forgetful
  /\ Dialog.isApproved
       (Dialog.run [Dialog.ToggleRemember; Dialog.ClickApprove] Scenarios.forgetfulPrompt)
     = true.
Proof.
  destruct (remember_disabled_saves_nothing Scenarios.forgetful Examples.promptRequest
              Scenarios.forgetfulPrompt [Dialog.ToggleRemember; Dialog.ClickApprove]
              ltac:(reflexivity) ltac:(vm_compute; reflexivity))
    as (_ & Hsame & _).
  split; [exact Hsame | vm_compute; reflexivity].
Defined.

(** A stored timeout of zero seconds. *)
Lemma stored_timeout_is_not_clamped_witness :
  getApprovalTimeout (Manager.new Scenarios.zeroTimeout) = 0
  /\ Dialog.run [Dialog.DisplayTick; Dialog.TimeoutFires] Scenarios.endlessPrompt
     = Scenarios.endlessPrompt.
Proof.
  destruct (stored_timeout_is_not_clamped Scenarios.zeroTimeout 0 Examples.promptRequest
              Scenarios.endlessPrompt [Dialog.DisplayTick; Dialog.TimeoutFires]
              ltac:(reflexivity) ltac:(lia) ltac:(vm_compute; reflexivity)
              ltac:(repeat constructor))
    as (Hloaded & _ & Hsame & _).
  split; [exact Hloaded | exact Hsame].
Defined.

(** A timeout of three seconds. *)
Lemma countdown_ends_a_second_early_witness :
  let shown := Dialog.setAutoTimeout 3 (Dialog.new Examples.promptRequest) in
  let last := Dialog.run [Dialog.DisplayTick; Dialog.DisplayTick] shown in
  Dialog.m_timeoutLabel shown = "Auto-reject in 2 seconds"
  /\ Dialog.m_timeoutLabel last = "Request timed out"
  /\ Dialog.finished last = None.
Proof.
  destruct (countdown_ends_a_second_early Examples.promptRequest 3
              ltac:(lia) ltac:(unfold INT_MAX; lia))
    as (_ & _ & Hlabel & _ & Hopen & _).
  split; [vm_compute; reflexivity|]. split; [exact Hlabel | exact Hopen].
Defined.

(** ** Decisions and dispatch *)

Lemma texts_app out1 out2 : texts (out1 ++ out2) = texts out1 ++ texts out2.
Proof. apply omap_app. Qed.

(** X18.  A prompt answered with the remember box checked stores the
    answer under the request's id; the next request with that id that
    passes the extension and size checks, with auto-approval off and
    remembering on, gets the same answer at once
    ("Auto-approved (remembered)" or "Auto-rejected (remembered)") and no
    prompt is shown. *)
Theorem remembered_answer_is_replayed (m : Manager.t) (d : Dialog.t)
    (request : Json.QJsonObject) :
  let r := requestOfJson request in
  let m1 := (onApprovalDialogFinished d m).1 in
  let out := (onTransferRequestReceived request m1).2 in
  Dialog.shouldRememberDecision d = true ->
  Dialog.property_transferId d = id r ->
  m_rememberDecisionEnabled m = true ->
  m_autoApprovalEnabled m = false ->
  isFileExtensionAllowed (filename r) m = true ->
  isFileSizeValid (fileSize r) m = true ->
  m_rememberedDecisions m1 !! id r = Some (Dialog.isApproved d)
  /\ decisions out
     = [(id r, Dialog.isApproved d,
         if Dialog.isApproved d then "Auto-approved (remembered)"
         else "Auto-rejected (remembered)")]
  /\ dialogs out = [].
Proof.
  intros r m1 out Hbox Hid Hremember Hauto Hext Hsize.
  assert (m_rememberedDecisions m1 !! id r = Some (Dialog.isApproved d)
          /\ m_rememberDecisionEnabled m1 = true /\ m_autoApprovalEnabled m1 = false
          /\ m_allowedExtensions m1 = m_allowedExtensions m
          /\ m_maxFileSize m1 = m_maxFileSize m) as (Hsaved & Hr1 & Ha1 & He1 & Hs1).
  { subst m1. unfold onApprovalDialogFinished. rewrite Hbox, Hid.
    unfold processApprovalDecision. rewrite andThen_state, sendControlMessage_state.
    cbn. by rewrite lookup_insert_eq. }
  split; [done|]. subst out. unfold onTransferRequestReceived. fold r.
  set (m2 := with_decisions _ _ _ m1).
  change (isFileExtensionAllowed (filename r) m2)
    with (contains (m_allowedExtensions m1) ("." +:+ toLower (suffix (filename r)))).
  change (isFileSizeValid (fileSize r) m2)
    with ((0 <? fileSize r) && (fileSize r <=? m_maxFileSize m1)).
  change (m_autoApprovalEnabled m2) with (m_autoApprovalEnabled m1).
  unfold isFileExtensionAllowed, isFileSizeValid in Hext, Hsize.
  rewrite He1, Hs1, Hext, Hsize, Ha1. cbn [negb].
  rewrite andThen_out. unfold decisions, dialogs. rewrite !omap_app. cbn [say snd fst omap].
  unfold showApprovalDialog, checkRememberedDecision.
  change (m_rememberDecisionEnabled m2) with (m_rememberDecisionEnabled m1).
  change (m_rememberedDecisions m2) with (m_rememberedDecisions m1).
  rewrite Hr1, Hsaved.
  match goal with |- context [processApprovalDecision ?t ?a ?msg ?m0] =>
    destruct (processApprovalDecision_out t a msg m0) as (Hd & Hg & _) end.
  unfold decisions, dialogs in Hd, Hg. by rewrite Hd, Hg.
Qed.

(** X19.  While the controller is not connected, the result of a prompt
    is announced by [transferApprovalDecision] and the pending request is
    dropped, but no response frame is sent to the peer. *)
Theorem offline_decision_is_not_sent (m : Manager.t) (d : Dialog.t) :
  m_isConnected m = false ->
  let r := onApprovalDialogFinished d m in
  texts r.2 = []
  /\ decisions r.2
     = [(Dialog.property_transferId d, Dialog.isApproved d, Dialog.getMessage d)]
  /\ m_pendingRequests r.1 !! Dialog.property_transferId d = None.
Proof.
  intros Hoff. cbv zeta. unfold onApprovalDialogFinished.
  set (m1 := if Dialog.shouldRememberDecision d then _ else m).
  assert (m_isConnected m1 = false) as Hoff1.
  { subst m1. by destruct (Dialog.shouldRememberDecision d). }
  split; [|split].
  - unfold processApprovalDecision. rewrite andThen_out.
    unfold sendControlMessage. cbn [m_isConnected with_decisions]. by rewrite Hoff1.
  - apply processApprovalDecision_out.
  - unfold processApprovalDecision. rewrite andThen_state, sendControlMessage_state.
    cbn. apply lookup_delete_eq.
Qed.

Section Dispatch.
Context `{ChunkSize} `{Sha256}.

(** X20.  A control message whose type is not one of those
    [handleControlMessage] dispatches on changes nothing and produces
    nothing. *)
Theorem unknown_message_is_ignored (message : Json.QJsonObject) (m : Manager.t) :
  Json.toString (Json.value message "type") ∉ knownMessageTypes ->
  handleControlMessage message m = (m, []).
Proof.
  intros Hunknown. unfold handleControlMessage.
  repeat (match goal with
          | |- context [String.eqb ?a ?lit] =>
              destruct (String.eqb_spec a lit) as [Heq|_];
              [exfalso; apply Hunknown; rewrite Heq; unfold knownMessageTypes;
               repeat (first [apply list_elem_of_here | apply list_elem_of_further])|]
          end).
  done.
Qed.

End Dispatch.

(** [t1] approved with the box checked, then requested again. *)
Lemma remembered_answer_is_replayed_witness :
  decisions
    (onTransferRequestReceived (Examples.inbound "t1" "notes.txt" 1000)
       (onApprovalDialogFinished Scenarios.approvedForGood Examples.online).1).2
  = [("t1", true, "Auto-approved (remembered)")].
Proof.
  destruct (remembered_answer_is_replayed Examples.online Scenarios.approvedForGood
              (Examples.inbound "t1" "notes.txt" 1000)
              ltac:(vm_compute; reflexivity) ltac:(vm_compute; reflexivity)
              ltac:(reflexivity) ltac:(reflexivity)
              ltac:(vm_compute; reflexivity) ltac:(vm_compute; reflexivity))
    as (_ & Hreplayed & _).
  exact Hreplayed.
Defined.

(** The same answer handled by a controller that is not connected,
    and by one that is. *)
Lemma offline_decision_is_not_sent_witness :
  texts (onApprovalDialogFinished Scenarios.approvedForGood (Manager.new emptyStore)).2 = []
  /\ texts (onApprovalDialogFinished Scenarios.approvedForGood Examples.online).2 <> [].
Proof.
  split.
  - apply (offline_decision_is_not_sent (Manager.new emptyStore) Scenarios.approvedForGood).
    reflexivity.
  - vm_compute. discriminate.
Defined.

(** A frame of type [hello]. *)
Lemma unknown_message_is_ignored_witness :
  @handleControlMessage Examples.chunk64k Scenarios.greeting Examples.online
  = (Examples.online, []).
Proof.
  apply (@unknown_message_is_ignored Examples.chunk64k).
  intros Hin. apply list_elem_of_In in Hin. vm_compute in Hin.
  intuition discriminate.
Defined.

(** ** Requests, controls and worker slots *)

Lemma with_transfers_same (m : Manager.t) :
  with_transfers (m_transferSessions m) (m_transferWorkers m) m = m.
Proof. by destruct m. Qed.

Section Flows.
Context `{ChunkSize} `{Sha256}.

(** X21.  [requestFileUpload] succeeds exactly when the controller is
    connected, [validateFile] accepts the path and the checksum is not
    empty.  Then it returns the new id, registers a [Pending] session for
    the request, creates no worker, and sends one [file_transfer_request] frame
    followed by [transferRequested]; otherwise it returns the empty id,
    leaves the controller as it was and sends no frame. *)
Theorem requestFileUpload_outcome `{FileSystem} (filePath session tech newId : string)
    (m : Manager.t) :
  newId ≠ EmptyString ->
  let r := requestFileUpload filePath session tech newId m in
  let request :=
    {| id := newId; sessionId := session; filename := fileName filePath;
       fileSize := size_ (fileInfo filePath);
       checksum := calculateFileChecksum filePath; type := Upload;
       technician := tech; localPath := filePath |} in
  if m_isConnected m && (validateFile filePath EmptyString m).1
     && negb (isEmpty (calculateFileChecksum filePath))
  then r.2 = newId
       /\ m_transferSessions r.1.1 = <[newId := Session.new request]> (m_transferSessions m)
       /\ statusOf newId r.1.1 = Some Pending
       /\ m_transferWorkers r.1.1 = m_transferWorkers m
       /\ r.1.2 = [sendTextMessage
                     (Json.set "checksum" (Json.JString (checksum request))
                        (transferRequestMessage request "upload"));
                   emit (transferRequested newId request)]
  else r.2 = EmptyString /\ r.1.1 = m /\ texts r.1.2 = [].
Proof.
  intros Hid. cbv zeta. unfold requestFileUpload.
  destruct (m_isConnected m) eqn:Hconn; cbn [negb andb]; [|done].
  destruct (validateFile filePath EmptyString m) as [valid errorMessage].
  cbn [fst]. destruct valid; cbn [negb andb]; [|done].
  destruct (isEmpty (calculateFileChecksum filePath)); cbn [negb].
  { split; [done|]. split; [done|]. by destruct (contentOf filePath). }
  cbn [fst snd]. rewrite andThen_state, andThen_out, sendControlMessage_state.
  cbn [say fst snd].
  unfold sendControlMessage. cbn [putSession with_transfers m_isConnected].
  rewrite Hconn. cbn [fst snd app]. split_and!; try done.
  unfold statusOf. cbn. by rewrite lookup_insert_eq.
Qed.

(** X22.  [pauseTransfer], [resumeTransfer] and [cancelTransfer] do not
    check the transfer id: for an id the controller has never seen they
    leave the controller unchanged but still send the control frame to the
    peer, and [cancelTransfer] also emits [transferCancelled]. *)
Theorem controls_are_forwarded_unchecked (transfer : string) (m : Manager.t) :
  m_transferSessions m !! transfer = None ->
  m_transferWorkers m !! transfer = None ->
  m_isConnected m = true ->
  pauseTransfer transfer m = (m, [sendTextMessage (transferControl transfer "pause")])
  /\ resumeTransfer transfer m = (m, [sendTextMessage (transferControl transfer "resume")])
  /\ cancelTransfer transfer m
     = (m, [sendTextMessage (transferControl transfer "cancel");
            emit (transferCancelled transfer)]).
Proof.
  intros Hs Hw Hconn.
  assert (forall f, callWorker transfer f m = (m, [])) as Hcall.
  { intros f. unfold callWorker. by rewrite Hw. }
  unfold pauseTransfer, resumeTransfer, cancelTransfer. rewrite !Hcall.
  cbn [andThen]. unfold sessionSetStatus, sendControlMessage. rewrite Hs, Hconn.
  cbn [andThen]. rewrite delete_id by done. rewrite with_transfers_same.
  by rewrite Hconn.
Qed.

End Flows.

Section Slots.
Context `{Json.Codec} `{ChunkSize} `{Sha256}.

(** What a worker's thread does never takes its worker out of the
    controller's table. *)
Lemma onWorkerSignal_state transfer sig m : (onWorkerSignal transfer sig m).1 = m.
Proof.
  destruct sig; try done. cbn. unfold sendBinaryChunk. by destruct (negb _).
Qed.

Lemma workerSignals_state transfer sigs r :
  (foldl (fun r sig => r >>> onWorkerSignal transfer sig) r sigs).1 = r.1.
Proof.
  revert r. induction sigs as [|sig sigs IH]; intros r; [done|].
  cbn [foldl]. by rewrite IH, andThen_state, onWorkerSignal_state.
Qed.

(** X23.  Nothing a worker does, finishing included, takes it out of the
    controller's table of workers or changes the limit; so when the table
    is full, a transfer that is approved afterwards is still refused with
    "max concurrent transfers reached". *)
Theorem finished_worker_keeps_its_slot (transfer other : string)
    (e : Worker.Event) (m : Manager.t) :
  let m' := (workerEvent transfer e m).1 in
  dom (m_transferWorkers m') = dom (m_transferWorkers m)
  /\ m_maxConcurrentTransfers m' = m_maxConcurrentTransfers m
  /\ (m_maxConcurrentTransfers m <= Z.of_nat (size (m_transferWorkers m)) ->
      is_Some (m_transferSessions m' !! other) ->
      startTransfer other m'
      = (m', [qWarning "Cannot start transfer: max concurrent transfers reached"])).
Proof.
  cbv zeta.
  assert (dom (m_transferWorkers (workerEvent transfer e m).1) = dom (m_transferWorkers m)
          /\ m_maxConcurrentTransfers (workerEvent transfer e m).1
             = m_maxConcurrentTransfers m) as [Hdom Hmax].
  { unfold workerEvent.
    destruct (m_transferWorkers m !! transfer) as [w|] eqn:Hw; [|done].
    destruct (m_transferSessions m !! transfer) as [s|]; [|done].
    destruct (Worker.step e (w, s)) as [[w' s'] sigs].
    rewrite workerSignals_state. cbn. split; [|done].
    rewrite dom_insert_L. apply subseteq_union_1_L, singleton_subseteq_l.
    by apply elem_of_dom_2 in Hw. }
  split; [done|]. split; [done|]. intros Hfull [s Hs].
  unfold startTransfer. rewrite Hs. unfold canStart. rewrite Hs, Hmax.
  assert (size (m_transferWorkers (workerEvent transfer e m).1)
          = size (m_transferWorkers m)) as ->.
  { by rewrite <- !size_dom, Hdom. }
  by destruct (Z.ltb_spec (Z.of_nat (size (m_transferWorkers m)))
                 (m_maxConcurrentTransfers m)); [lia|].
Qed.

End Slots.

(** [notes.txt], which is on the disk, and [lost.txt], which is not. *)
Lemma requestFileUpload_outcome_witness :
  let r := @requestFileUpload Examples.chunk64k Examples.digest Examples.disk
             "/home/user/notes.txt" "s1" "tech" "t1" Examples.online in
  let lost := @requestFileUpload Examples.chunk64k Examples.digest Examples.disk
                "/home/user/lost.txt" "s1" "tech" "t1" Examples.online in
  (r.2 = "t1" /\ statusOf "t1" r.1.1 = Some Pending)
  /\ (lost.2 = EmptyString /\ lost.1.1 = Examples.online).
Proof.
  split.
  - pose proof (@requestFileUpload_outcome Examples.chunk64k Examples.digest Examples.disk
                  "/home/user/notes.txt" "s1" "tech" "t1" Examples.online
                  ltac:(discriminate)) as Hok.
    cbv zeta in Hok.
    match type of Hok with
    | if ?c then _ else _ =>
        replace c with true in Hok by (vm_compute; reflexivity)
    end.
    destruct Hok as (Hid & _ & Hstatus & _). split; [exact Hid | exact Hstatus].
  - pose proof (@requestFileUpload_outcome Examples.chunk64k Examples.digest Examples.disk
                  "/home/user/lost.txt" "s1" "tech" "t1" Examples.online
                  ltac:(discriminate)) as Hlost.
    cbv zeta in Hlost.
    match type of Hlost with
    | if ?c then _ else _ =>
        replace c with false in Hlost by (vm_compute; reflexivity)
    end.
    destruct Hlost as (Hid & Hsame & _). split; [exact Hid | exact Hsame].
Defined.

(** A pause for [t9], which the controller has never seen. *)
Lemma controls_are_forwarded_unchecked_witness :
  @pauseTransfer Examples.chunk64k "t9" Examples.online
  = (Examples.online, [sendTextMessage (transferControl "t9" "pause")]).
Proof.
  apply (@controls_are_forwarded_unchecked Examples.chunk64k "t9" Examples.online);
    vm_compute; reflexivity.
Defined.

(** One slot, taken by [t1]; [t1] completes, and [t2] still cannot start. *)
Lemma finished_worker_keeps_its_slot_witness :
  let m' := (@workerEvent Json.reference Examples.chunk64k Examples.digest "t1"
               (Worker.Acknowledged 0) Scenarios.busy).1 in
  statusOf "t1" m' = Some Completed
  /\ dom (m_transferWorkers m') = {["t1"]}
  /\ @startTransfer Examples.chunk64k "t2" m'
     = (m', [qWarning "Cannot start transfer: max concurrent transfers reached"]).
Proof.
  destruct (@finished_worker_keeps_its_slot Json.reference Examples.chunk64k Examples.digest
              "t1" "t2" (Worker.Acknowledged 0) Scenarios.busy)
    as (Hdom & _ & Hfull).
  split; [vm_compute; reflexivity|]. split.
  - etransitivity; [exact Hdom|]. vm_compute. reflexivity.
  - apply Hfull; [vm_compute; discriminate | vm_compute; eexists; reflexivity].
Defined.

(** ** Disconnecting *)

Lemma setStatus_signals status s :
  (Session.setStatus status s).2 = [] \/
  (Session.setStatus status s).2 = [Session.statusChanged status].
Proof. unfold Session.setStatus. destruct (decide _); [by left | by right]. Qed.

Lemma andThen_result (r : result) (f : Manager.t -> result) :
  r >>> f = ((f r.1).1, r.2 ++ (f r.1).2).
Proof. destruct r as [m out]. cbn. by destruct (f m). Qed.

Section Cancel.
Context `{ChunkSize} `{Sha256}.

Lemma getActiveTransfers_elem (transfer : string) (m : Manager.t) :
  transfer ∈ getActiveTransfers m
  <-> exists s, m_transferSessions m !! transfer = Some s /\ isActive s = true.
Proof.
  unfold getActiveTransfers. rewrite list_elem_of_fmap. split.
  - intros ([t s] & -> & Hin). apply elem_of_map_to_list in Hin.
    apply map_lookup_filter_Some in Hin as [Hs Hactive]. by exists s.
  - intros (s & Hs & Hactive). exists (transfer, s). split; [done|].
    apply elem_of_map_to_list, map_lookup_filter_Some. by split.
Qed.

(** A [statusChanged] other than [Approved] changes nothing in the
    controller. *)
Lemma deliver_state transfer sigs m :
  Forall (fun sig => sig ≠ Session.statusChanged Approved) sigs ->
  (deliver transfer sigs m).1 = m.
Proof.
  induction 1 as [|sig sigs Hsig Hsigs IH]; [done|].
  destruct sig as [status|p].
  - destruct status; try done; cbn [deliver]; by rewrite andThen_state.
  - cbn [deliver]. by rewrite andThen_state.
Qed.

Lemma deliver_setStatus transfer status s m :
  status ≠ Approved ->
  (deliver transfer (Session.setStatus status s).2 m).1 = m.
Proof.
  intros Hstatus. apply deliver_state.
  destruct (setStatus_signals status s) as [->| ->]; repeat constructor. congruence.
Qed.

Lemma callWorker_cancel transfer m :
  let m' := (callWorker transfer Worker.cancelTransfer m).1 in
  (forall other, other ≠ transfer ->
     m_transferSessions m' !! other = m_transferSessions m !! other)
  /\ (is_Some (m_transferSessions m' !! transfer)
      <-> is_Some (m_transferSessions m !! transfer))
  /\ m_isConnected m' = m_isConnected m
  /\ (forall other, other ≠ transfer ->
       m_transferWorkers m' !! other = m_transferWorkers m !! other)
  /\ m_maxConcurrentTransfers m' = m_maxConcurrentTransfers m.
Proof.
  cbv zeta. unfold callWorker.
  destruct (m_transferWorkers m !! transfer) as [w|]; [|done].
  destruct (m_transferSessions m !! transfer) as [s|] eqn:Hs; [|cbn [fst]; by rewrite Hs].
  assert (exists w' s' sigs,
            Worker.cancelTransfer (w, s) = ((w', s'), sigs)
            /\ Forall (fun sig => sig ≠ Session.statusChanged Approved)
                 (omap (fun sig => match sig with
                                   | Worker.fromSession sg => Some sg
                                   | _ => None
                                   end) sigs)) as (w' & s' & sigs & -> & Hsigs).
  { unfold Worker.cancelTransfer. destruct (negb _).
    - do 3 eexists. split; [done|]. constructor.
    - unfold Session.setCancelled.
      destruct (setStatus_signals Cancelled
                  (Session.with_flags (Session.m_isPaused s) true s)) as [Hq|Hq];
        destruct (Session.setStatus Cancelled _) as [s1 sg]; cbn [snd] in Hq; subst sg;
        do 3 eexists; (split; [done|]); repeat constructor. congruence. }
  rewrite deliver_state by done. cbn.
  split_and!; try done.
  - intros other Hother. by rewrite lookup_insert_ne.
  - rewrite lookup_insert_eq. split; by eexists.
  - intros other Hother. by rewrite lookup_insert_ne.
Qed.

Lemma cancelTransfer_sessions transfer m :
  let m' := (cancelTransfer transfer m).1 in
  (forall other, other ≠ transfer ->
     m_transferSessions m' !! other = m_transferSessions m !! other)
  /\ (forall s', m_transferSessions m' !! transfer = Some s' ->
        Session.m_status s' = Cancelled)
  /\ (is_Some (m_transferSessions m' !! transfer)
      <-> is_Some (m_transferSessions m !! transfer))
  /\ m_transferWorkers m' !! transfer = None
  /\ (forall other, other ≠ transfer ->
       m_transferWorkers m' !! other = m_transferWorkers m !! other)
  /\ m_isConnected m' = m_isConnected m
  /\ m_maxConcurrentTransfers m' = m_maxConcurrentTransfers m.
Proof.
  cbv zeta. unfold cancelTransfer.
  rewrite !andThen_state.
  destruct (callWorker_cancel transfer m) as (Hother & Hsame & Hconn & Hworkers & Hlimit).
  set (m1 := (callWorker transfer Worker.cancelTransfer m).1) in *.
  unfold say. cbn [fst]. rewrite sendControlMessage_state. cbn [fst].
  unfold sessionSetStatus.
  destruct (m_transferSessions m1 !! transfer) as [s1|] eqn:Hs1.
  - pose proof (setStatus_status Cancelled s1) as Hstatus.
    pose proof (deliver_setStatus transfer Cancelled s1
                  (putSession transfer (Session.setStatus Cancelled s1).1 m1)
                  ltac:(done)) as Hdeliver.
    destruct (Session.setStatus Cancelled s1) as [s2 sigs2]. cbn [fst snd] in *.
    rewrite Hdeliver. cbn. split_and!.
    + intros other Hother'. rewrite lookup_insert_ne by done. by apply Hother.
    + intros s'. rewrite lookup_insert_eq. by intros [= <-].
    + rewrite lookup_insert_eq, <- Hsame. split; by eexists.
    + apply lookup_delete_eq.
    + intros other Hother'. rewrite lookup_delete_ne by done. by apply Hworkers.
    + done.
    + done.
  - cbn. split_and!.
    + done.
    + intros s'. by rewrite Hs1.
    + by rewrite Hs1.
    + apply lookup_delete_eq.
    + intros other Hother'. rewrite lookup_delete_ne by done. by apply Hworkers.
    + done.
    + done.
Qed.

Lemma cancel_all (transfers : list string) (r : result) :
  let r' := foldl (fun r transfer => r >>> cancelTransfer transfer) r transfers in
  (forall other, other ∉ transfers ->
     m_transferSessions r'.1 !! other = m_transferSessions r.1 !! other)
  /\ (forall transfer s', transfer ∈ transfers ->
        m_transferSessions r'.1 !! transfer = Some s' -> Session.m_status s' = Cancelled)
  /\ (forall transfer, transfer ∈ transfers -> m_transferWorkers r'.1 !! transfer = None)
  /\ (forall transfer, m_transferWorkers r.1 !! transfer = None ->
        m_transferWorkers r'.1 !! transfer = None)
  /\ (forall transfer, is_Some (m_transferSessions r'.1 !! transfer) <->
        is_Some (m_transferSessions r.1 !! transfer))
  /\ m_isConnected r'.1 = m_isConnected r.1.
Proof.
  revert r. induction transfers as [|t ts IH] using rev_ind; intros r; cbv zeta.
  - cbn. split_and!; try done.
    + intros ? ? Hin. by apply elem_of_nil in Hin.
    + intros ? Hin. by apply elem_of_nil in Hin.
  - rewrite foldl_app. cbn [foldl].
    specialize (IH r). cbv zeta in IH.
    set (r1 := foldl (fun r transfer => r >>> cancelTransfer transfer) r ts) in *.
    destruct IH as (Hother & Hcancelled & Hworkers & Hnoworker & Hkeys & Hconn).
    rewrite andThen_state.
    destruct (cancelTransfer_sessions t r1.1) as (Ho & Hc & Hn & Hw & Hwo & Hcn & _).
    set (m' := (cancelTransfer t r1.1).1) in *.
    assert (forall transfer, m_transferWorkers r1.1 !! transfer = None ->
              m_transferWorkers m' !! transfer = None) as Hless.
    { intros transfer Hnone. destruct (decide (transfer = t)) as [->|Hne]; [done|].
      by rewrite Hwo. }
    split_and!.
    + intros other Hnot. apply not_elem_of_app in Hnot as [Hnot1 Hnot2].
      rewrite Ho by (intros ->; apply Hnot2, list_elem_of_here). by apply Hother.
    + intros transfer s' Hin Hs'. destruct (decide (transfer = t)) as [->|Hne].
      * by apply Hc.
      * rewrite Ho in Hs' by done. apply elem_of_app in Hin as [Hin|Hin].
        -- by apply (Hcancelled transfer).
        -- apply list_elem_of_singleton in Hin. done.
    + intros transfer Hin. apply elem_of_app in Hin as [Hin|Hin].
      * by apply Hless, Hworkers.
      * apply list_elem_of_singleton in Hin. by subst.
    + intros transfer Hnone. by apply Hless, Hnoworker.
    + intros transfer. rewrite <- Hkeys. destruct (decide (transfer = t)) as [->|Hne].
      * done.
      * by rewrite Ho.
    + by rewrite Hcn.
Qed.

(** X24.  [disconnectFromServer] on a connected controller cancels every
    active transfer: afterwards [getActiveTransfers] is empty, each session
    that was active is [Cancelled] and has no worker, each other session
    is unchanged, no session is added or lost, and the socket is closed
    last. *)
Theorem disconnect_cancels_active_transfers (m : Manager.t) :
  m_isConnected m = true ->
  let r := disconnectFromServer m in
  getActiveTransfers r.1 = []
  /\ (forall transfer s, m_transferSessions m !! transfer = Some s ->
        exists s', m_transferSessions r.1 !! transfer = Some s'
                   /\ if isActive s
                      then Session.m_status s' = Cancelled
                           /\ m_transferWorkers r.1 !! transfer = None
                      else s' = s)
  /\ (forall transfer, m_transferSessions m !! transfer = None ->
        m_transferSessions r.1 !! transfer = None)
  /\ last r.2 = Some socketClose.
Proof.
  intros Hconnected. cbv zeta. unfold disconnectFromServer. rewrite Hconnected.
  destruct (cancel_all (getActiveTransfers m) (m, []))
    as (Hother & Hcancelled & Hworkers & _ & Hkeys & _).
  cbv zeta in *.
  set (r1 := foldl (fun r transfer => r >>> cancelTransfer transfer) (m, [])
               (getActiveTransfers m)) in *.
  rewrite andThen_result. cbn [fst snd]. cbn [fst] in Hother, Hkeys.
  assert (forall transfer, m_transferSessions m !! transfer = None ->
            m_transferSessions r1.1 !! transfer = None) as Hnone.
  { intros transfer Hn. destruct (m_transferSessions r1.1 !! transfer) eqn:Hs; [|done].
    destruct (proj1 (Hkeys transfer)) as [s' Hs']; [by eexists|]. congruence. }
  assert (forall transfer s', m_transferSessions r1.1 !! transfer = Some s' ->
            isActive s' = false) as Hinactive.
  { intros transfer s' Hs'. destruct (decide (transfer ∈ getActiveTransfers m)) as [Hin|Hnot].
    - unfold isActive. by rewrite (Hcancelled transfer s' Hin Hs').
    - rewrite Hother in Hs' by done.
      destruct (isActive s') eqn:Hactive; [|done].
      exfalso. apply Hnot, getActiveTransfers_elem. by exists s'. }
  split_and!.
  - match goal with |- getActiveTransfers ?m2 = [] =>
      destruct (getActiveTransfers m2) as [|t l] eqn:Hl; [done|] end.
    assert (t ∈ t :: l) as Hin by apply list_elem_of_here.
    rewrite <- Hl in Hin. apply getActiveTransfers_elem in Hin as (s' & Hs' & Hactive).
    cbn in Hs'. apply Hinactive in Hs'. congruence.
  - intros transfer s Hs. cbn.
    destruct (isActive s) eqn:Hactive.
    + assert (transfer ∈ getActiveTransfers m) as Hin
        by (apply getActiveTransfers_elem; by exists s).
      destruct (m_transferSessions r1.1 !! transfer) as [s'|] eqn:Hs'.
      * exists s'. split; [done|]. split; [by apply (Hcancelled transfer)|by apply Hworkers].
      * destruct (proj2 (Hkeys transfer)) as [s' Hs'']; [by eexists|]. congruence.
    + exists s. split; [|done]. rewrite Hother; [done|].
      intros Hin. apply getActiveTransfers_elem in Hin as (s' & Hs' & Hactive').
      congruence.
  - intros transfer Hn. cbn. by apply Hnone.
  - by rewrite last_snoc.
Qed.

End Cancel.

(** Disconnecting while [t1] is in progress. *)
Lemma disconnect_cancels_active_transfers_witness :
  let r := @disconnectFromServer Examples.chunk64k Examples.sending in
  getActiveTransfers Examples.sending = ["t1"]
  /\ getActiveTransfers r.1 = []
  /\ statusOf "t1" r.1 = Some Cancelled.
Proof.
  destruct (@disconnect_cancels_active_transfers Examples.chunk64k Examples.sending
              ltac:(reflexivity))
    as (Hnone & _).
  split; [vm_compute; reflexivity|]. split; [exact Hnone | vm_compute; reflexivity].
Defined.

(** ** Approved responses *)

Section Approved.
Context `{ChunkSize} `{Sha256}.

(** X25.  An "approved" [file_transfer_response] for a known transfer
    that is not yet [Approved] and has no worker: with a free worker slot
    the session goes through [Approved] to [InProgress], a worker is
    created for it, its thread is started and [transferStarted] is
    emitted; with no free slot the session stays [Approved], only a warning
    is logged, and a repeated "approved" response does nothing. *)
Theorem approved_response_starts_transfer
    (message : Json.QJsonObject) (transfer : string) (s : Session.t) (m : Manager.t) :
  Json.toString (Json.value message "transfer_id") = transfer ->
  Json.toString (Json.value message "status") = "approved" ->
  m_transferSessions m !! transfer = Some s ->
  Session.m_status s ≠ Approved ->
  m_transferWorkers m !! transfer = None ->
  let approved := (Session.setStatus Approved s).1 in
  let r := handleTransferResponse message m in
  if Z.of_nat (size (m_transferWorkers m)) <? m_maxConcurrentTransfers m
  then
    r.1 = putSession transfer (Session.setStatus InProgress approved).1
            (putWorker transfer (Worker.new approved) (putSession transfer approved m))
    /\ r.2 = [threadStart transfer;
              toWorker transfer (Worker.SessionStatusChanged InProgress);
              emit (transferStarted transfer)]
    /\ (exists s', m_transferSessions r.1 !! transfer = Some s'
                   /\ Session.m_status s' = InProgress
                   /\ Session.m_request s' = Session.m_request s)
  else
    r.1 = putSession transfer approved m
    /\ r.2 = [qWarning "Cannot start transfer: max concurrent transfers reached"]
    /\ forall message', Json.toString (Json.value message' "transfer_id") = transfer ->
         Json.toString (Json.value message' "status") = "approved" ->
         handleTransferResponse message' r.1 = (r.1, []).
Proof.
  intros Hid Hstatus Hs Hnot Hworker. cbv zeta.
  unfold handleTransferResponse. rewrite Hid, Hstatus, Hs.
  change (String.eqb "approved" "pending") with false.
  change (String.eqb "approved" "approved") with true. cbv iota.
  unfold sessionSetStatus. rewrite Hs.
  assert (Session.setStatus Approved s
          = (Session.with_status Approved (Session.m_speedCalculationTimer s) s,
             [Session.statusChanged Approved])) as Hset.
  { unfold Session.setStatus. destruct (decide _) as [|_]; [done|].
    by destruct (Session.m_status s). }
  rewrite Hset. cbn [fst snd].
  set (approved := Session.with_status Approved (Session.m_speedCalculationTimer s) s).
  cbn [deliver]. unfold canStart, startTransfer, canStart.
  assert (m_transferSessions (putSession transfer approved m) !! transfer = Some approved)
    as Hput by (cbn; apply lookup_insert_eq).
  rewrite Hput.
  assert (m_transferWorkers (putSession transfer approved m) = m_transferWorkers m)
    as -> by done.
  assert (m_maxConcurrentTransfers (putSession transfer approved m)
          = m_maxConcurrentTransfers m) as -> by done.
  destruct (Z.of_nat (size (m_transferWorkers m)) <? m_maxConcurrentTransfers m) eqn:Hfree.
  - cbn [negb]. rewrite Hworker.
    assert (Session.setStatus InProgress approved
            = (Session.with_status InProgress true approved,
               [Session.statusChanged InProgress])) as Hset2.
    { unfold Session.setStatus. destruct (decide _) as [Heq|_]; [done|]. done. }
    rewrite Hset2. cbn [fst snd].
    split_and!.
    + unfold putSession, putWorker, with_transfers. cbn.
      by rewrite !insert_insert_eq.
    + cbn. unfold notifyWorker. cbn.
      rewrite lookup_insert_eq. done.
    + eexists. split; [cbn; apply lookup_insert_eq|]. done.
  - cbn [negb]. split_and!.
    + done.
    + cbn. unfold notifyWorker. cbn. by rewrite Hworker.
    + intros message' Hid' Hstatus'.
      rewrite Hid', Hstatus'. cbn [fst andThen]. rewrite Hput.
      change (String.eqb "approved" "pending") with false.
      change (String.eqb "approved" "approved") with true. cbv iota.
      assert (Session.setStatus Approved approved = (approved, [])) as ->.
      { unfold Session.setStatus. destruct (decide _) as [_|Hne]; [done|]. by destruct Hne. }
      cbn [deliver]. f_equal.
      unfold putSession, with_transfers. cbn. by rewrite insert_insert_eq.
Qed.

End Approved.

(** The peer approves [t1] while no worker exists. *)
Lemma approved_response_starts_transfer_witness :
  let r := @handleTransferResponse Examples.chunk64k (Examples.response "approved")
             Examples.requested in
  r.2 = [threadStart "t1"; toWorker "t1" (Worker.SessionStatusChanged InProgress);
         emit (transferStarted "t1")]
  /\ statusOf "t1" r.1 = Some InProgress.
Proof.
  pose proof (@approved_response_starts_transfer Examples.chunk64k
                (Examples.response "approved") "t1"
                (@Session.new Examples.chunk64k
                   (default Examples.upload130k
                      (Session.m_request <$> m_transferSessions Examples.requested !! "t1")))
                Examples.requested
                ltac:(reflexivity) ltac:(reflexivity) ltac:(vm_compute; reflexivity)
                ltac:(discriminate) ltac:(vm_compute; reflexivity)) as Hstart.
  cbv zeta in Hstart.
  match type of Hstart with
  | if ?c then _ else _ => replace c with true in Hstart by (vm_compute; reflexivity)
  end.
  destruct Hstart as (_ & Hout & _).
  split; [exact Hout | vm_compute; reflexivity].
Defined.

(** ** A download of unknown size *)

Section Download.
Context `{ChunkSize} `{Sha256}.
Import Worker.

(** X26.  A download whose request carries no size and no checksum, as
    [requestFileDownload] builds it, has a chunk count of zero; so the
    first chunk given to [processReceivedChunk] with a matching checksum,
    although it is not marked as the last, ends the transfer: chunk 0 is
    the only chunk ever requested, [transferCompleted] is emitted, the
    session is [Completed], the file is closed and the worker has
    stopped. *)
Theorem download_ends_after_first_chunk (s : Session.t) (onDisk : QByteArray)
    (chunk : FileChunk) :
  0 < CHUNK_SIZE <= INT_MAX ->
  type (Session.m_request s) = Download ->
  fileSize (Session.m_request s) <= 0 ->
  checksum (Session.m_request s) = EmptyString ->
  Session.m_file s = None ->
  Session.m_status s <> Completed ->
  0 <= chunkIndex chunk <= INT_MAX ->
  equalsCI (sha256Hex (data chunk)) (chunk_checksum chunk) = true ->
  isLast chunk = false ->
  let r := run [ThreadStarted (Some onDisk); Received chunk] (Worker.new s, s) in
  filter (fun sig => transmits sig = true) r.2
  = [chunkRequested (id (Session.m_request s)) 0]
  /\ last r.2 = Some transferCompleted
  /\ Session.m_status r.1.2 = Completed
  /\ Session.m_file r.1.2 = None
  /\ m_completedChunks r.1.1 = 1
  /\ stopped r.1.1.
Proof.
  intros HK Htype Hsize Hsum Hfile Hstatus Hindex Hok Hlast. cbv zeta.
  assert (Session.totalChunksFor (fileSize (Session.m_request s)) = 0) as Htotal.
  { unfold Session.totalChunksFor.
    by destruct (Z.ltb_spec 0 (fileSize (Session.m_request s))); [lia|]. }
  set (s1 := Session.with_file (Some []) s).
  set (w1 := startChunkTimeout
               (with_current 0
                  (with_current 0
                     (with_timers true false false 0
                        (with_failures ∅ ∅
                           (with_counts 0 0 ∅
                              (with_current 0
                                 (with_flags true false false (Worker.new s))))))))).
  assert (startTransfer (Some onDisk) (Worker.new s, s)
          = ((w1, s1), [chunkRequested (id (Session.m_request s)) 0])) as Hstart.
  { unfold startTransfer. cbn [new m_isRunning]. unfold Session.openFile.
    rewrite Hfile, Htype. cbn [negb fst snd]. fold s1.
    change (type (Session.m_request s1)) with (type (Session.m_request s)).
    rewrite Htype. unfold processDownload, requestChunk, checkCanContinue.
    cbn. subst w1. cbn. by rewrite Htotal. }
  set (written := take (Z.to_nat (chunkIndex chunk * CHUNK_SIZE))
                    ([] ++ replicate (Z.to_nat (chunkIndex chunk * CHUNK_SIZE) - 0) x00)
                  ++ data chunk
                  ++ drop (Z.to_nat (chunkIndex chunk * CHUNK_SIZE) + length (data chunk)) []).
  assert (Session.writeChunk (chunkIndex chunk) (data chunk) s1
          = (Session.with_file (Some written) s1, true)) as Hwrite.
  { unfold Session.writeChunk. cbn [Session.m_file s1 Session.with_file].
    assert (0 <= chunkIndex chunk * CHUNK_SIZE <= 2 ^ 62) as Hrange.
    { unfold INT_MAX in *. change (2 ^ 31) with 2147483648 in *.
      change (2 ^ 62) with 4611686018427387904. nia. }
    rewrite wrap64_small by (unfold INT64_MAX; lia).
    by destruct (Z.ltb_spec (chunkIndex chunk * CHUNK_SIZE) 0); [lia|]. }
  assert (exists w2 s2 sigs2,
            processReceivedChunk chunk (w1, s1)
            = ((w2, s2),
               liftSession sigs2
               ++ liftSession [Session.statusChanged Completed] ++ [transferCompleted])
            /\ Session.m_status s2 = Completed /\ Session.m_file s2 = None
            /\ m_completedChunks w2 = 1 /\ stopped w2)
    as (w2 & s2 & sigs2 & Hreceived & Hdone).
  { unfold processReceivedChunk. cbv beta iota.
    assert (checkCanContinue w1 = true) as -> by done.
    rewrite Hok, Hwrite, Hlast. cbn [negb andb].
    unfold markCompleted.
    assert (m_completedChunkIndices (stopChunkTimeout w1) = ∅) as Hnone by done.
    destruct (decide (chunkIndex chunk ∈ m_completedChunkIndices (stopChunkTimeout w1)))
      as [Hin|_]; [by rewrite Hnone in Hin|].
    assert (wrap32 (m_completedChunks (stopChunkTimeout w1) + 1) = 1) as -> by done.
    destruct (Session.updateChunkProgress 1 (Session.with_file (Some written) s1))
      as [s2 sigs2] eqn:Hprogress.
    assert (Session.m_request s2 = Session.m_request s
            /\ Session.m_status s2 = Session.m_status s) as [Hreq2 Hstatus2].
    { unfold Session.updateChunkProgress in Hprogress. injection Hprogress as <- _. done. }
    unfold processNextChunk.
    match goal with |- context [checkCanContinue ?w] =>
      assert (checkCanContinue w = true) as -> by done end.
    cbn [negb].
    match goal with |- context [m_totalChunks ?w <=? m_completedChunks ?w] =>
      assert ((m_totalChunks w <=? m_completedChunks w) = true) as -> by done end.
    unfold completeTransfer.
    match goal with |- context [negb (m_isRunning ?w) || m_isCancelled ?w] =>
      assert (negb (m_isRunning w) || m_isCancelled w = false) as -> by done end.
    rewrite Hreq2, Htype, Hsum. cbn [isEmpty negb].
    assert (Session.setStatus Completed (Session.closeFile s2)
            = (Session.with_status Completed false (Session.closeFile s2),
               [Session.statusChanged Completed])) as ->.
    { unfold Session.setStatus.
      destruct (decide _) as [Heq|_]; [|done].
      exfalso. apply Hstatus. by rewrite <- Hstatus2. }
    do 3 eexists. split; [reflexivity|]. done. }
  rewrite !run_cons. cbn [run step]. rewrite Hstart. cbn [run step fst snd].
  rewrite Hreceived. cbn [fst snd]. rewrite app_nil_r.
  destruct Hdone as (Hcompleted & Hclosed & Hcount & Hstopped).
  split_and!; try done.
  - cbn [app]. rewrite filter_cons_True by done. f_equal.
    rewrite filter_app.
    assert (filter (fun sig => transmits sig = true) (liftSession sigs2) = []) as ->.
    { unfold liftSession. clear. induction sigs2 as [|sg sigs IH]; [done|].
      cbn [map]. by rewrite filter_cons_False by (cbn; congruence). }
    done.
  - rewrite !app_assoc. apply last_snoc.
Qed.

End Download.

(** The download that [requestFileDownload] registers, and the first of
    several chunks. *)
Lemma download_ends_after_first_chunk_witness :
  let r := @Worker.run Examples.chunk64k Examples.digest
             [Worker.ThreadStarted (Some []); Worker.Received Scenarios.firstOfThree]
             (@Worker.new Examples.chunk64k Scenarios.downloading,
              Scenarios.downloading) in
  Session.m_status r.1.2 = Completed
  /\ filter (fun sig => transmits sig = true) r.2 = [Worker.chunkRequested "t2" 0].
Proof.
  destruct (@download_ends_after_first_chunk Examples.chunk64k Examples.digest
              Scenarios.downloading [] Scenarios.firstOfThree
              ltac:(vm_compute; split; [reflexivity | discriminate])
              ltac:(reflexivity) ltac:(vm_compute; discriminate) ltac:(reflexivity)
              ltac:(reflexivity) ltac:(vm_compute; discriminate)
              ltac:(vm_compute; split; discriminate)
              ltac:(vm_compute; reflexivity) ltac:(reflexivity))
    as (Honly & _ & Hstatus & _).
  split; [exact Hstatus | exact Honly].
Defined.

(** ** Empty files *)

Section EmptyFile.
Context `{ChunkSize} `{Sha256} `{FileSystem}.

(** X27.  [validateFile] has no lower bound on the size: an empty file
    that passes it is registered by [requestFileUpload] as a [Pending]
    transfer although [isFileSizeValid] rejects its size, and the worker
    of that transfer can only fail with "Invalid upload session". *)
Theorem empty_file_is_accepted_then_fails (filePath session tech newId : string)
    (m : Manager.t) :
  m_isConnected m = true ->
  (validateFile filePath EmptyString m).1 = true ->
  size_ (fileInfo filePath) <= 0 ->
  isEmpty (calculateFileChecksum filePath) = false ->
  let r := requestFileUpload filePath session tech newId m in
  r.2 = newId
  /\ isFileSizeValid (size_ (fileInfo filePath)) m = false
  /\ exists s,
       m_transferSessions r.1.1 !! newId = Some s
       /\ Session.m_status s = Pending
       /\ forall onDisk,
            (Worker.startTransfer (Some onDisk) (Worker.new s, s)).2
            = [Worker.transferFailed "Invalid upload session"].
Proof.
  intros Hconn Hvalid Hsize Hsum. cbv zeta.
  unfold requestFileUpload. rewrite Hconn. cbn [negb].
  destruct (validateFile filePath EmptyString m) as [valid errorMessage].
  cbn [fst] in Hvalid. subst valid. cbn [negb]. rewrite Hsum.
  split; [done|]. split.
  { unfold isFileSizeValid.
    by destruct (Z.ltb_spec 0 (size_ (fileInfo filePath))); [lia|]. }
  eexists. split.
  { cbn [fst]. rewrite andThen_state, sendControlMessage_state. cbn.
    apply lookup_insert_eq. }
  split; [done|]. intros onDisk.
  set (s := Session.new _).
  assert (Worker.m_totalChunks (Worker.new s) = 0) as Htotal.
  { cbn. unfold Session.totalChunksFor.
    by destruct (Z.ltb_spec 0 (size_ (fileInfo filePath))); [lia|]. }
  unfold Worker.startTransfer. cbn [Worker.new Worker.m_isRunning].
  unfold Session.openFile. cbn [s Session.new Session.m_file Session.m_request type].
  cbn [negb fst snd Session.with_file Session.m_request type].
  unfold Worker.processUpload.
  cbn [Worker.m_totalChunks Worker.with_timers Worker.with_failures Worker.with_counts
       Worker.with_current Worker.with_flags] in *.
  rewrite Htotal. by cbn.
Qed.

End EmptyFile.

(** [empty.txt], a file of no bytes. *)
Lemma empty_file_is_accepted_then_fails_witness :
  let r := @requestFileUpload Examples.chunk64k Examples.digest Scenarios.diskWithEmpty
             "/home/user/empty.txt" "s1" "tech" "t3" Examples.online in
  r.2 = "t3" /\ statusOf "t3" r.1.1 = Some Pending
  /\ isFileSizeValid 0 Examples.online = false.
Proof.
  destruct (@empty_file_is_accepted_then_fails Examples.chunk64k Examples.digest
              Scenarios.diskWithEmpty "/home/user/empty.txt" "s1" "tech" "t3"
              Examples.online
              ltac:(reflexivity) ltac:(vm_compute; reflexivity)
              ltac:(vm_compute; discriminate) ltac:(vm_compute; reflexivity))
    as (Hid & Hsize & _).
  split; [exact Hid|]. split; [vm_compute; reflexivity | exact Hsize].
Defined.

(** ** Acknowledgements *)

Section Acknowledgements.
Context `{ChunkSize} `{Sha256}.
Import Worker.

(** X28.  [onChunkAcknowledged] does not compare the index with the
    chunks of the transfer: any index that is not yet in the completed
    set, whether or not such a chunk exists or was sent, is added to it and
    counted; when the count reaches the number of chunks, an upload
    completes. *)
Theorem acknowledgement_index_is_not_checked (w : Worker.t) (s : Session.t) (index : Z) :
  m_isRunning w = true -> m_isCancelled w = false ->
  index ∉ m_completedChunkIndices w ->
  INT_MIN <= m_completedChunks w < INT_MAX ->
  let r := onChunkAcknowledged index (w, s) in
  tally r.1.1 = (m_completedChunks w + 1, {[index]} ∪ m_completedChunkIndices w)
  /\ (type (Session.m_request s) = Upload ->
      m_totalChunks w <= m_completedChunks w + 1 ->
      last r.2 = Some transferCompleted
      /\ Session.m_status r.1.2 = Completed
      /\ m_isRunning r.1.1 = false).
Proof.
  intros Hrun Hcancel Hnew Hrange. cbv zeta.
  unfold onChunkAcknowledged. rewrite Hrun, Hcancel. cbn [negb orb].
  set (w1 := if index =? m_currentChunkIndex w then stopChunkTimeout w else w).
  assert (tally w1 = tally w /\ m_totalChunks w1 = m_totalChunks w
          /\ m_isRunning w1 = true /\ m_isCancelled w1 = false) as (Ht1 & Hn1 & Hr1 & Hc1).
  { subst w1. by destruct (_ =? _). }
  assert (m_completedChunkIndices w1 = m_completedChunkIndices w
          /\ m_completedChunks w1 = m_completedChunks w) as [Hi1 Hk1].
  { unfold tally in Ht1. by injection Ht1 as -> ->. }
  rewrite bool_decide_eq_false_2 by (by rewrite Hi1). cbn [negb andb].
  unfold markCompleted.
  destruct (decide (index ∈ m_completedChunkIndices w1)) as [Hin|_];
    [by rewrite Hi1 in Hin|].
  rewrite Hk1, Hi1, Hn1.
  rewrite wrap32_small by (unfold INT_MIN, INT_MAX in *; lia).
  destruct (Session.updateChunkProgress (m_completedChunks w + 1) s) as [s2 sigs2]
    eqn:Hprogress.
  assert (Session.m_request s2 = Session.m_request s) as Hreq2.
  { unfold Session.updateChunkProgress in Hprogress. by injection Hprogress as <- _. }
  set (w2 := with_counts _ _ _ w1).
  assert (tally w2 = (m_completedChunks w + 1, {[index]} ∪ m_completedChunkIndices w))
    as Ht2 by done.
  change (m_totalChunks w2) with (m_totalChunks w).
  change (m_completedChunks w2) with (m_completedChunks w + 1).
  destruct (Z.leb_spec (m_totalChunks w) (m_completedChunks w + 1)) as [Hall|Hmore].
  - destruct (completeTransfer (w2, s2)) as [st e2] eqn:Hcomplete. cbn [fst snd].
    split.
    + pose proof (tally_completeTransfer (w2, s2)) as Ht. rewrite Hcomplete in Ht.
      cbn [fst snd] in Ht. by rewrite Ht.
    + intros Htype _. unfold completeTransfer in Hcomplete.
      change (m_isRunning w2) with (m_isRunning w1) in Hcomplete.
      change (m_isCancelled w2) with (m_isCancelled w1) in Hcomplete.
      rewrite Hr1, Hc1, Hreq2, Htype in Hcomplete. cbn [negb orb] in Hcomplete.
      pose proof (setStatus_status Completed (Session.closeFile s2)) as Hstatus.
      destruct (Session.setStatus Completed (Session.closeFile s2)) as [s3 sigs3].
      injection Hcomplete as <- <-. cbn [fst snd] in *.
      split; [|done]. rewrite app_assoc. apply last_snoc.
  - destruct (processNextChunk (forget index w2, s2)) as [st e2] eqn:Hnext. cbn [fst snd].
    split; [|intros _ Hle; lia].
    pose proof (tally_processNextChunk (forget index w2, s2)) as Ht. rewrite Hnext in Ht.
    cbn [fst snd] in Ht. by rewrite Ht.
Qed.

End Acknowledgements.

(** Chunk 7 acknowledged for the one-chunk upload of [notes.txt]. *)
Lemma acknowledgement_index_is_not_checked_witness :
  let r := @Worker.onChunkAcknowledged Examples.chunk64k Examples.digest 7
             (Examples.sendingWorker, Examples.sendingSession) in
  Worker.m_completedChunkIndices r.1.1 = {[7]}
  /\ last r.2 = Some Worker.transferCompleted
  /\ Session.m_status r.1.2 = Completed.
Proof.
  destruct (@acknowledgement_index_is_not_checked Examples.chunk64k Examples.digest
              Examples.sendingWorker Examples.sendingSession 7
              ltac:(vm_compute; reflexivity) ltac:(vm_compute; reflexivity)
              ltac:(change (7 ∉ (∅ : gset Z)); apply not_elem_of_empty)
              ltac:(vm_compute; split; [discriminate | reflexivity]))
    as [Htally Hdone].
  destruct (Hdone ltac:(reflexivity) ltac:(vm_compute; discriminate))
    as (Hlast & Hstatus & _).
  split; [vm_compute; reflexivity|]. split; [exact Hlast | exact Hstatus].
Defined.

(** ** Cancelling and worker slots *)

Section Slot.
Context `{ChunkSize} `{Sha256}.

(** X29.  [cancelTransfer] takes the worker of the transfer out of the
    controller's table, and only that one: the table has one entry less,
    so that, if it was not over the limit, any known transfer can be
    started afterwards. *)
Theorem cancel_frees_the_slot (transfer other : string) (m : Manager.t) :
  is_Some (m_transferWorkers m !! transfer) ->
  Z.of_nat (size (m_transferWorkers m)) <= m_maxConcurrentTransfers m ->
  let m' := (cancelTransfer transfer m).1 in
  m_transferWorkers m' = delete transfer (m_transferWorkers m)
  /\ Z.of_nat (size (m_transferWorkers m')) = Z.of_nat (size (m_transferWorkers m)) - 1
  /\ (is_Some (m_transferSessions m' !! other) -> canStart other m' = true).
Proof.
  intros Hworker Hroom. cbv zeta.
  destruct (cancelTransfer_sessions transfer m) as (_ & _ & _ & Hgone & Hothers & _ & Hlimit).
  cbv zeta in *.
  set (m' := (cancelTransfer transfer m).1) in *.
  assert (m_transferWorkers m' = delete transfer (m_transferWorkers m)) as Hdelete.
  { apply map_eq. intros t. destruct (decide (t = transfer)) as [->|Hne].
    - by rewrite Hgone, lookup_delete_eq.
    - by rewrite Hothers, lookup_delete_ne. }
  assert (Z.of_nat (size (m_transferWorkers m'))
          = Z.of_nat (size (m_transferWorkers m)) - 1) as Hsize.
  { rewrite Hdelete, map_size_delete_Some by done.
    assert (size (m_transferWorkers m) ≠ 0%nat) as Hne.
    { intros Hzero%map_size_empty_iff. rewrite Hzero in Hworker.
      rewrite lookup_empty in Hworker. by destruct Hworker. }
    lia. }
  split; [done|]. split; [done|]. intros [s Hs]. unfold canStart.
  rewrite Hs, Hsize, Hlimit. apply Z.ltb_lt. lia.
Qed.

End Slot.

(** One slot, taken by [t1]; once [t1] is cancelled, [t2] can start. *)
Lemma cancel_frees_the_slot_witness :
  let m' := (@cancelTransfer Examples.chunk64k "t1" Scenarios.busy).1 in
  @canStart "t2" Scenarios.busy = false
  /\ @canStart "t2" m' = true
  /\ statusOf "t1" m' = Some Cancelled.
Proof.
  destruct (@cancel_frees_the_slot Examples.chunk64k "t1" "t2" Scenarios.busy
              ltac:(vm_compute; eexists; reflexivity) ltac:(vm_compute; discriminate))
    as (_ & _ & Hfree).
  split; [vm_compute; reflexivity|]. split; [|vm_compute; reflexivity].
  apply Hfree. vm_compute. eexists. reflexivity.
Defined.
